(** * nanobot Solana trading core: scoring, safety gate, positions, memory

    A shallow embedding of [solana_trading/positions.py], [safety.py],
    [memory.py] and the limit update of [tool.py].

    Conventions of the embedding.
    - A Python [float] is the rational it denotes ([Q]); an [int] is a
      [Z].  Infinities and NaN are not values of the model.
    - The limit prices of a position and the win rate of [get_stats] are
      computed as the code computes them on doubles: every operation is
      followed by [Py.fl], rounding to the nearest binary64 value, ties
      to even, with gradual underflow (overflow is not modelled).
      Elsewhere arithmetic is exact, and [round(x, n)] is
      round-half-to-even at [n] decimals.
    - Every object with mutable fields (a manager, the strategy memory) is
      a record that is passed in and returned; the JSON file behind it is
      the field [store] ([None]: no readable file).
    - [time.time()] is an argument of the operation that reads the clock. *)

From Stdlib Require Import QArith Qround Qabs Qminmax Qpower Lqa ZArith List
  Ascii.
From stdpp Require Import base strings gmap list pretty.

Open Scope Q_scope.

(** ** Python built-ins on numbers, lists and format strings *)
Module Py.

(** [x <= y] and [x < y] on floats. *)
Definition leb (x y : Q) : bool := Qle_bool x y.
Definition ltb (x y : Q) : bool := negb (Qle_bool y x).

(** Truth value of a float: [x] is true unless it is zero. *)
Definition truthy (x : Q) : bool := negb (Qeq_bool x 0).

(** [min(a, b)] and [max(a, b)]: the first argument wins a tie. *)
Definition min2 (a b : Q) : Q := if ltb b a then b else a.
Definition max2 (a b : Q) : Q := if ltb a b then b else a.
Definition min3 (a b c : Q) : Q := min2 (min2 a b) c.

(** Nearest integer, ties to the even one. *)
Definition round_half_even (x : Q) : Z :=
  let f := Qfloor x in
  match Qcompare (x - inject_Z f) (1 # 2) with
  | Lt => f
  | Gt => (f + 1)%Z
  | Eq => if Z.even f then f else (f + 1)%Z
  end.

Definition pow10 (n : nat) : Q := inject_Z (10 ^ Z.of_nat n).

(** [round(x, ndigits)]. *)
Definition round (x : Q) (ndigits : nat) : Q :=
  inject_Z (round_half_even (x * pow10 ndigits)) / pow10 ndigits.

(** *** binary64 *)

Definition pow2 (e : Z) : Q := Qpower 2 e.

(** [floor(log2 |x|)] for [x <> 0]. *)
Definition ilog2 (x : Q) : Z :=
  let k := (Z.log2 (Z.abs (Qnum x)) - Z.log2 (Zpos (Qden x)))%Z in
  if Qle_bool (pow2 k) (Qabs x) then k else (k - 1)%Z.

(** The exponent of the last bit of the double nearest to [x]: 53
    significant bits, and no bit below [2^-1074]. *)
Definition ulp_exponent (x : Q) : Z := Z.max (ilog2 x - 52) (-1074).

(** Rounding to that exponent. *)
Definition round_at (e : Z) (x : Q) : Q :=
  inject_Z (round_half_even (x / pow2 e)) * pow2 e.

(** The double nearest to [x], ties to the even mantissa. *)
Definition fl (x : Q) : Q :=
  if Qeq_bool x 0 then 0 else round_at (ulp_exponent x) x.

(** [x] is the value of a double. *)
Definition is_float (x : Q) : Prop := fl x == x.

(** [x + y], [x - y], [x * y] and [x / y] on floats. *)
Definition fadd (x y : Q) : Q := fl (x + y).
Definition fsub (x y : Q) : Q := fl (x - y).
Definition fmul (x y : Q) : Q := fl (x * y).
Definition fdiv (x y : Q) : Q := fl (x / y).

(** [round(x, ndigits)] of a float: the decimal nearest to the value of
    [x], read back as a double. *)
Definition float_round (x : Q) (ndigits : nat) : Q := fl (round x ndigits).

(** [int(x)]: truncation towards zero. *)
Definition int (x : Q) : Z := if ltb x 0 then Qceiling x else Qfloor x.

(** [sum(xs)]: a left fold that starts at 0.  How [sum] rounds a list of
    floats depends on the interpreter (Python 3.12 sums them with
    compensation); the sum is kept exact. *)
Definition sum (xs : list Q) : Q := fold_left Qplus xs 0.

(** [l[-n:]] for a positive [n]: the last [n] elements. *)
Definition last_n {A} (n : nat) (l : list A) : list A :=
  drop (length l - n) l.

(** Digits in groups of three, as the [,] option of a format spec. *)
Fixpoint group_rev (k : nat) (l : list ascii) : list ascii :=
  match l with
  | [] => []
  | c :: l' =>
      if Nat.eqb k 3 then ","%char :: c :: group_rev 1 l'
      else c :: group_rev (S k) l'
  end.

Definition group_thousands (s : string) : string :=
  String.string_of_list_ascii
    (rev (group_rev 0 (rev (String.list_ascii_of_string s)))).

Definition zero_pad (width : nat) (s : string) : string :=
  String.string_of_list_ascii (replicate (width - String.length s) "0"%char) +:+ s.

(** [f"{x:.Nf}"] ([comma = false]) and [f"{x:,.Nf}"] ([comma = true]). *)
Definition format_f (comma : bool) (ndigits : nat) (x : Q) : string :=
  let scaled := round_half_even (Qabs x * pow10 ndigits) in
  let unit := (10 ^ Z.of_nat ndigits)%Z in
  let ip := pretty (scaled / unit)%Z in
  let fp := if Nat.eqb ndigits 0 then ""
            else "." +:+ zero_pad ndigits (pretty (scaled mod unit)%Z) in
  (if ltb x 0 then "-" else "")
    +:+ (if comma then group_thousands ip else ip) +:+ fp.

(** [f"{n}"] for an [int]. *)
Definition format_int (n : Z) : string := pretty n.

(** [l[-limit:]] for any integer [limit]: the last [limit] elements when
    [limit] is positive, the whole list when it is 0 ([l[-0:]] is [l[0:]]),
    and [l] without its first [-limit] elements when it is negative. *)
Definition slice_last {A} (limit : Z) (l : list A) : list A :=
  if (0 <? limit)%Z then drop (length l - Z.to_nat limit) l
  else drop (Z.to_nat (- limit)) l.

(** [sep.join(parts)]. *)
Definition join (sep : string) (parts : list string) : string :=
  String.concat sep parts.

End Py.

(** ** positions.py *)
Module Positions.

Record Position := mkPosition {
  token_address : string;
  symbol : string;
  entry_price_usd : Q;
  amount_tokens : Q;
  amount_sol_in : Q;
  entry_time : Q;
  stop_loss_price : Q;
  take_profit_price : Q;
  status : string  (* open, closed, stopped_out, took_profit *)
}.

Definition set_status (reason : string) (p : Position) : Position :=
  mkPosition (token_address p) (symbol p) (entry_price_usd p)
    (amount_tokens p) (amount_sol_in p) (entry_time p)
    (stop_loss_price p) (take_profit_price p) reason.

Definition is_open (p : Position) : bool := String.eqb (status p) "open".

(** The two shapes of dict appended to [_trade_log]. *)
Inductive TradeLogEntry :=
| Buy (token sym : string) (price sol_amount time : Q)
| Sell (token sym : string) (entry_price exit_price sol_in sol_out
          pnl_sol pnl_pct : Q) (reason : string) (time : Q).

Definition entry_token (e : TradeLogEntry) : string :=
  match e with
  | Buy t _ _ _ _ => t
  | Sell t _ _ _ _ _ _ _ _ _ => t
  end.

Definition entry_time_of (e : TradeLogEntry) : Q :=
  match e with
  | Buy _ _ _ _ t => t
  | Sell _ _ _ _ _ _ _ _ _ t => t
  end.

Record Stats := mkStats {
  total_pnl_sol : Q;
  wins : Z;
  losses : Z
}.

(** The JSON document written by [_save]. *)
Record Document := mkDocument {
  doc_positions : list Position;
  doc_trade_log : list TradeLogEntry;
  doc_stats : Stats
}.

Record PositionManager := mkManager {
  _positions : list Position;
  _trade_log : list TradeLogEntry;
  _stats : Stats;
  _loaded : bool;
  store : option Document
}.

(** [PositionManager(store_path)]. *)
Definition init (file : option Document) : PositionManager :=
  mkManager [] [] (mkStats 0 0 0) false file.

Definition _load (pm : PositionManager) : PositionManager :=
  if _loaded pm then pm
  else match store pm with
       | Some d =>
           mkManager (_positions pm ++ doc_positions d) (doc_trade_log d)
             (doc_stats d) true (store pm)
       | None =>
           mkManager (_positions pm) (_trade_log pm) (_stats pm) true (store pm)
       end.

Definition _save (pm : PositionManager) : PositionManager :=
  mkManager (_positions pm) (_trade_log pm) (_stats pm) (_loaded pm)
    (Some (mkDocument (_positions pm) (Py.last_n 500 (_trade_log pm))
             (_stats pm))).

(** *** Position lifecycle *)

(** [now_entry] and [now_log] are the two clock readings. *)
Definition open_position (token_address symbol : string)
    (entry_price_usd amount_tokens amount_sol_in stop_loss_pct
       take_profit_pct : Q) (now_entry now_log : Q) (pm : PositionManager)
  : Position * PositionManager :=
  let pm := _load pm in
  let pos :=
    mkPosition token_address symbol entry_price_usd amount_tokens
      amount_sol_in now_entry
      (Py.fmul entry_price_usd (Py.fsub 1 (Py.fdiv stop_loss_pct 100)))
      (Py.fmul entry_price_usd (Py.fadd 1 (Py.fdiv take_profit_pct 100)))
      "open" in
  let pm :=
    mkManager (_positions pm ++ [pos])
      (_trade_log pm
         ++ [Buy token_address symbol entry_price_usd amount_sol_in now_log])
      (_stats pm) (_loaded pm) (store pm) in
  (pos, _save pm).

(** The [for pos in self._positions] loop of [close_position] up to its
    [return]: the first open position of the token gets [status = reason];
    the result is that position and the list with it updated in place. *)
Fixpoint close_scan (token reason : string) (ps : list Position)
  : option (Position * list Position) :=
  match ps with
  | [] => None
  | pos :: rest =>
      if String.eqb (token_address pos) token
         && String.eqb (status pos) "open"
      then Some (set_status reason pos, set_status reason pos :: rest)
      else match close_scan token reason rest with
           | Some (hit, rest') => Some (hit, pos :: rest')
           | None => None
           end
  end.

Definition close_position (token : string) (exit_price sol_out : Q)
    (reason : string) (now : Q) (pm : PositionManager)
  : option Position * PositionManager :=
  let pm := _load pm in
  match close_scan token reason (_positions pm) with
  | Some (pos, positions') =>
      let pnl_sol := sol_out - amount_sol_in pos in
      let pnl_pct :=
        if Py.truthy (entry_price_usd pos)
        then (exit_price - entry_price_usd pos) / entry_price_usd pos * 100
        else 0 in
      let total := Py.round (total_pnl_sol (_stats pm) + pnl_sol) 6 in
      let stats :=
        if Py.leb 0 pnl_sol
        then mkStats total (wins (_stats pm) + 1)%Z (losses (_stats pm))
        else mkStats total (wins (_stats pm)) (losses (_stats pm) + 1)%Z in
      let entry :=
        Sell token (symbol pos) (entry_price_usd pos) exit_price
          (amount_sol_in pos) sol_out (Py.round pnl_sol 6)
          (Py.round pnl_pct 2) reason now in
      (Some pos,
       _save (mkManager positions' (_trade_log pm ++ [entry]) stats
                (_loaded pm) (store pm)))
  | None => (None, pm)
  end.

(** *** Queries *)

Definition get_open_positions (pm : PositionManager)
  : list Position * PositionManager :=
  let pm := _load pm in
  (filter (fun p => is_open p = true) (_positions pm), pm).

Definition get_total_sol_invested (pm : PositionManager)
  : Q * PositionManager :=
  let '(ps, pm) := get_open_positions pm in
  (Py.sum (map amount_sol_in ps), pm).

Definition get_positions_for_token (token : string)
    (pm : PositionManager) : list Position * PositionManager :=
  let pm := _load pm in
  (filter (fun p => String.eqb (token_address p) token && is_open p = true)
     (_positions pm), pm).

(** The newest-first scan of [get_last_trade_time]. *)
Fixpoint first_time_of (token_address : string) (es : list TradeLogEntry)
  : option Q :=
  match es with
  | [] => None
  | e :: es' =>
      if String.eqb (entry_token e) token_address then Some (entry_time_of e)
      else first_time_of token_address es'
  end.

Definition get_last_trade_time (token_address : string)
    (pm : PositionManager) : option Q * PositionManager :=
  let pm := _load pm in
  (first_time_of token_address (rev (_trade_log pm)), pm).

(** The dict returned by [get_stats]. *)
Record StatsReport := mkReport {
  rep_total_pnl_sol : Q;
  rep_wins : Z;
  rep_losses : Z;
  total_trades : Z;
  win_rate_pct : Q
}.

Definition get_stats (pm : PositionManager) : StatsReport * PositionManager :=
  let pm := _load pm in
  let total := (wins (_stats pm) + losses (_stats pm))%Z in
  let win_rate :=
    if (0 <? total)%Z
    then Py.fmul (Py.fdiv (inject_Z (wins (_stats pm))) (inject_Z total)) 100
    else 0 in
  (mkReport (total_pnl_sol (_stats pm)) (wins (_stats pm))
     (losses (_stats pm)) total (Py.float_round win_rate 1), pm).

(** *** Smart compounding *)

Definition multiplier_of (win_rate : Q) : Q :=
  if Py.leb 70 win_rate then 1.5
  else if Py.leb 55 win_rate then 1.2
  else if Py.ltb win_rate 40 then 0.5
  else 1.0.

Definition suggest_trade_size (base_sol sol_balance : Q)
    (pm : PositionManager) : Q * PositionManager :=
  let '(stats, pm) := get_stats pm in
  let total := total_trades stats in
  if (total <? 5)%Z then (base_sol, pm)
  else
    let multiplier := multiplier_of (win_rate_pct stats) in
    let suggested :=
      Py.min3 (base_sol * multiplier) (base_sol * 2) (sol_balance * 0.1) in
    (Py.round (Py.max2 suggested 0.01) 4, pm).

(** *** Stop-loss / take-profit checking *)

(** The loop body of [check_stop_loss_take_profit] over the open
    positions, [triggered] being built front to back. *)
Fixpoint scan_triggers (current_prices : gmap string Q)
    (ps : list Position) : list (Position * string) :=
  match ps with
  | [] => []
  | pos :: rest =>
      match current_prices !! token_address pos with
      | None => scan_triggers current_prices rest
      | Some price =>
          if Py.leb price (stop_loss_price pos)
          then (pos, "stopped_out") :: scan_triggers current_prices rest
          else if Py.leb (take_profit_price pos) price
          then (pos, "took_profit") :: scan_triggers current_prices rest
          else scan_triggers current_prices rest
      end
  end.

Definition check_stop_loss_take_profit (current_prices : gmap string Q)
    (pm : PositionManager) : list (Position * string) * PositionManager :=
  let '(ps, pm) := get_open_positions pm in
  (scan_triggers current_prices ps, pm).

Definition get_trade_history (limit : Z) (pm : PositionManager)
  : list TradeLogEntry * PositionManager :=
  let pm := _load pm in
  (Py.slice_last limit (_trade_log pm), pm).

End Positions.

(** ** tool.py: the limit update *)
Module Tool.
Import Positions.

Definition newline : string := String (ascii_of_nat 10) EmptyString.

Definition set_stop_loss (pct : Q) (pos : Position) : Position :=
  mkPosition (token_address pos) (symbol pos) (entry_price_usd pos)
    (amount_tokens pos) (amount_sol_in pos) (entry_time pos)
    (Py.fmul (entry_price_usd pos) (Py.fsub 1 (Py.fdiv pct 100)))
    (take_profit_price pos)
    (status pos).

Definition set_take_profit (pct : Q) (pos : Position) : Position :=
  mkPosition (token_address pos) (symbol pos) (entry_price_usd pos)
    (amount_tokens pos) (amount_sol_in pos) (entry_time pos)
    (stop_loss_price pos)
    (Py.fmul (entry_price_usd pos) (Py.fadd 1 (Py.fdiv pct 100)))
    (status pos).

(** The two guarded assignments of [_set_limits]. *)
Definition apply_limits (stop_loss_pct take_profit_pct : Q) (pos : Position)
  : Position :=
  let pos := if Py.ltb 0 stop_loss_pct
             then set_stop_loss stop_loss_pct pos else pos in
  if Py.ltb 0 take_profit_pct
  then set_take_profit take_profit_pct pos else pos.

(** [pos = positions[0]] is the manager's own object: assigning to its
    fields changes the first open position of the token inside
    [_positions]. *)
Fixpoint update_first_open (token : string) (f : Position -> Position)
    (ps : list Position) : list Position :=
  match ps with
  | [] => []
  | p :: rest =>
      if String.eqb (token_address p) token && is_open p
      then f p :: rest
      else p :: update_first_open token f rest
  end.

Definition _set_limits (token : string) (stop_loss_pct take_profit_pct : Q)
    (pm : PositionManager) : string * PositionManager :=
  if String.eqb token "" then ("Error: token_address required", pm)
  else
    let '(positions, pm) := get_positions_for_token token pm in
    match positions with
    | [] => ("No open position for " +:+ token, pm)
    | pos0 :: _ =>
        let pos := apply_limits stop_loss_pct take_profit_pct pos0 in
        let pm :=
          _save (mkManager
                   (update_first_open token
                      (apply_limits stop_loss_pct take_profit_pct)
                      (_positions pm))
                   (_trade_log pm) (_stats pm) (_loaded pm) (store pm)) in
        ("Updated " +:+ symbol pos +:+ ":" +:+ newline
           +:+ "  SL: $" +:+ Py.format_f false 8 (stop_loss_price pos)
           +:+ " | TP: $" +:+ Py.format_f false 8 (take_profit_price pos),
         pm)
    end.

End Tool.

(** ** safety.py *)
Module Safety.
Import Positions.

(** [service.TokenInfo]. *)
Record TokenInfo := mkToken {
  address : string;
  tok_symbol : string;
  name : string;
  price_usd : Q;
  volume_24h : Q;
  liquidity_usd : Q;
  price_change_5m : Q;
  price_change_1h : Q;
  price_change_24h : Q;
  buy_count_5m : Z;
  sell_count_5m : Z;
  pair_address : string;
  fdv : Q
}.

(** Modelled from the spec: [nanobot.config.schema.SolanaRiskLimits] is
    not among the sources; these are the options of the risk
    configuration that the gate and the limit update read. *)
Record SolanaRiskLimits := mkRisk {
  min_liquidity_usd : Q;
  min_volume_24h_usd : Q;
  max_position_sol : Q;
  max_portfolio_sol : Q;
  cooldown_seconds : Q;
  min_holder_count : Z;
  max_top_holder_pct : Q;
  max_slippage_bps : Z;
  stop_loss_pct : Q;
  take_profit_pct : Q
}.

Record SafetyResult := mkResult {
  safe : bool;
  reasons : list string;
  score : Z
}.

Definition _compute_trend_score (token : TokenInfo) : Z :=
  let score := 50%Z in
  (* Buy pressure *)
  let total_txns := (buy_count_5m token + sell_count_5m token)%Z in
  let score :=
    if (0 <? total_txns)%Z then
      let buy_ratio := inject_Z (buy_count_5m token) / inject_Z total_txns in
      if Py.leb 0.7 buy_ratio then (score + 20)%Z
      else if Py.leb 0.6 buy_ratio then (score + 10)%Z
      else if Py.ltb buy_ratio 0.4 then (score - 15)%Z
      else score
    else score in
  (* Price momentum *)
  let score :=
    if Py.ltb 5 (price_change_5m token) then (score + 10)%Z
    else if Py.ltb (price_change_5m token) (-5) then (score - 10)%Z
    else score in
  let score :=
    if Py.ltb 10 (price_change_1h token) then (score + 10)%Z
    else if Py.ltb (price_change_1h token) (-10) then (score - 10)%Z
    else score in
  (* Liquidity depth *)
  let score :=
    if Py.ltb 200000 (liquidity_usd token) then (score + 10)%Z
    else if Py.ltb 100000 (liquidity_usd token) then (score + 5)%Z
    else score in
  (* Velocity *)
  let score :=
    if Py.ltb 0 (liquidity_usd token) then
      let velocity := volume_24h token / liquidity_usd token in
      if Py.ltb 5 velocity then (score + 5)%Z
      else if Py.ltb velocity 0.5 then (score - 5)%Z
      else score
    else score in
  Z.max 0 (Z.min 100 score).

(** What [await service.get_token_holders(address)] does: it returns the
    dict [{holder_count, top_holder_pct}] or raises an exception whose
    text is [msg]. *)
Inductive HolderOutcome :=
| HoldersReturn (holder_count : Z) (top_holder_pct : Q)
| HoldersRaise (msg : string).

Section Gate.

(** [str(x)] of a number placed in an f-string without a format spec. *)
Variable py_str : Q -> string.

(** The f-strings appended to [reasons]. *)
Definition liquidity_reason (token : TokenInfo) (risk : SolanaRiskLimits)
  : string :=
  "Liquidity $" +:+ Py.format_f true 0 (liquidity_usd token)
    +:+ " < min $" +:+ Py.format_f true 0 (min_liquidity_usd risk).

Definition volume_reason (token : TokenInfo) (risk : SolanaRiskLimits)
  : string :=
  "24h vol $" +:+ Py.format_f true 0 (volume_24h token)
    +:+ " < min $" +:+ Py.format_f true 0 (min_volume_24h_usd risk).

Definition position_reason (amount_sol : Q) (risk : SolanaRiskLimits)
  : string :=
  "Position " +:+ py_str amount_sol +:+ " SOL > max "
    +:+ py_str (max_position_sol risk) +:+ " SOL".

Definition portfolio_reason (total : Q) (risk : SolanaRiskLimits)
  : string :=
  "Portfolio would be " +:+ Py.format_f false 2 total +:+ " SOL > max "
    +:+ py_str (max_portfolio_sol risk) +:+ " SOL".

Definition cooldown_reason (remaining : Z) (token : TokenInfo) : string :=
  "Cooldown: " +:+ Py.format_int remaining +:+ "s remaining for "
    +:+ tok_symbol token.

Definition duplicate_reason (token : TokenInfo) : string :=
  "Already have open position for " +:+ tok_symbol token.

Definition holders_reason (holder_count : Z) (risk : SolanaRiskLimits)
  : string :=
  "Only " +:+ Py.format_int holder_count +:+ " holders < min "
    +:+ Py.format_int (min_holder_count risk).

Definition top_holder_reason (top_holder_pct : Q)
    (risk : SolanaRiskLimits) : string :=
  "Top holder " +:+ Py.format_f false 1 top_holder_pct +:+ "% > max "
    +:+ py_str (max_top_holder_pct risk) +:+ "%".

Definition holder_failure_reason (e : string) : string :=
  "Holder check failed: " +:+ e.

Definition check_token_safety (token : TokenInfo)
    (risk : SolanaRiskLimits) (positions : PositionManager)
    (service : HolderOutcome) (amount_sol : Q) (now_check now_report : Q)
  : SafetyResult * PositionManager :=
  let reasons : list string := [] in
  (* 1. Liquidity *)
  let reasons :=
    if Py.ltb (liquidity_usd token) (min_liquidity_usd risk)
    then reasons ++ [liquidity_reason token risk] else reasons in
  (* 2. Volume *)
  let reasons :=
    if Py.ltb (volume_24h token) (min_volume_24h_usd risk)
    then reasons ++ [volume_reason token risk] else reasons in
  (* 3. Position size *)
  let reasons :=
    if Py.ltb (max_position_sol risk) amount_sol
    then reasons ++ [position_reason amount_sol risk] else reasons in
  (* 4. Portfolio exposure *)
  let '(invested, positions) := get_total_sol_invested positions in
  let reasons :=
    if Py.ltb (max_portfolio_sol risk) (invested + amount_sol)
    then reasons ++ [portfolio_reason (invested + amount_sol) risk]
    else reasons in
  (* 5. Cooldown *)
  let '(last_trade, positions) :=
    get_last_trade_time (address token) positions in
  let reasons :=
    match last_trade with
    | Some last =>
        if Py.truthy last
           && Py.ltb (now_check - last) (cooldown_seconds risk)
        then
          let remaining :=
            Py.int (cooldown_seconds risk - (now_report - last)) in
          reasons ++ [cooldown_reason remaining token]
        else reasons
    | None => reasons
    end in
  (* 6. Duplicate position *)
  let '(dups, positions) :=
    get_positions_for_token (address token) positions in
  let reasons :=
    match dups with
    | [] => reasons
    | _ :: _ => reasons ++ [duplicate_reason token]
    end in
  (* 7. Holder distribution *)
  let reasons :=
    match service with
    | HoldersReturn holder_count top_holder_pct =>
        let reasons :=
          if (holder_count <? min_holder_count risk)%Z
          then reasons ++ [holders_reason holder_count risk]
          else reasons in
        if Py.ltb (max_top_holder_pct risk) top_holder_pct
        then reasons ++ [top_holder_reason top_holder_pct risk]
        else reasons
    | HoldersRaise e => reasons ++ [holder_failure_reason e]
    end in
  let score := _compute_trend_score token in
  (mkResult (Nat.eqb (length reasons) 0) reasons score, positions).

End Gate.

End Safety.

(** ** service.py: the computations on what the APIs return *)
Module Service.
Import Safety.

Definition LAMPORTS_PER_SOL : Z := 1000000000.

(** What [await self._rpc_call("getTokenLargestAccounts", [mint])] gives
    [get_token_holders]: an exception, or a result whose ["value"] is the
    list of accounts (empty when the result is not a dict or has no
    ["value"]), each account given by [int(a.get("amount", 0))]. *)
Inductive LargestAccounts :=
| RpcRaise (msg : string)
| RpcAccounts (amounts : list Z).

(** [max(amounts)] of a non-empty list of ints. *)
Definition max_of (first : Z) (rest : list Z) : Z := fold_left Z.max rest first.

Definition get_token_holders (rpc : LargestAccounts) : HolderOutcome :=
  match rpc with
  | RpcRaise msg => HoldersRaise msg
  | RpcAccounts accounts =>
      match accounts with
      | [] => HoldersReturn 0 100
      | first :: rest =>
          let sum := fold_left Z.add accounts 0%Z in
          let total := if (sum =? 0)%Z then 1%Z else sum in
          let top_pct := inject_Z (max_of first rest) / inject_Z total * 100 in
          HoldersReturn (Z.of_nat (length accounts)) (Py.round top_pct 2)
      end
  end.

(** The loop of [get_token_info] over the pairs of the response, each pair
    given by the [TokenInfo] that the loop builds from it (its address is
    [""] when the pair has none); [seen] and [results] are the loop's
    variables. *)
Fixpoint collect_tokens (seen : gset string) (pairs : list TokenInfo)
  : list TokenInfo :=
  match pairs with
  | [] => []
  | token :: rest =>
      if String.eqb (address token) "" || bool_decide (address token ∈ seen)
      then collect_tokens seen rest
      else token :: collect_tokens ({[address token]} ∪ seen) rest
  end.

(** [{t.address: t.price_usd for t in tokens}]: a later token replaces an
    earlier one with the same address. *)
Definition price_map (tokens : list TokenInfo) : gmap string Q :=
  fold_left (fun prices t => <[address t := price_usd t]> prices) tokens ∅.

(** [get_sol_balance] on the lamports of the RPC result. *)
Definition sol_of_lamports (lamports : Z) : Q :=
  inject_Z lamports / inject_Z LAMPORTS_PER_SOL.

End Service.

(** ** memory.py *)
Module Memory.

Record Lesson := mkLesson {
  lesson : string;
  source : string;
  lesson_time : Q
}.

Record AvoidEntry := mkAvoid {
  address : string;
  reason : string;
  avoid_time : Q
}.

Record UserNote := mkNote {
  note : string;
  note_time : Q
}.

Record TradeReview := mkReview {
  rv_token : string;
  rv_symbol : string;
  rv_side : string;
  rv_pnl_sol : Q;
  rv_pnl_pct : Q;
  rv_trend_score : Z;
  rv_buy_ratio : Q;
  rv_liquidity_usd : Z;
  rv_hold_time_min : Q;
  rv_reason : string;
  rv_time : Q
}.

(** The dict [_data], which is also the JSON document of the store. *)
Record MemoryData := mkData {
  lessons : list Lesson;
  avoid_tokens : list AvoidEntry;
  prefer_patterns : list string;
  session_notes : list UserNote;
  trade_reviews : list TradeReview
}.

Record StrategyMemory := mkMemory {
  _data : MemoryData;
  _loaded : bool;
  store : option MemoryData
}.

(** [StrategyMemory(store_path)]. *)
Definition init (file : option MemoryData) : StrategyMemory :=
  mkMemory (mkData [] [] [] [] []) false file.

Definition _load (m : StrategyMemory) : StrategyMemory :=
  if _loaded m then m
  else match store m with
       | Some d => mkMemory d true (store m)
       | None => mkMemory (_data m) true (store m)
       end.

(** [if len(l) > 200: l = l[-200:]]. *)
Definition bounded {A} (l : list A) : list A :=
  if (200 <? length l)%nat then Py.last_n 200 l else l.

Definition _save (m : StrategyMemory) : StrategyMemory :=
  let d := _data m in
  let d := mkData (bounded (lessons d)) (avoid_tokens d) (prefer_patterns d)
             (bounded (session_notes d)) (bounded (trade_reviews d)) in
  mkMemory d (_loaded m) (Some d).

(** *** Lessons *)

Definition add_lesson (lesson source : string) (now : Q)
    (m : StrategyMemory) : StrategyMemory :=
  let m := _load m in
  let d := _data m in
  _save (mkMemory
           (mkData (lessons d ++ [mkLesson lesson source now])
              (avoid_tokens d) (prefer_patterns d) (session_notes d)
              (trade_reviews d))
           (_loaded m) (store m)).

Definition get_lessons (limit : Z) (m : StrategyMemory)
  : list string * StrategyMemory :=
  let m := _load m in
  (map lesson (Py.slice_last limit (lessons (_data m))), m).

(** *** Avoid list *)

Definition add_avoid (addr reason : string) (now : Q) (m : StrategyMemory)
  : StrategyMemory :=
  let m := _load m in
  let d := _data m in
  let existing : gset string := list_to_set (map address (avoid_tokens d)) in
  if decide (addr ∈ existing) then m
  else
    _save (mkMemory
             (mkData (lessons d)
                (avoid_tokens d ++ [mkAvoid addr reason now])
                (prefer_patterns d) (session_notes d) (trade_reviews d))
             (_loaded m) (store m)).

(** The loop of [should_avoid]. *)
Fixpoint first_reason (addr : string) (entries : list AvoidEntry)
  : option string :=
  match entries with
  | [] => None
  | entry :: rest =>
      if String.eqb (address entry) addr then Some (reason entry)
      else first_reason addr rest
  end.

Definition should_avoid (addr : string) (m : StrategyMemory)
  : option string * StrategyMemory :=
  let m := _load m in
  (first_reason addr (avoid_tokens (_data m)), m).

(** *** Winning patterns *)

Definition add_pattern (pattern : string) (m : StrategyMemory)
  : StrategyMemory :=
  let m := _load m in
  let d := _data m in
  if decide (pattern ∈ prefer_patterns d) then m
  else
    _save (mkMemory
             (mkData (lessons d) (avoid_tokens d)
                (prefer_patterns d ++ [pattern]) (session_notes d)
                (trade_reviews d))
             (_loaded m) (store m)).

Definition get_patterns (m : StrategyMemory)
  : list string * StrategyMemory :=
  let m := _load m in
  (prefer_patterns (_data m), m).

(** *** User guidance *)

Definition add_user_note (note : string) (now : Q) (m : StrategyMemory)
  : StrategyMemory :=
  let m := _load m in
  let d := _data m in
  _save (mkMemory
           (mkData (lessons d) (avoid_tokens d) (prefer_patterns d)
              (session_notes d ++ [mkNote note now]) (trade_reviews d))
           (_loaded m) (store m)).

Definition get_user_notes (limit : Z) (m : StrategyMemory)
  : list string * StrategyMemory :=
  let m := _load m in
  (map note (Py.slice_last limit (session_notes (_data m))), m).

(** *** Trade reviews *)

Definition loss_lesson (symbol : string) (score : Z) (buy_ratio liq : Q)
    (reason : string) : string :=
  "Big loss on " +:+ symbol +:+ ": score=" +:+ Py.format_int score
    +:+ ", buy_ratio=" +:+ Py.format_f false 0 buy_ratio
    +:+ "%, liq=$" +:+ Py.format_f true 0 liq
    +:+ ". Reason: " +:+ reason
    +:+ ". Be more cautious with similar setups.".

Definition win_lesson (symbol : string) (score : Z) (buy_ratio liq : Q)
  : string :=
  "Big win on " +:+ symbol +:+ ": score=" +:+ Py.format_int score
    +:+ ", buy_ratio=" +:+ Py.format_f false 0 buy_ratio
    +:+ "%, liq=$" +:+ Py.format_f true 0 liq
    +:+ ". Look for similar setups.".

Definition avoid_reason (pnl_pct : Q) (reason : string) : string :=
  "Lost " +:+ Py.format_f false 0 pnl_pct +:+ "% — " +:+ reason.

Definition win_pattern (score : Z) (buy_ratio liq : Q) : string :=
  "score>=" +:+ Py.format_int score
    +:+ ",buy_ratio>=" +:+ Py.format_f false 0 buy_ratio
    +:+ "%,liq>=$" +:+ Py.format_f true 0 liq.

(** [now_lesson] and [now_avoid] are the clock readings of [add_lesson]
    and [add_avoid]. *)
Definition _auto_learn (pnl_pct : Q) (score : Z) (buy_ratio liq : Q)
    (symbol addr reason : string) (now_lesson now_avoid : Q)
    (m : StrategyMemory) : StrategyMemory :=
  if Py.leb pnl_pct (-30) then
    let m := add_lesson (loss_lesson symbol score buy_ratio liq reason)
               "auto_loss" now_lesson m in
    add_avoid addr (avoid_reason pnl_pct reason) now_avoid m
  else if Py.leb 50 pnl_pct then
    let m := add_lesson (win_lesson symbol score buy_ratio liq)
               "auto_win" now_lesson m in
    add_pattern (win_pattern score buy_ratio liq) m
  else m.

Definition add_trade_review (token_address symbol side : string)
    (pnl_sol pnl_pct : Q) (trend_score : Z)
    (buy_ratio liquidity_usd hold_time_min : Q) (reason : string)
    (now now_lesson now_avoid : Q) (m : StrategyMemory) : StrategyMemory :=
  let m := _load m in
  let d := _data m in
  let review :=
    mkReview token_address symbol side (Py.round pnl_sol 6)
      (Py.round pnl_pct 2) trend_score (Py.round buy_ratio 1)
      (Py.round_half_even liquidity_usd) (Py.round hold_time_min 1)
      reason now in
  let m :=
    _save (mkMemory
             (mkData (lessons d) (avoid_tokens d) (prefer_patterns d)
                (session_notes d) (trade_reviews d ++ [review]))
             (_loaded m) (store m)) in
  _auto_learn pnl_pct trend_score buy_ratio liquidity_usd symbol
    token_address reason now_lesson now_avoid m.

(** *** Context for the agent *)

Definition no_memory_text : string :=
  "No trading memory yet. Start trading to build experience.".

Definition bullet (text : string) : string := "  - " +:+ text.

(** [f"  - {a['address'][:16]}... : {a['reason']}"]. *)
Definition avoid_line (a : AvoidEntry) : string :=
  "  - " +:+ String.substring 0 16 (address a) +:+ "... : " +:+ reason a.

(** [sum(xs) / len(xs) if xs else 0] for floats and for ints. *)
Definition average (xs : list Q) : Q :=
  match xs with
  | [] => 0
  | _ :: _ => Py.sum xs / inject_Z (Z.of_nat (length xs))
  end.

Definition average_int (xs : list Z) : Q :=
  match xs with
  | [] => 0
  | _ :: _ => inject_Z (fold_left Z.add xs 0%Z) / inject_Z (Z.of_nat (length xs))
  end.

(** The two buckets of the performance summary. *)
Definition winning (reviews : list TradeReview) : list TradeReview :=
  filter (fun r => Py.ltb 0 (rv_pnl_pct r) = true) reviews.

Definition losing (reviews : list TradeReview) : list TradeReview :=
  filter (fun r => Py.leb (rv_pnl_pct r) 0 = true) reviews.

Definition performance_lines (reviews : list TradeReview) : list string :=
  let wins := winning reviews in
  let losses := losing reviews in
  let avg_win := average (map rv_pnl_pct wins) in
  let avg_loss := average (map rv_pnl_pct losses) in
  let avg_score_win := average_int (map rv_trend_score wins) in
  let avg_score_loss := average_int (map rv_trend_score losses) in
  [Tool.newline +:+ "RECENT PERFORMANCE ("
     +:+ Py.format_int (Z.of_nat (length reviews)) +:+ " trades):";
   "  Wins: " +:+ Py.format_int (Z.of_nat (length wins)) +:+ " (avg +"
     +:+ Py.format_f false 1 avg_win +:+ "%, avg score "
     +:+ Py.format_f false 0 avg_score_win +:+ ")";
   "  Losses: " +:+ Py.format_int (Z.of_nat (length losses)) +:+ " (avg "
     +:+ Py.format_f false 1 avg_loss +:+ "%, avg score "
     +:+ Py.format_f false 0 avg_score_loss +:+ ")"]
  ++ (if Py.ltb avg_score_loss avg_score_win
      then ["  Insight: Higher scores ("
              +:+ Py.format_f false 0 avg_score_win
              +:+ "+) correlate with wins"]
      else []).

Definition get_context_for_agent (m : StrategyMemory)
  : string * StrategyMemory :=
  let m := _load m in
  let parts : list string := [] in
  let '(lessons, m) := get_lessons 15 m in
  let parts :=
    match lessons with
    | [] => parts
    | _ :: _ => parts ++ ["LEARNED LESSONS:"%string] ++ map bullet lessons
    end in
  let '(patterns, m) := get_patterns m in
  let parts :=
    match patterns with
    | [] => parts
    | _ :: _ =>
        parts ++ [Tool.newline +:+ "WINNING PATTERNS:"] ++ map bullet patterns
    end in
  let '(notes, m) := get_user_notes 10 m in
  let parts :=
    match notes with
    | [] => parts
    | _ :: _ =>
        parts ++ [Tool.newline +:+ "USER GUIDANCE:"] ++ map bullet notes
    end in
  let avoids := Py.slice_last 20 (avoid_tokens (_data m)) in
  let parts :=
    match avoids with
    | [] => parts
    | _ :: _ =>
        parts
          ++ [Tool.newline +:+ "AVOID LIST ("
                +:+ Py.format_int (Z.of_nat (length avoids)) +:+ " tokens):"]
          ++ map avoid_line (Py.slice_last 10 avoids)
    end in
  let reviews := Py.slice_last 50 (trade_reviews (_data m)) in
  let parts :=
    match reviews with
    | [] => parts
    | _ :: _ => parts ++ performance_lines reviews
    end in
  match parts with
  | [] => (no_memory_text, m)
  | _ :: _ => (Py.join Tool.newline parts, m)
  end.

End Memory.

(** ** Sessions: sequences of calls on one manager or one memory *)
Module Session.
Import Positions.

(** A call that may change a [PositionManager]. *)
Inductive Op :=
| OpOpen (token symbol : string)
    (entry_price amount_tokens sol_in stop_loss_pct take_profit_pct : Q)
    (now_entry now_log : Q)
| OpClose (token : string) (exit_price sol_out : Q) (reason : string)
    (now : Q)
| OpSetLimits (token : string) (stop_loss_pct take_profit_pct : Q)
| OpCheck (current_prices : gmap string Q).

Definition step (pm : PositionManager) (op : Op) : PositionManager :=
  match op with
  | OpOpen token symbol entry tokens sol_in sl tp t1 t2 =>
      snd (open_position token symbol entry tokens sol_in sl tp t1 t2 pm)
  | OpClose token exit_price sol_out reason now =>
      snd (close_position token exit_price sol_out reason now pm)
  | OpSetLimits token sl tp => snd (Tool._set_limits token sl tp pm)
  | OpCheck prices => snd (check_stop_loss_take_profit prices pm)
  end.

Definition run (ops : list Op) (pm : PositionManager) : PositionManager :=
  fold_left step ops pm.

(** A close whose [reason] is a terminal status. *)
Definition terminal_reason (op : Op) : Prop :=
  match op with
  | OpClose _ _ _ reason _ => reason <> "open"%string
  | _ => True
  end.

(** The number of positions that are no longer open. *)
Definition closed_count (pm : PositionManager) : Z :=
  Z.of_nat (length (filter (fun p => is_open p = false) (_positions pm))).








(** [stop_loss_price < entry_price < take_profit_price]. *)
Definition limits_ordered (p : Position) : Prop :=
  stop_loss_price p < entry_price_usd p
  /\ entry_price_usd p < take_profit_price p.


(** A manager that has read its store, or has no store to read. *)
Definition fresh_or_loaded (pm : PositionManager) : Prop :=
  _loaded pm = false -> store pm = None.


(** A call that may change a [StrategyMemory]; [MRestart] is a new
    process on the same store file. *)
Inductive MemOp :=
| MAddLesson (lesson source : string) (now : Q)
| MAddAvoid (addr reason : string) (now : Q)
| MAddPattern (pattern : string)
| MAddUserNote (note : string) (now : Q)
| MAddTradeReview (token_address symbol side : string) (pnl_sol pnl_pct : Q)
    (trend_score : Z) (buy_ratio liquidity_usd hold_time_min : Q)
    (reason : string) (now now_lesson now_avoid : Q)
| MShouldAvoid (addr : string)
| MRestart.

Definition mem_step (m : Memory.StrategyMemory) (op : MemOp)
  : Memory.StrategyMemory :=
  match op with
  | MAddLesson l s now => Memory.add_lesson l s now m
  | MAddAvoid a r now => Memory.add_avoid a r now m
  | MAddPattern p => Memory.add_pattern p m
  | MAddUserNote n now => Memory.add_user_note n now m
  | MAddTradeReview a s side pnl pct score ratio liq hold r t1 t2 t3 =>
      Memory.add_trade_review a s side pnl pct score ratio liq hold r
        t1 t2 t3 m
  | MShouldAvoid a => snd (Memory.should_avoid a m)
  | MRestart => Memory.init (Memory.store m)
  end.

Definition mem_run (ops : list MemOp) (m : Memory.StrategyMemory)
  : Memory.StrategyMemory :=
  fold_left mem_step ops m.





(** *** Prices and percentages in doubles *)

(** A positive double that is not subnormal: a rounded value between
    [2^-1022] and [2^1024]. *)
Definition normal_price (x : Q) : Prop :=
  Py.is_float x /\ Py.pow2 (-1022) <= x /\ x < Py.pow2 1024.

(** The least percentage whose hundredth is not lost when it is added to
    or taken from 1 in doubles: [100 * 2^-52], about [2.2e-14]. *)
Definition least_pct : Q := 100 * Py.pow2 (-52).

(** A limit update whose percentages are each ignored (not positive) or
    at least [least_pct]. *)
Definition sane_update (op : Op) : Prop :=
  match op with
  | OpSetLimits _ sl tp =>
      (sl <= 0 \/ least_pct <= sl) /\ (tp <= 0 \/ least_pct <= tp)
  | _ => True
  end.

(** A position bought at a normal price whose limits are in order. *)
Definition well_limited (p : Position) : Prop :=
  normal_price (entry_price_usd p) /\ limits_ordered p.

(** *** Notions used beyond the claims *)

(** The test of the loop of [close_position]. *)
Definition open_for (token : string) (p : Position) : Prop :=
  token_address p = token /\ status p = "open"%string.

(** How a position may differ later on: the trade it records is the same,
    and once it is not open it does not change at all. *)
Definition evolves (p q : Position) : Prop :=
  token_address q = token_address p /\ symbol q = symbol p
  /\ entry_price_usd q = entry_price_usd p
  /\ amount_tokens q = amount_tokens p /\ amount_sol_in q = amount_sol_in p
  /\ entry_time q = entry_time p
  /\ (is_open p = false -> q = p).

(** Every earlier position is still there, at its place. *)
Definition extends (ps ps' : list Position) : Prop :=
  exists kept added, ps' = kept ++ added /\ Forall2 evolves ps kept.

(** The store holds what the manager holds, the trade log cut to its last
    500 entries; without a store the manager is empty. *)
Definition persisted (pm : PositionManager) : Prop :=
  match store pm with
  | Some d =>
      d = mkDocument (_positions pm) (Py.last_n 500 (_trade_log pm))
            (_stats pm)
  | None =>
      _positions pm = [] /\ _trade_log pm = [] /\ _stats pm = mkStats 0 0 0
  end.

Definition is_buy (e : TradeLogEntry) : bool :=
  match e with Buy _ _ _ _ _ => true | Sell _ _ _ _ _ _ _ _ _ _ => false end.

Definition buys_logged (log : list TradeLogEntry) : Z :=
  Z.of_nat (length (List.filter is_buy log)).

Definition sells_logged (log : list TradeLogEntry) : Z :=
  Z.of_nat (length (List.filter (fun e => negb (is_buy e)) log)).

(** The trade log has one buy entry for every position and one sell entry
    for every position that is no longer open. *)
Definition log_matches_positions (pm : PositionManager) : Prop :=
  Z.of_nat (length (_positions pm)) = buys_logged (_trade_log pm)
  /\ closed_count pm = sells_logged (_trade_log pm).

Definition counters_non_negative (pm : PositionManager) : Prop :=
  (0 <= wins (_stats pm))%Z /\ (0 <= losses (_stats pm))%Z.

(** A memory that has not loaded yet holds the empty default; one that has
    loaded holds what its store holds, or the default without a store. *)
Definition empty_data : Memory.MemoryData := Memory.mkData [] [] [] [] [].

Definition mem_persisted (m : Memory.StrategyMemory) : Prop :=
  if Memory._loaded m then
    match Memory.store m with
    | Some d => d = Memory._data m
    | None => Memory._data m = empty_data
    end
  else Memory._data m = empty_data.

(** The avoid list a caller sees, and its growth at the end only. *)
Definition avoid_view (m : Memory.StrategyMemory) : list Memory.AvoidEntry :=
  Memory.avoid_tokens (Memory._data (Memory._load m)).

Definition avoids_grow (m m' : Memory.StrategyMemory) : Prop :=
  exists added, avoid_view m' = avoid_view m ++ added.

(** No pattern is listed twice, in memory or in the store. *)
Definition unique_patterns (d : Memory.MemoryData) : Prop :=
  NoDup (Memory.prefer_patterns d).

Definition patterns_consistent (m : Memory.StrategyMemory) : Prop :=
  unique_patterns (Memory._data m)
  /\ forall d, Memory.store m = Some d -> unique_patterns d.

(** The three lists that [_save] cuts hold at most 200 entries. *)
Definition within_retention (d : Memory.MemoryData) : Prop :=
  (length (Memory.lessons d) <= 200)%nat
  /\ (length (Memory.session_notes d) <= 200)%nat
  /\ (length (Memory.trade_reviews d) <= 200)%nat.

(** Nothing is remembered. *)
Definition nothing_remembered (d : Memory.MemoryData) : Prop :=
  Memory.lessons d = [] /\ Memory.prefer_patterns d = []
  /\ Memory.session_notes d = [] /\ Memory.avoid_tokens d = []
  /\ Memory.trade_reviews d = [].

End Session.

(** ** The score in the words of the specification *)
Module ScoreSpec.
Import Safety.

(** [r = buys5m / (buys5m + sells5m)], undefined without transactions. *)
Definition buy_ratio (token : TokenInfo) : option Q :=
  let total := (buy_count_5m token + sell_count_5m token)%Z in
  if (total =? 0)%Z then None
  else Some (inject_Z (buy_count_5m token) / inject_Z total).

Definition buy_pressure (token : TokenInfo) : Z :=
  match buy_ratio token with
  | None => 0
  | Some r =>
      if Qle_bool 0.7 r then 20
      else if Qle_bool 0.6 r then 10
      else if Qle_bool 0.4 r then 0
      else -15
  end.

Definition momentum (threshold change : Q) : Z :=
  if Qle_bool change threshold
  then (if Qle_bool (- threshold) change then 0 else -10)
  else 10.

Definition liquidity_depth (token : TokenInfo) : Z :=
  if Qle_bool (liquidity_usd token) 100000 then 0
  else if Qle_bool (liquidity_usd token) 200000 then 5
  else 10.

Definition velocity_bonus (token : TokenInfo) : Z :=
  if Qle_bool (liquidity_usd token) 0 then 0
  else
    let velocity := volume_24h token / liquidity_usd token in
    if Qle_bool velocity 5
    then (if Qle_bool 0.5 velocity then 0 else -5)
    else 5.

Definition clamp (z : Z) : Z :=
  if (z <? 0)%Z then 0 else if (100 <? z)%Z then 100 else z.

Definition score (token : TokenInfo) : Z :=
  clamp (50 + buy_pressure token
         + momentum 5 (price_change_5m token)
         + momentum 10 (price_change_1h token)
         + liquidity_depth token + velocity_bonus token).

End ScoreSpec.

(** ** Concrete data used by the examples *)
Module Examples.

(** buy ratio 0.8, +6% in 5 minutes, +15% in an hour, $250k of liquidity,
    velocity 6. *)
Definition strong_token : Safety.TokenInfo :=
  Safety.mkToken "T" "TOK" "Token" 1 1500000 250000 6 15 0 8 2 "pair" 0.

(** The same token with $50k of liquidity. *)
Definition weak_token : Safety.TokenInfo :=
  Safety.mkToken "T" "TOK" "Token" 1 1500000 50000 6 15 0 8 2 "pair" 0.

(** Minimum liquidity $100k, minimum volume $50k, 1 SOL a trade, 5 SOL in
    all, 300 s of cooldown, 50 holders, 30% for the top holder. *)
Definition limits : Safety.SolanaRiskLimits :=
  Safety.mkRisk 100000 50000 1 5 300 50 30 300 10 50.

(** A manager whose store records 7 wins and 3 losses. *)
Definition veteran : Positions.PositionManager :=
  Positions.init
    (Some (Positions.mkDocument [] [] (Positions.mkStats 0.5 7 3))).

(** The memory after one review of a +60% sale. *)
Definition after_first_win : Memory.StrategyMemory :=
  Memory.add_trade_review "T" "TOK" "sell" 0.3 60 80 75 250000 12
    "took_profit" 1 2 3 (Memory.init None).


(** A new process on a store that holds one open position. *)
Definition restarted : Positions.PositionManager :=
  Positions.init
    (Some (Positions.mkDocument
             [Positions.mkPosition "T" "TOK" 1 1000 0.5 100 0.9 1.5 "open"]
             [Positions.Buy "T" "TOK" 1 0.5 100]
             (Positions.mkStats 0 0 0))).

End Examples.

(** * Properties *)

(** ** Comparisons and rounding *)

Lemma ltb_lt x y : Py.ltb x y = true <-> x < y.
Proof.
  unfold Py.ltb. rewrite negb_true_iff, <- not_true_iff_false, Qle_bool_iff.
  split; [apply Qnot_le_lt | apply Qlt_not_le].
Qed.

Lemma ltb_ge x y : Py.ltb x y = false <-> y <= x.
Proof. unfold Py.ltb. rewrite negb_false_iff. apply Qle_bool_iff. Qed.

Lemma leb_le x y : Py.leb x y = true <-> x <= y.
Proof. apply Qle_bool_iff. Qed.

Lemma leb_gt x y : Py.leb x y = false <-> y < x.
Proof.
  unfold Py.leb. rewrite <- not_true_iff_false, Qle_bool_iff.
  split; [apply Qnot_le_lt | apply Qlt_not_le].
Qed.

Lemma Qle_bool_gt x y : Qle_bool x y = false <-> y < x.
Proof. apply leb_gt. Qed.

Lemma inject_Z_succ z : inject_Z (z + 1) == inject_Z z + 1.
Proof. rewrite inject_Z_plus. reflexivity. Qed.

Lemma round_half_even_near x :
  inject_Z (Py.round_half_even x) - x <= 1 # 2 /\
  x - inject_Z (Py.round_half_even x) <= 1 # 2.
Proof.
  unfold Py.round_half_even.
  pose proof (Qfloor_le x) as Hlo. pose proof (Qlt_floor x) as Hhi.
  rewrite inject_Z_succ in Hhi.
  destruct (Qcompare (x - inject_Z (Qfloor x)) (1 # 2)) eqn:Hc.
  - apply Qeq_alt in Hc.
    destruct (Z.even (Qfloor x)); rewrite ?inject_Z_succ; lra.
  - apply Qlt_alt in Hc. lra.
  - apply Qgt_alt in Hc. rewrite inject_Z_succ. lra.
Qed.

Lemma round_half_even_ge_floor x : (Qfloor x <= Py.round_half_even x)%Z.
Proof.
  unfold Py.round_half_even.
  destruct (Qcompare _ _); [destruct (Z.even _) | |]; lia.
Qed.

Lemma round_half_even_lower (k : Z) x :
  inject_Z k <= x -> (k <= Py.round_half_even x)%Z.
Proof.
  intros H. apply Qfloor_resp_le in H. rewrite Qfloor_Z in H.
  pose proof (round_half_even_ge_floor x). lia.
Qed.

Lemma pow10_pos n : 0 < Py.pow10 n.
Proof.
  unfold Py.pow10. change 0 with (inject_Z 0). rewrite <- Zlt_Qlt.
  apply Z.pow_pos_nonneg; lia.
Qed.

(** [round(x, n)] is within half a unit of the last kept decimal. *)
Lemma round_near x n : Qabs (Py.round x n - x) <= (1 # 2) / Py.pow10 n.
Proof.
  unfold Py.round. pose proof (pow10_pos n) as Hp.
  destruct (round_half_even_near (x * Py.pow10 n)) as [H1 H2].
  set (r := inject_Z (Py.round_half_even (x * Py.pow10 n))) in *.
  assert (Hip : 0 < / Py.pow10 n) by (apply Qinv_lt_0_compat; exact Hp).
  assert (Hx : x == (x * Py.pow10 n) * / Py.pow10 n)
    by (rewrite <- Qmult_assoc, Qmult_inv_r; lra).
  unfold Qdiv. set (ip := / Py.pow10 n) in *. set (y := x * Py.pow10 n) in *.
  apply Qabs_Qle_condition. split; nra.
Qed.

(** [round(x, n)] never falls below a multiple of [10^-n] that [x] reaches. *)
Lemma round_lower (k : Z) x n :
  inject_Z k / Py.pow10 n <= x -> inject_Z k / Py.pow10 n <= Py.round x n.
Proof.
  intros H. unfold Py.round. pose proof (pow10_pos n) as Hp.
  assert (Hip : 0 < / Py.pow10 n) by (apply Qinv_lt_0_compat; exact Hp).
  assert (Hk : inject_Z k <= x * Py.pow10 n).
  { assert (Hkk : inject_Z k == (inject_Z k / Py.pow10 n) * Py.pow10 n)
      by (unfold Qdiv;
          rewrite <- Qmult_assoc, (Qmult_comm (/ _)), Qmult_inv_r; lra).
    set (g := inject_Z k / Py.pow10 n) in *. nra. }
  apply round_half_even_lower in Hk. rewrite Zle_Qle in Hk.
  unfold Qdiv. set (ip := / Py.pow10 n) in *. nra.
Qed.

(** ** Doubles *)

Lemma round_half_even_upper (k : Z) x :
  x <= inject_Z k -> (Py.round_half_even x <= k)%Z.
Proof.
  intros H. unfold Py.round_half_even.
  pose proof (Qfloor_le x) as Hlo.
  assert (Hfk : (Qfloor x <= k)%Z).
  { apply Qfloor_resp_le in H. rewrite Qfloor_Z in H. exact H. }
  destruct (Z.eq_dec (Qfloor x) k) as [Heq | Hne].
  - assert (Hx : x - inject_Z (Qfloor x) == 0) by (rewrite Heq in *; lra).
    assert (Hc : Qcompare (x - inject_Z (Qfloor x)) (1 # 2) = Lt).
    { apply Qlt_alt. rewrite Hx. reflexivity. }
    rewrite Hc. lia.
  - destruct (Qcompare _ _); [destruct (Z.even _) | |]; lia.
Qed.

Lemma round_half_even_comp x y : x == y -> Py.round_half_even x = Py.round_half_even y.
Proof.
  intros H. unfold Py.round_half_even.
  rewrite (Qfloor_comp x y H).
  assert (Hc : Qcompare (x - inject_Z (Qfloor y)) (1 # 2)
               = Qcompare (y - inject_Z (Qfloor y)) (1 # 2))
    by (rewrite H; reflexivity).
  rewrite Hc. reflexivity.
Qed.

Lemma pow2_pos e : 0 < Py.pow2 e.
Proof. apply Qpower_0_lt. reflexivity. Qed.

Lemma pow2_plus a b : Py.pow2 (a + b) == Py.pow2 a * Py.pow2 b.
Proof. apply Qpower_plus. discriminate. Qed.

Lemma pow2_le a b : (a <= b)%Z -> Py.pow2 a <= Py.pow2 b.
Proof. intros H. apply Qpower_le_compat_l; [exact H | discriminate]. Qed.

Lemma pow2_lt a b : (a < b)%Z -> Py.pow2 a < Py.pow2 b.
Proof. intros H. apply Qpower_lt_compat_l; [exact H | reflexivity]. Qed.

Lemma pow2_Z n : (0 <= n)%Z -> Py.pow2 n == inject_Z (2 ^ n).
Proof. intros H. unfold Py.pow2. rewrite Zpower_Qpower by exact H. reflexivity. Qed.

Lemma pow2_succ a : Py.pow2 (a + 1) == 2 * Py.pow2 a.
Proof. rewrite pow2_plus. unfold Py.pow2 at 2. rewrite Qpower_1_r. ring. Qed.

Lemma Qabs_num_den x : Qabs x == inject_Z (Z.abs (Qnum x)) / inject_Z (Zpos (Qden x)).
Proof.
  destruct x as [n d]. unfold Qabs. simpl.
  rewrite (Qmake_Qdiv (Z.abs n) d). reflexivity.
Qed.

Lemma ilog2_spec x : ~ x == 0 -> Py.pow2 (Py.ilog2 x) <= Qabs x /\ Qabs x < Py.pow2 (Py.ilog2 x + 1).
Proof.
  intros Hx.
  set (n := Z.abs (Qnum x)). set (d := Zpos (Qden x)).
  assert (Hn : (0 < n)%Z).
  { subst n. destruct x as [xn xd]. unfold Qeq in Hx. simpl in *. lia. }
  assert (Hd : (0 < d)%Z) by (subst d; lia).
  destruct (Z.log2_spec n Hn) as [Hn1 Hn2].
  destruct (Z.log2_spec d Hd) as [Hd1 Hd2].
  set (a := Z.log2 n) in *. set (b := Z.log2 d) in *.
  assert (Ha : (0 <= a)%Z) by apply Z.log2_nonneg.
  assert (Hb : (0 <= b)%Z) by apply Z.log2_nonneg.
  assert (HA1 : Py.pow2 a <= inject_Z n) by (rewrite pow2_Z by lia; rewrite <- Zle_Qle; exact Hn1).
  assert (HA2 : inject_Z n < 2 * Py.pow2 a).
  { rewrite <- pow2_succ, pow2_Z by lia. rewrite <- Zlt_Qlt.
    replace (a + 1)%Z with (Z.succ a) by lia. exact Hn2. }
  assert (HB1 : Py.pow2 b <= inject_Z d) by (rewrite pow2_Z by lia; rewrite <- Zle_Qle; exact Hd1).
  assert (HB2 : inject_Z d < 2 * Py.pow2 b).
  { rewrite <- pow2_succ, pow2_Z by lia. rewrite <- Zlt_Qlt.
    replace (b + 1)%Z with (Z.succ b) by lia. exact Hd2. }
  assert (HK : Py.pow2 (a - b) * Py.pow2 b == Py.pow2 a).
  { rewrite <- pow2_plus. replace (a - b + b)%Z with a by lia. reflexivity. }
  assert (Hqd : 0 < inject_Z d)
    by (change 0 with (inject_Z 0); rewrite <- Zlt_Qlt; lia).
  assert (Habs : Qabs x * inject_Z d == inject_Z n).
  { rewrite Qabs_num_den. fold n d. field. lra. }
  pose proof (pow2_pos (a - b)) as HKpos. pose proof (pow2_pos b) as HBpos.
  pose proof (pow2_pos a) as HApos.
  assert (Hax : 0 <= Qabs x) by apply Qabs_nonneg.
  unfold Py.ilog2. fold n d a b.
  pose proof (pow2_succ (a - b)) as Hs.
  pose proof (pow2_succ (a - b - 1)) as Hs'.
  replace (a - b - 1 + 1)%Z with (a - b)%Z in Hs' by lia.
  set (K := Py.pow2 (a - b)) in *. set (K1 := Py.pow2 (a - b + 1)) in *.
  set (K0 := Py.pow2 (a - b - 1)) in *.
  set (A := Py.pow2 a) in *. set (B := Py.pow2 b) in *.
  set (qn := inject_Z n) in *. set (qd := inject_Z d) in *.
  set (ax := Qabs x) in *.
  destruct (Qle_bool K ax) eqn:E.
  - apply Qle_bool_iff in E. split; [exact E |].
    fold K1. rewrite Hs.
    apply Qnot_le_lt. intros Hc. nra.
  - apply Qle_bool_gt in E. replace (a - b - 1 + 1)%Z with (a - b)%Z by lia.
    fold K0 K. split; [| exact E].
    apply Qnot_lt_le. intros Hc. nra.
Qed.

Lemma round_half_even_Z n : Py.round_half_even (inject_Z n) = n.
Proof.
  apply Z.le_antisymm.
  - apply round_half_even_upper. lra.
  - apply round_half_even_lower. lra.
Qed.

Lemma round_half_even_mono x y :
  x <= y -> (Py.round_half_even x <= Py.round_half_even y)%Z.
Proof.
  intros Hxy.
  destruct (Z_le_gt_dec (Py.round_half_even x) (Py.round_half_even y))
    as [H | H]; [exact H | exfalso].
  destruct (round_half_even_near x) as [Hx _].
  destruct (round_half_even_near y) as [_ Hy].
  assert (Hz : inject_Z (Py.round_half_even y) + 1
               <= inject_Z (Py.round_half_even x)).
  { rewrite <- inject_Z_succ, <- Zle_Qle. lia. }
  assert (Heq : x == y) by lra.
  apply round_half_even_comp in Heq. lia.
Qed.

Lemma fl_nonzero x : ~ x == 0 -> Py.fl x = Py.round_at (Py.ulp_exponent x) x.
Proof.
  intros Hx. unfold Py.fl. destruct (Qeq_bool x 0) eqn:E; [| reflexivity].
  apply Qeq_bool_iff in E. contradiction.
Qed.

Lemma fl_zero x : x == 0 -> Py.fl x = 0.
Proof.
  intros Hx. unfold Py.fl. apply Qeq_bool_iff in Hx. rewrite Hx. reflexivity.
Qed.


Lemma round_at_le_grid e x n :
  x <= inject_Z n * Py.pow2 e -> Py.round_at e x <= inject_Z n * Py.pow2 e.
Proof.
  intros H. unfold Py.round_at. pose proof (pow2_pos e) as Hp.
  assert (Hq : x / Py.pow2 e <= inject_Z n).
  { apply Qle_shift_div_r; assumption. }
  apply round_half_even_upper in Hq. rewrite Zle_Qle in Hq.
  apply Qmult_le_compat_r; [exact Hq | lra].
Qed.

Lemma round_at_ge_grid e x n :
  inject_Z n * Py.pow2 e <= x -> inject_Z n * Py.pow2 e <= Py.round_at e x.
Proof.
  intros H. unfold Py.round_at. pose proof (pow2_pos e) as Hp.
  assert (Hq : inject_Z n <= x / Py.pow2 e).
  { apply Qle_shift_div_l; assumption. }
  apply round_half_even_lower in Hq. rewrite Zle_Qle in Hq.
  apply Qmult_le_compat_r; [exact Hq | lra].
Qed.

Lemma grid_coarsen n e e' :
  (e <= e')%Z -> inject_Z n * Py.pow2 e' == inject_Z (n * 2 ^ (e' - e)) * Py.pow2 e.
Proof.
  intros H. rewrite inject_Z_mult, <- pow2_Z by lia.
  rewrite <- Qmult_assoc, <- pow2_plus.
  replace (e' - e + e)%Z with e' by lia. reflexivity.
Qed.

Lemma ulp_exponent_min x : (-1074 <= Py.ulp_exponent x)%Z.
Proof. unfold Py.ulp_exponent. lia. Qed.

Lemma pow2_53_plus e : Py.pow2 (53 + e) == inject_Z (2 ^ 53) * Py.pow2 e.
Proof.
  rewrite pow2_plus. apply Qmult_comp; [apply pow2_Z; lia | reflexivity].
Qed.

Lemma abs_grid_lt m e :
  (Z.abs m < 2 ^ 53)%Z -> Qabs (inject_Z m * Py.pow2 e) < Py.pow2 (53 + e).
Proof.
  intros Hm. pose proof (pow2_pos e) as Hp.
  rewrite Qabs_Qmult, (Qabs_pos (Py.pow2 e)) by lra.
  rewrite pow2_53_plus.
  apply Qmult_lt_compat_r; [exact Hp |].
  change (Qabs (inject_Z m)) with (inject_Z (Z.abs m)) .
  rewrite <- Zlt_Qlt. exact Hm.
Qed.

Lemma binade_grid k : inject_Z (2 ^ 52) * Py.pow2 (k - 52) == Py.pow2 k.
Proof.
  rewrite <- pow2_Z by lia. rewrite <- pow2_plus.
  replace (52 + (k - 52))%Z with k by lia. reflexivity.
Qed.

Lemma binade_grid_opp k : inject_Z (- 2 ^ 52) * Py.pow2 (k - 52) == - Py.pow2 k.
Proof. rewrite inject_Z_opp, <- (binade_grid k). ring. Qed.

Lemma neg_abs_le f : - Qabs f <= f.
Proof.
  rewrite <- (Qopp_involutive f) at 2. apply Qopp_le_compat.
  rewrite <- Qabs_opp. apply Qle_Qabs.
Qed.

Lemma fl_le_grid x m e :
  (Z.abs m < 2 ^ 53)%Z -> (-1074 <= e)%Z ->
  x <= inject_Z m * Py.pow2 e -> Py.fl x <= inject_Z m * Py.pow2 e.
Proof.
  intros Hm He Hx.
  destruct (Qeq_dec x 0) as [H0 | H0].
  { rewrite (fl_zero x H0). lra. }
  rewrite (fl_nonzero x H0).
  destruct (Z_le_gt_dec (Py.ulp_exponent x) e) as [Hle | Hgt].
  - rewrite (grid_coarsen m (Py.ulp_exponent x) e Hle) in *.
    apply round_at_le_grid, Hx.
  - destruct (ilog2_spec x H0) as [Hlo _].
    pose proof (abs_grid_lt m e Hm) as Hf.
    assert (Hk : Py.ulp_exponent x = (Py.ilog2 x - 52)%Z)
      by (unfold Py.ulp_exponent in *; lia).
    assert (Hp : Py.pow2 (53 + e) <= Py.pow2 (Py.ilog2 x)) by (apply pow2_le; lia).
    set (f := inject_Z m * Py.pow2 e) in *.
    pose proof (Qle_Qabs f) as Hfa. pose proof (neg_abs_le f) as Hfn.
    assert (Hneg : x < 0).
    { apply Qnot_le_lt. intros Hpos. rewrite (Qabs_pos x Hpos) in Hlo. lra. }
    rewrite (Qabs_neg x) in Hlo by lra.
    pose proof (binade_grid_opp (Py.ilog2 x)) as Hv. rewrite <- Hk in Hv.
    assert (Hg : x <= inject_Z (- 2 ^ 52) * Py.pow2 (Py.ulp_exponent x))
      by (rewrite Hv; lra).
    apply round_at_le_grid in Hg. lra.
Qed.

Lemma fl_ge_grid x m e :
  (Z.abs m < 2 ^ 53)%Z -> (-1074 <= e)%Z ->
  inject_Z m * Py.pow2 e <= x -> inject_Z m * Py.pow2 e <= Py.fl x.
Proof.
  intros Hm He Hx.
  destruct (Qeq_dec x 0) as [H0 | H0].
  { rewrite (fl_zero x H0). lra. }
  rewrite (fl_nonzero x H0).
  destruct (Z_le_gt_dec (Py.ulp_exponent x) e) as [Hle | Hgt].
  - rewrite (grid_coarsen m (Py.ulp_exponent x) e Hle) in *.
    apply round_at_ge_grid, Hx.
  - destruct (ilog2_spec x H0) as [Hlo _].
    pose proof (abs_grid_lt m e Hm) as Hf.
    assert (Hk : Py.ulp_exponent x = (Py.ilog2 x - 52)%Z)
      by (unfold Py.ulp_exponent in *; lia).
    assert (Hp : Py.pow2 (53 + e) <= Py.pow2 (Py.ilog2 x)) by (apply pow2_le; lia).
    set (f := inject_Z m * Py.pow2 e) in *.
    pose proof (Qle_Qabs f) as Hfa. pose proof (neg_abs_le f) as Hfn.
    assert (Hpos : 0 < x).
    { apply Qnot_le_lt. intros Hneg. rewrite (Qabs_neg x Hneg) in Hlo. lra. }
    rewrite (Qabs_pos x) in Hlo by lra.
    pose proof (binade_grid (Py.ilog2 x)) as Hv. rewrite <- Hk in Hv.
    assert (Hg : inject_Z (2 ^ 52) * Py.pow2 (Py.ulp_exponent x) <= x)
      by (rewrite Hv; lra).
    apply round_at_ge_grid in Hg. lra.
Qed.

(** Values [m * 2^e] with fewer than 54 bits in [m] and [e >= -1074] are
    doubles. *)
Lemma grid_is_float m e :
  (Z.abs m < 2 ^ 53)%Z -> (-1074 <= e)%Z -> Py.is_float (inject_Z m * Py.pow2 e).
Proof.
  intros Hm He. unfold Py.is_float. apply Qle_antisym.
  - apply fl_le_grid; [exact Hm | exact He | lra].
  - apply fl_ge_grid; [exact Hm | exact He | lra].
Qed.

Lemma float_grid f :
  Py.is_float f ->
  exists m e, (Z.abs m < 2 ^ 53)%Z /\ (-1074 <= e)%Z
              /\ f == inject_Z m * Py.pow2 e.
Proof.
  intros Hf. destruct (Qeq_dec f 0) as [H0 | H0].
  { exists 0%Z, 0%Z.
    split; [reflexivity | split; [lia | rewrite H0; reflexivity]]. }
  unfold Py.is_float in Hf. rewrite (fl_nonzero f H0) in Hf.
  unfold Py.round_at in Hf.
  set (e := Py.ulp_exponent f) in *.
  set (m := Py.round_half_even (f / Py.pow2 e)) in *.
  exists m, e. split; [| split; [apply ulp_exponent_min | symmetry; exact Hf]].
  destruct (ilog2_spec f H0) as [_ Hhi].
  assert (Hp : Py.pow2 (Py.ilog2 f + 1) <= Py.pow2 (53 + e)).
  { apply pow2_le. unfold e, Py.ulp_exponent. lia. }
  pose proof (pow2_pos e) as Hpe.
  assert (Habs : Qabs f == inject_Z (Z.abs m) * Py.pow2 e).
  { rewrite <- Hf at 1. rewrite Qabs_Qmult, (Qabs_pos (Py.pow2 e)) by lra.
    reflexivity. }
  rewrite pow2_53_plus in Hp.
  rewrite Zlt_Qlt.
  set (am := inject_Z (Z.abs m)) in *. set (p := Py.pow2 e) in *.
  set (b := inject_Z (2 ^ 53)) in *.
  apply Qnot_le_lt. intros Hc.
  assert (b * p <= am * p) by (apply Qmult_le_compat_r; lra).
  lra.
Qed.

Lemma fl_le_float x f : Py.is_float f -> x <= f -> Py.fl x <= f.
Proof.
  intros Hf Hx. destruct (float_grid f Hf) as (m & e & Hm & He & Heq).
  rewrite Heq in *. apply fl_le_grid; assumption.
Qed.

Lemma fl_ge_float x f : Py.is_float f -> f <= x -> f <= Py.fl x.
Proof.
  intros Hf Hx. destruct (float_grid f Hf) as (m & e & Hm & He & Heq).
  rewrite Heq in *. apply fl_ge_grid; assumption.
Qed.

Lemma ilog2_unique x k :
  Py.pow2 k <= Qabs x -> Qabs x < Py.pow2 (k + 1) -> Py.ilog2 x = k.
Proof.
  intros Hlo Hhi.
  assert (H0 : ~ x == 0).
  { intros H. rewrite H in Hlo. pose proof (pow2_pos k).
    change (Qabs 0) with 0 in Hlo. lra. }
  destruct (ilog2_spec x H0) as [Hlo' Hhi'].
  assert (H1 : (k < Py.ilog2 x + 1)%Z).
  { apply (Qpower_lt_compat_l_inv 2); [| reflexivity]. fold (Py.pow2 k).
    fold (Py.pow2 (Py.ilog2 x + 1)). lra. }
  assert (H2 : (Py.ilog2 x < k + 1)%Z).
  { apply (Qpower_lt_compat_l_inv 2); [| reflexivity]. fold (Py.pow2 (k + 1)).
    fold (Py.pow2 (Py.ilog2 x)). lra. }
  lia.
Qed.

Lemma ilog2_comp x y : ~ x == 0 -> x == y -> Py.ilog2 x = Py.ilog2 y.
Proof.
  intros H0 Heq. symmetry.
  destruct (ilog2_spec x H0) as [Hlo Hhi].
  apply ilog2_unique; rewrite <- Heq; assumption.
Qed.

Lemma fl_comp x y : x == y -> Py.fl x == Py.fl y.
Proof.
  intros Heq. destruct (Qeq_dec x 0) as [H0 | H0].
  - rewrite (fl_zero x H0), (fl_zero y) by (rewrite <- Heq; exact H0).
    reflexivity.
  - assert (H0' : ~ y == 0) by (rewrite <- Heq; exact H0).
    rewrite (fl_nonzero x H0), (fl_nonzero y H0').
    unfold Py.ulp_exponent. rewrite (ilog2_comp x y H0 Heq).
    unfold Py.round_at.
    rewrite (round_half_even_comp (x / Py.pow2 (Z.max (Py.ilog2 y - 52) (-1074)))
               (y / Py.pow2 (Z.max (Py.ilog2 y - 52) (-1074))))
      by (rewrite Heq; reflexivity).
    reflexivity.
Qed.

#[global] Instance fl_proper : Proper (Qeq ==> Qeq) Py.fl.
Proof. intros x y H. apply fl_comp, H. Qed.

Lemma fl_is_float x : Py.is_float (Py.fl x).
Proof.
  destruct (Qeq_dec x 0) as [H0 | H0].
  { rewrite (fl_zero x H0). reflexivity. }
  rewrite (fl_nonzero x H0). unfold Py.round_at.
  set (e := Py.ulp_exponent x).
  set (m := Py.round_half_even (x / Py.pow2 e)).
  destruct (ilog2_spec x H0) as [_ Hhi].
  assert (Hp : Py.pow2 (Py.ilog2 x + 1) <= Py.pow2 (53 + e)).
  { apply pow2_le. unfold e, Py.ulp_exponent. lia. }
  rewrite pow2_53_plus in Hp.
  pose proof (pow2_pos e) as Hpe.
  pose proof (Qle_Qabs x) as Hxa. pose proof (neg_abs_le x) as Hxn.
  assert (Hup : (m <= 2 ^ 53)%Z).
  { apply round_half_even_upper. apply Qle_shift_div_r; [exact Hpe |]. lra. }
  assert (Hdn : (- 2 ^ 53 <= m)%Z).
  { apply round_half_even_lower. apply Qle_shift_div_l; [exact Hpe |].
    rewrite inject_Z_opp. lra. }
  destruct (Z.eq_dec m (2 ^ 53)%Z) as [E1 | N1].
  { rewrite E1.
    assert (Hv : inject_Z (2 ^ 53) * Py.pow2 e == inject_Z (2 ^ 52) * Py.pow2 (e + 1)).
    { rewrite pow2_succ. change (2 ^ 53)%Z with (2 * 2 ^ 52)%Z.
      rewrite inject_Z_mult. change (inject_Z 2) with 2. ring. }
    unfold Py.is_float. rewrite Hv.
    apply grid_is_float; [reflexivity | unfold e, Py.ulp_exponent; lia]. }
  destruct (Z.eq_dec m (- 2 ^ 53)%Z) as [E2 | N2].
  { rewrite E2.
    assert (Hv : inject_Z (- 2 ^ 53) * Py.pow2 e
                 == inject_Z (- 2 ^ 52) * Py.pow2 (e + 1)).
    { rewrite pow2_succ. change (- 2 ^ 53)%Z with (2 * - 2 ^ 52)%Z.
      rewrite inject_Z_mult. change (inject_Z 2) with 2. ring. }
    unfold Py.is_float. rewrite Hv.
    apply grid_is_float; [reflexivity | unfold e, Py.ulp_exponent; lia]. }
  apply grid_is_float; [lia | apply ulp_exponent_min].
Qed.

Lemma fl_float f : Py.is_float f -> Py.fl f == f.
Proof. intros H. exact H. Qed.

Lemma is_float_0 : Py.is_float 0.
Proof. reflexivity. Qed.

Lemma is_float_pow2 k : (-1074 <= k)%Z -> Py.is_float (Py.pow2 k).
Proof.
  intros Hk. unfold Py.is_float.
  setoid_replace (Py.pow2 k) with (inject_Z 1 * Py.pow2 k) using relation Qeq
    by (change (inject_Z 1) with 1; ring).
  apply grid_is_float; [reflexivity | exact Hk].
Qed.

Lemma is_float_opp_pow2 k : (-1074 <= k)%Z -> Py.is_float (- Py.pow2 k).
Proof.
  intros Hk. unfold Py.is_float.
  setoid_replace (- Py.pow2 k) with (inject_Z (- 1) * Py.pow2 k) using relation Qeq
    by (change (inject_Z (- 1)) with (- (1)); ring).
  apply grid_is_float; [reflexivity | exact Hk].
Qed.

Lemma ilog2_lt k x : ~ x == 0 -> Qabs x < Py.pow2 k -> (Py.ilog2 x < k)%Z.
Proof.
  intros H0 H. destruct (ilog2_spec x H0) as [Hlo _].
  apply (Qpower_lt_compat_l_inv 2); [| reflexivity].
  fold (Py.pow2 (Py.ilog2 x)) (Py.pow2 k). lra.
Qed.

Lemma ilog2_ge k x : ~ x == 0 -> Py.pow2 k <= Qabs x -> (k <= Py.ilog2 x)%Z.
Proof.
  intros H0 H. destruct (ilog2_spec x H0) as [_ Hhi].
  assert (Hlt : (k < Py.ilog2 x + 1)%Z); [| lia].
  apply (Qpower_lt_compat_l_inv 2); [| reflexivity].
  fold (Py.pow2 (Py.ilog2 x + 1)) (Py.pow2 k). lra.
Qed.

(** Rounding keeps the order. *)
Lemma fl_mono x y : x <= y -> Py.fl x <= Py.fl y.
Proof.
  intros Hxy.
  destruct (Qlt_le_dec (Py.fl y) x) as [Hlt | Hle];
    [| apply fl_le_float; [apply fl_is_float | exact Hle]].
  (* Py.fl y < x <= y: both are rounded on the same grid *)
  destruct (Qeq_dec y 0) as [Hy0 | Hy0].
  { rewrite (fl_zero y Hy0) in *. lra. }
  destruct (Qeq_dec x 0) as [Hx0 | Hx0].
  { pose proof (fl_ge_float y 0 is_float_0). lra. }
  destruct (ilog2_spec y Hy0) as [Hlo Hhi].
  assert (He : Py.ulp_exponent x = Py.ulp_exponent y).
  { unfold Py.ulp_exponent. destruct (Qlt_le_dec y 0) as [Hneg | Hpos].
    - rewrite (Qabs_neg y) in Hlo, Hhi by lra.
      assert (Hge : (Py.ilog2 y <= Py.ilog2 x)%Z)
        by (apply ilog2_ge; [exact Hx0 | rewrite Qabs_neg by lra; lra]).
      destruct (Z_le_gt_dec (-1074) (Py.ilog2 y + 1)) as [Hr | Hr].
      + pose proof (fl_ge_float y _ (is_float_opp_pow2 _ Hr)) as Hb.
        assert (Hl : (Py.ilog2 x < Py.ilog2 y + 1)%Z)
          by (apply ilog2_lt; [exact Hx0 | rewrite Qabs_neg by lra; lra]).
        lia.
      + assert (Hm : (-1074 <= -1074)%Z) by lia.
        pose proof (fl_ge_float y _ (is_float_opp_pow2 _ Hm)) as Hb.
        assert (Py.pow2 (Py.ilog2 y + 1) <= Py.pow2 (-1074)) by (apply pow2_le; lia).
        assert (Hl : (Py.ilog2 x < -1074)%Z)
          by (apply ilog2_lt; [exact Hx0 | rewrite Qabs_neg by lra; lra]).
        lia.
    - rewrite (Qabs_pos y) in Hlo, Hhi by lra.
      pose proof (fl_ge_float y 0 is_float_0) as Hz.
      assert (Hl : (Py.ilog2 x < Py.ilog2 y + 1)%Z)
        by (apply ilog2_lt; [exact Hx0 | rewrite Qabs_pos by lra; lra]).
      destruct (Z_le_gt_dec (-1074) (Py.ilog2 y)) as [Hr | Hr].
      + pose proof (fl_ge_float y _ (is_float_pow2 _ Hr)) as Hb.
        assert (Hge : (Py.ilog2 y <= Py.ilog2 x)%Z)
          by (apply ilog2_ge; [exact Hx0 | rewrite Qabs_pos by lra; lra]).
        lia.
      + lia. }
  rewrite (fl_nonzero x Hx0), (fl_nonzero y Hy0), He. unfold Py.round_at.
  pose proof (pow2_pos (Py.ulp_exponent y)) as Hp.
  apply Qmult_le_compat_r; [| lra].
  rewrite <- Zle_Qle. apply round_half_even_mono.
  apply Qmult_le_compat_r; [exact Hxy |].
  apply Qlt_le_weak, Qinv_lt_0_compat, Hp.
Qed.

(** A positive double that is not subnormal has a full 53-bit mantissa. *)
Lemma normal_float_grid f :
  Py.is_float f -> Py.pow2 (-1022) <= f ->
  exists m e, (2 ^ 52 <= m < 2 ^ 53)%Z /\ (-1074 <= e)%Z
              /\ f == inject_Z m * Py.pow2 e.
Proof.
  intros Hf Hn. pose proof (pow2_pos (-1022)) as Hp0.
  assert (H0 : ~ f == 0) by (intros H; rewrite H in Hn; lra).
  assert (Hk : (-1022 <= Py.ilog2 f)%Z)
    by (apply ilog2_ge; [exact H0 | rewrite Qabs_pos by lra; exact Hn]).
  destruct (ilog2_spec f H0) as [Hlo Hhi].
  rewrite Qabs_pos in Hlo, Hhi by lra.
  unfold Py.is_float in Hf. rewrite (fl_nonzero f H0) in Hf. unfold Py.round_at in Hf.
  assert (He : Py.ulp_exponent f = (Py.ilog2 f - 52)%Z)
    by (unfold Py.ulp_exponent; lia).
  rewrite He in Hf.
  set (e := (Py.ilog2 f - 52)%Z) in *.
  set (m := Py.round_half_even (f / Py.pow2 e)) in *.
  exists m, e. split; [| split; [lia | symmetry; exact Hf]].
  pose proof (pow2_pos e) as Hpe.
  pose proof (binade_grid (Py.ilog2 f)) as Hb. fold e in Hb.
  assert (Hb' : Py.pow2 (Py.ilog2 f + 1) == inject_Z (2 ^ 53) * Py.pow2 e).
  { rewrite <- pow2_53_plus. unfold e.
    replace (53 + (Py.ilog2 f - 52))%Z with (Py.ilog2 f + 1)%Z by lia. reflexivity. }
  rewrite <- Hb in Hlo. rewrite Hb' in Hhi. rewrite <- Hf in Hlo, Hhi.
  split.
  - rewrite Zle_Qle. apply Qnot_lt_le. intros Hc.
    assert (inject_Z m * Py.pow2 e < inject_Z (2 ^ 52) * Py.pow2 e)
      by (apply Qmult_lt_compat_r; assumption). lra.
  - rewrite Zlt_Qlt. apply Qnot_le_lt. intros Hc.
    assert (inject_Z (2 ^ 53) * Py.pow2 e <= inject_Z m * Py.pow2 e)
      by (apply Qmult_le_compat_r; lra). lra.
Qed.

Lemma is_float_1 : Py.is_float 1.
Proof. exact (is_float_pow2 0 ltac:(lia)). Qed.

Lemma below_one_float : Py.is_float (1 - Py.pow2 (-52)).
Proof. unfold Py.is_float. vm_compute. reflexivity. Qed.

Lemma above_one_float : Py.is_float (1 + Py.pow2 (-52)).
Proof. unfold Py.is_float. vm_compute. reflexivity. Qed.

Lemma pct_fraction pct : Session.least_pct <= pct -> Py.pow2 (-52) <= Py.fdiv pct 100.
Proof.
  intros H. unfold Py.fdiv. apply fl_ge_float; [apply is_float_pow2; lia |].
  unfold Session.least_pct in H. pose proof (pow2_pos (-52)).
  apply Qle_shift_div_l; [reflexivity |]. lra.
Qed.

Lemma stop_below_entry entry pct :
  Py.is_float entry -> Py.pow2 (-1022) <= entry -> Session.least_pct <= pct ->
  Py.fmul entry (Py.fsub 1 (Py.fdiv pct 100)) < entry.
Proof.
  intros Hf Hn Hp. pose proof (pct_fraction pct Hp) as Hs.
  pose proof (pow2_pos (-1022)) as Hp0. pose proof (pow2_pos (-52)) as Hp52.
  assert (Hm : Py.fsub 1 (Py.fdiv pct 100) <= 1 - Py.pow2 (-52)).
  { unfold Py.fsub. apply fl_le_float; [apply below_one_float | lra]. }
  destruct (normal_float_grid entry Hf Hn) as (m & e & Hmr & He & Heq).
  pose proof (pow2_pos e) as Hpe.
  assert (Hle : Py.fmul entry (Py.fsub 1 (Py.fdiv pct 100))
                <= inject_Z (m - 1) * Py.pow2 e).
  { unfold Py.fmul. apply fl_le_grid; [lia | exact He |].
    set (f := Py.fsub 1 (Py.fdiv pct 100)) in *.
    assert (H1 : entry * f <= entry * (1 - Py.pow2 (-52))).
    { apply Qmult_le_l; [lra | exact Hm]. }
    assert (H2 : inject_Z (2 ^ 52) * Py.pow2 (-52) == 1) by reflexivity.
    assert (H3 : inject_Z (2 ^ 52) <= inject_Z m) by (rewrite <- Zle_Qle; lia).
    unfold Z.sub. rewrite inject_Z_plus, inject_Z_opp.
    change (inject_Z 1) with 1.
    rewrite Heq in H1.
    set (qm := inject_Z m) in *. set (p := Py.pow2 e) in *.
    set (u := Py.pow2 (-52)) in *. set (c := inject_Z (2 ^ 52)) in *.
    assert (H4 : 1 <= qm * u) by nra.
    nra. }
  rewrite Heq at 2.
  assert (inject_Z (m - 1) * Py.pow2 e < inject_Z m * Py.pow2 e).
  { apply Qmult_lt_compat_r; [exact Hpe |]. rewrite <- Zlt_Qlt. lia. }
  lra.
Qed.

Lemma take_above_entry entry pct :
  Py.is_float entry -> Py.pow2 (-1022) <= entry -> Session.least_pct <= pct ->
  entry < Py.fmul entry (Py.fadd 1 (Py.fdiv pct 100)).
Proof.
  intros Hf Hn Hp. pose proof (pct_fraction pct Hp) as Hs.
  pose proof (pow2_pos (-1022)) as Hp0. pose proof (pow2_pos (-52)) as Hp52.
  assert (Hm : 1 + Py.pow2 (-52) <= Py.fadd 1 (Py.fdiv pct 100)).
  { unfold Py.fadd. apply fl_ge_float; [apply above_one_float | lra]. }
  destruct (normal_float_grid entry Hf Hn) as (m & e & Hmr & He & Heq).
  pose proof (pow2_pos e) as Hpe.
  assert (Hge : inject_Z (m + 1) * Py.pow2 e
                <= Py.fmul entry (Py.fadd 1 (Py.fdiv pct 100))).
  { unfold Py.fmul.
    set (f := Py.fadd 1 (Py.fdiv pct 100)) in *.
    assert (H1 : entry * (1 + Py.pow2 (-52)) <= entry * f).
    { apply Qmult_le_l; [lra | exact Hm]. }
    assert (H2 : inject_Z (2 ^ 52) * Py.pow2 (-52) == 1) by reflexivity.
    assert (H3 : inject_Z (2 ^ 52) <= inject_Z m) by (rewrite <- Zle_Qle; lia).
    assert (Hx : inject_Z (m + 1) * Py.pow2 e <= entry * f).
    { rewrite inject_Z_plus. change (inject_Z 1) with 1.
      rewrite Heq in H1.
      set (qm := inject_Z m) in *. set (p := Py.pow2 e) in *.
      set (u := Py.pow2 (-52)) in *. set (c := inject_Z (2 ^ 52)) in *.
      assert (H4 : 1 <= qm * u) by nra.
      nra. }
    destruct (Z.eq_dec (m + 1)%Z (2 ^ 53)%Z) as [E | N].
    - rewrite E in *.
      assert (Hv : inject_Z (2 ^ 53) * Py.pow2 e
                   == inject_Z (2 ^ 52) * Py.pow2 (e + 1)).
      { rewrite pow2_succ. change (2 ^ 53)%Z with (2 * 2 ^ 52)%Z.
        rewrite inject_Z_mult. change (inject_Z 2) with 2. ring. }
      rewrite Hv in *. apply fl_ge_grid; [reflexivity | lia | exact Hx].
    - apply fl_ge_grid; [lia | exact He | exact Hx]. }
  rewrite Heq at 1.
  assert (inject_Z m * Py.pow2 e < inject_Z (m + 1) * Py.pow2 e).
  { apply Qmult_lt_compat_r; [exact Hpe |]. rewrite <- Zlt_Qlt. lia. }
  lra.
Qed.


(** ** The position manager *)
Section PositionFacts.
Import Positions.

Lemma load_loaded pm : _loaded (_load pm) = true.
Proof. unfold _load. destruct (_loaded pm) eqn:E; [| destruct (store pm)]; done. Qed.

Lemma load_of_loaded pm : _loaded pm = true -> _load pm = pm.
Proof. unfold _load. by intros ->. Qed.

Lemma load_idempotent pm : _load (_load pm) = _load pm.
Proof. apply load_of_loaded, load_loaded. Qed.

Lemma load_store pm : store (_load pm) = store pm.
Proof. unfold _load. destruct (_loaded pm); [| destruct (store pm)]; done. Qed.

Lemma scan_triggers_elem (prices : gmap string Q) ps pos r :
  (pos, r) ∈ scan_triggers prices ps <->
  pos ∈ ps /\ exists price, prices !! token_address pos = Some price /\
    ((r = "stopped_out"%string /\ price <= stop_loss_price pos) \/
     (r = "took_profit"%string /\ stop_loss_price pos < price
        /\ take_profit_price pos <= price)).
Proof.
  induction ps as [| p rest IH]; simpl.
  - rewrite !elem_of_nil. intuition.
  - rewrite elem_of_cons.
    destruct (prices !! token_address p) as [price |] eqn:Hp.
    + destruct (Py.leb price (stop_loss_price p)) eqn:Hsl;
        [| destruct (Py.leb (take_profit_price p) price) eqn:Htp];
        rewrite ?elem_of_cons, IH; clear IH;
        rewrite ?leb_le, ?leb_gt in *.
      * split.
        -- intros [Heq | [Hin Hex]]; [inversion Heq; subst | intuition].
           split; [by left |]. exists price.
           split; [exact Hp |]. left. by split.
        -- intros [[-> | Hin] (price' & Hl & Hcase)];
             [| intuition eauto 10].
           rewrite Hp in Hl. inversion Hl; subst price'.
           destruct Hcase as [[-> _] | [_ [Hlt _]]]; [by left | lra].
      * split.
        -- intros [Heq | [Hin Hex]]; [inversion Heq; subst | intuition].
           split; [by left |]. exists price.
           split; [exact Hp |]. right. by repeat split.
        -- intros [[-> | Hin] (price' & Hl & Hcase)];
             [| intuition eauto 10].
           rewrite Hp in Hl. inversion Hl; subst price'.
           destruct Hcase as [[_ Hle] | [-> _]]; [lra | by left].
      * split; [intuition |].
        intros [[-> | Hin] (price' & Hl & Hcase)]; [| intuition eauto 10].
        rewrite Hp in Hl. inversion Hl; subst price'.
        destruct Hcase as [[_ Hle] | [_ [_ Hle]]]; lra.
    + rewrite IH. split; [intuition |].
      intros [[-> | Hin] (price' & Hl & Hcase)];
        [congruence | intuition eauto 10].
Qed.

Lemma is_open_status p : is_open p = true <-> status p = "open"%string.
Proof. unfold is_open. apply String.eqb_eq. Qed.

(** What [check_stop_loss_take_profit] returns, by membership. *)
Lemma check_elem (prices : gmap string Q) pm pos r :
  (pos, r) ∈ fst (check_stop_loss_take_profit prices pm) <->
  pos ∈ _positions (_load pm) /\ status pos = "open"%string /\
  exists price, prices !! token_address pos = Some price /\
    ((r = "stopped_out"%string /\ price <= stop_loss_price pos) \/
     (r = "took_profit"%string /\ stop_loss_price pos < price
        /\ take_profit_price pos <= price)).
Proof.
  unfold check_stop_loss_take_profit, get_open_positions. simpl.
  rewrite scan_triggers_elem, list_elem_of_filter, is_open_status.
  intuition.
Qed.

End PositionFacts.

(** C1. [check_stop_loss_take_profit] on the positions the manager holds
    once loaded: an open position whose address has a price in the map is
    reported as "stopped_out" exactly when [price <= stop_loss_price], and
    as "took_profit" exactly when that fails and
    [price >= take_profit_price]; no position gets both reasons; whatever
    is reported is an open position with a price in the map, with one of
    the two reasons; and a position just opened at an entry price that is
    a positive normal double, with percentages of at least [100 * 2^-52],
    is not reported at a price equal to its entry price. *)
Theorem check_triggers_reports (current_prices : gmap string Q)
    (pm : Positions.PositionManager) :
  let triggered pm :=
    fst (Positions.check_stop_loss_take_profit current_prices pm) in
  (forall pos price,
      pos ∈ Positions._positions (Positions._load pm) ->
      Positions.status pos = "open"%string ->
      current_prices !! Positions.token_address pos = Some price ->
      ((pos, "stopped_out"%string) ∈ triggered pm
         <-> price <= Positions.stop_loss_price pos)
      /\ ((pos, "took_profit"%string) ∈ triggered pm
            <-> ~ price <= Positions.stop_loss_price pos
                /\ Positions.take_profit_price pos <= price))
  /\ (forall pos r r',
         (pos, r) ∈ triggered pm -> (pos, r') ∈ triggered pm -> r = r')
  /\ (forall pos r,
         (pos, r) ∈ triggered pm ->
         pos ∈ Positions._positions (Positions._load pm)
         /\ Positions.status pos = "open"%string
         /\ is_Some (current_prices !! Positions.token_address pos)
         /\ (r = "stopped_out"%string \/ r = "took_profit"%string))
  /\ (forall token symbol entry tokens sol_in sl_pct tp_pct t1 t2 price,
         Session.normal_price entry ->
         Session.least_pct <= sl_pct -> Session.least_pct <= tp_pct ->
         current_prices !! token = Some price -> price == entry ->
         let opened :=
           Positions.open_position token symbol entry tokens sol_in
             sl_pct tp_pct t1 t2 pm in
         forall r, (fst opened, r) ∉ triggered (snd opened)).
Proof.
  intros triggered. subst triggered. cbv beta.
  split; [| split; [| split]].
  - intros pos price Hin Hopen Hprice.
    rewrite !check_elem. split; split.
    + intros (_ & _ & price' & Hl & Hcase).
      rewrite Hprice in Hl. inversion Hl; subst price'.
      destruct Hcase as [[_ H] | [H _]]; [exact H | discriminate H].
    + intros Hle. repeat split; try assumption.
      exists price. split; [exact Hprice |]. left. by split.
    + intros (_ & _ & price' & Hl & Hcase).
      rewrite Hprice in Hl. inversion Hl; subst price'.
      destruct Hcase as [[H _] | [_ [H1 H2]]]; [discriminate H |].
      split; [lra | exact H2].
    + intros [Hn Htp]. repeat split; try assumption.
      exists price. split; [exact Hprice |]. right.
      repeat split; [lra | exact Htp].
  - intros pos r r'. rewrite !check_elem.
    intros (_ & _ & p1 & Hl1 & Hc1) (_ & _ & p2 & Hl2 & Hc2).
    rewrite Hl1 in Hl2. inversion Hl2; subst p2.
    destruct Hc1 as [[-> H1] | [-> [H1 _]]], Hc2 as [[-> H2] | [-> [H2 _]]];
      try reflexivity; lra.
  - intros pos r. rewrite check_elem.
    intros (Hin & Hopen & price & Hl & Hcase).
    repeat split; try assumption; [by exists price | intuition].
  - intros token symbol entry tokens sol_in sl_pct tp_pct t1 t2 price
      (Hf & Hn & _) Hs Ht Hprice Heq opened r. subst opened.
    rewrite check_elem. simpl.
    intros (_ & _ & price' & Hl & Hcase).
    rewrite Hprice in Hl. inversion Hl; subst price'.
    pose proof (stop_below_entry entry sl_pct Hf Hn Hs) as Hlo.
    pose proof (take_above_entry entry tp_pct Hf Hn Ht) as Hhi.
    destruct Hcase as [[_ H] | [_ [_ H]]]; lra.
Qed.

(** Bought at 1.0 with a stop-loss and a take-profit of [2^-50] percent:
    both percentages are positive, but [1 - 2^-50 / 100] is 1.0 in
    doubles, so the stop-loss price is the entry price and the position
    is reported as stopped out at a price equal to its entry price. *)
Lemma tiny_percentage_stops_at_entry :
  let '(pos, pm) :=
    Positions.open_position "T" "TOK" 1 1000 0.5 (Py.pow2 (-50))
      (Py.pow2 (-50)) 100 100 (Positions.init None) in
  0 < Positions.entry_price_usd pos /\ 0 < Py.pow2 (-50)
  /\ Positions.stop_loss_price pos == Positions.entry_price_usd pos
  /\ fst (Positions.check_stop_loss_take_profit {[ "T"%string := 1 ]} pm)
     = [(pos, "stopped_out"%string)].
Proof. vm_compute. repeat split. Qed.

(** Bought at 1.0 with a stop-loss of 10% and a take-profit of 50%: the
    limits are the doubles 0.9 and 1.5; at 0.85 the position is reported as stopped
    out, and closing it there for 0.425 SOL of the 0.5 SOL put in records
    a loss of 15%. *)
Example stop_loss_end_to_end :
  let '(pos, pm) :=
    Positions.open_position "T" "TOK" 1 1000 0.5 10 50 100 100
      (Positions.init None) in
  Positions.stop_loss_price pos == Py.fl 0.9
  /\ Positions.take_profit_price pos == 1.5
  /\ fst (Positions.check_stop_loss_take_profit {[ "T"%string := 0.85 ]} pm)
     = [(pos, "stopped_out"%string)]
  /\ fst (Positions.check_stop_loss_take_profit {[ "T"%string := 1 ]} pm) = []
  /\ fst (Positions.check_stop_loss_take_profit {[ "T"%string := 1.5 ]} pm)
     = [(pos, "took_profit"%string)]
  /\ match Positions._trade_log
             (snd (Positions.close_position "T" 0.85 0.425 "stopped_out"
                     200 pm)) with
     | [_; Positions.Sell _ _ _ _ _ _ pnl_sol pnl_pct reason _] =>
         pnl_sol == -0.075 /\ pnl_pct == -15
         /\ reason = "stopped_out"%string
     | _ => False
     end.
Proof. vm_compute. repeat split; intros H; discriminate H. Qed.

(** C9, amended.  [check_stop_loss_take_profit] leaves a manager that has
    already read its store exactly as it was: no status, limit, trade-log
    entry or counter changes.  On any manager the state it leaves is the
    loaded one ([_load] is the lazy read that every operation starts
    with): a manager that had not read its store yet has its positions,
    trade log and stats filled from it.  The store is never written, and
    what a later read sees is the same.  Closing is a separate call. *)
Theorem check_triggers_is_query (current_prices : gmap string Q)
    (pm : Positions.PositionManager) :
  let after := snd (Positions.check_stop_loss_take_profit current_prices pm) in
  after = Positions._load pm
  /\ Positions._load after = Positions._load pm
  /\ Positions.store after = Positions.store pm
  /\ (Positions._loaded pm = true -> after = pm).
Proof.
  simpl. split; [reflexivity |]. split; [apply load_idempotent |].
  split; [apply load_store |]. apply load_of_loaded.
Qed.

(** On a manager that has not read its store yet, the call is that read:
    the manager is not left as it was, its positions and trade log are
    filled from the store, which holds the same contents before and
    after; a second call changes nothing. *)
Example check_reads_the_store_once :
  let after :=
    snd (Positions.check_stop_loss_take_profit ∅ Examples.restarted) in
  after <> Examples.restarted
  /\ Positions._positions Examples.restarted = []
  /\ Positions._positions after
     = [Positions.mkPosition "T" "TOK" 1 1000 0.5 100 0.9 1.5 "open"]
  /\ Positions._trade_log Examples.restarted = []
  /\ Positions._trade_log after = [Positions.Buy "T" "TOK" 1 0.5 100]
  /\ Positions.store after = Positions.store Examples.restarted
  /\ snd (Positions.check_stop_loss_take_profit ∅ after) = after.
Proof. split; [discriminate | repeat split]. Qed.

(** ** The trend score *)

Lemma clamp_max_min z : Z.max 0 (Z.min 100 z) = ScoreSpec.clamp z.
Proof.
  unfold ScoreSpec.clamp.
  destruct (Z.ltb_spec z 0), (Z.ltb_spec 100 z); lia.
Qed.

Ltac by_comparisons :=
  unfold Py.ltb, Py.leb;
  repeat match goal with
    | |- context [Qle_bool ?a ?b] => destruct (Qle_bool a b) eqn:?
    end; simpl negb; cbv iota; try lia;
  exfalso;
  repeat match goal with
    | H : Qle_bool _ _ = true |- _ => apply Qle_bool_iff in H
    | H : Qle_bool _ _ = false |- _ => apply Qle_bool_gt in H
    end; lra.

Lemma momentum_step (threshold change : Q) (s : Z) :
  0 <= threshold ->
  (if Py.ltb threshold change then (s + 10)%Z
   else if Py.ltb change (- threshold) then (s - 10)%Z else s)
  = (s + ScoreSpec.momentum threshold change)%Z.
Proof. intros Ht. unfold ScoreSpec.momentum. by_comparisons. Qed.

Lemma liquidity_step (token : Safety.TokenInfo) (s : Z) :
  (if Py.ltb 200000 (Safety.liquidity_usd token) then (s + 10)%Z
   else if Py.ltb 100000 (Safety.liquidity_usd token) then (s + 5)%Z else s)
  = (s + ScoreSpec.liquidity_depth token)%Z.
Proof. unfold ScoreSpec.liquidity_depth. by_comparisons. Qed.

Lemma velocity_step (token : Safety.TokenInfo) (s : Z) :
  (if Py.ltb 0 (Safety.liquidity_usd token)
   then
     let velocity := Safety.volume_24h token / Safety.liquidity_usd token in
     if Py.ltb 5 velocity then (s + 5)%Z
     else if Py.ltb velocity 0.5 then (s - 5)%Z else s
   else s)
  = (s + ScoreSpec.velocity_bonus token)%Z.
Proof.
  unfold ScoreSpec.velocity_bonus. cbv zeta.
  generalize (Safety.volume_24h token / Safety.liquidity_usd token).
  intros v. by_comparisons.
Qed.

Lemma buy_pressure_step (token : Safety.TokenInfo) (s : Z) :
  (0 <= Safety.buy_count_5m token)%Z ->
  (0 <= Safety.sell_count_5m token)%Z ->
  (let total_txns :=
     (Safety.buy_count_5m token + Safety.sell_count_5m token)%Z in
   if (0 <? total_txns)%Z
   then
     let buy_ratio :=
       inject_Z (Safety.buy_count_5m token) / inject_Z total_txns in
     if Py.leb 0.7 buy_ratio then (s + 20)%Z
     else if Py.leb 0.6 buy_ratio then (s + 10)%Z
     else if Py.ltb buy_ratio 0.4 then (s - 15)%Z else s
   else s)
  = (s + ScoreSpec.buy_pressure token)%Z.
Proof.
  intros Hb Hs. unfold ScoreSpec.buy_pressure, ScoreSpec.buy_ratio.
  cbv zeta.
  set (total := (Safety.buy_count_5m token + Safety.sell_count_5m token)%Z).
  destruct (Z.ltb_spec 0 total), (Z.eqb_spec total 0); try lia.
  generalize (inject_Z (Safety.buy_count_5m token) / inject_Z total).
  intros r. by_comparisons.
Qed.

(** C3. The score is an integer in [0, 100]; for non-negative transaction
    counts it is the clamped sum of the baseline 50 and of five adjustments
    that are computed independently of one another; the token with buy
    ratio 0.8, +6% over 5 minutes, +15% over an hour, $250k of liquidity
    and velocity 6 scores 100. *)
Theorem trend_score_bounded_additive (token : Safety.TokenInfo) :
  (0 <= Safety._compute_trend_score token <= 100)%Z
  /\ ((0 <= Safety.buy_count_5m token)%Z ->
      (0 <= Safety.sell_count_5m token)%Z ->
      Safety._compute_trend_score token = ScoreSpec.score token)
  /\ Safety._compute_trend_score Examples.strong_token = 100%Z.
Proof.
  split; [| split].
  - unfold Safety._compute_trend_score. lia.
  - intros Hb Hs.
    unfold Safety._compute_trend_score, ScoreSpec.score.
    rewrite clamp_max_min. f_equal. cbv zeta.
    rewrite velocity_step, liquidity_step.
    change (-10)%Q with (- (10))%Q. change (-5)%Q with (- (5))%Q.
    rewrite !momentum_step by lra.
    pose proof (buy_pressure_step token 50 Hb Hs) as Hbp. cbv zeta in Hbp.
    rewrite Hbp. reflexivity.
  - vm_compute. reflexivity.
Qed.

(** ** The safety gate *)
Section GateFacts.
Import Safety.

(** C2. The reasons of [check_token_safety] are the concatenation of the
    outcomes of the seven checks, each decided on its own; the trade is
    accepted exactly when there is no reason; the score is that of the
    token, whatever the reasons; an exception of the holder query becomes a
    reason and blocks the trade; with $50k of liquidity against a minimum
    of $100k and every other check passing, the result is a rejection with
    the liquidity reason alone and the token's score. *)
Theorem safety_gate_itemizes (py_str : Q -> string) (token : TokenInfo)
    (risk : SolanaRiskLimits) (pm : Positions.PositionManager)
    (service : HolderOutcome) (amount_sol now_check now_report : Q) :
  let result :=
    fst (check_token_safety py_str token risk pm service amount_sol
           now_check now_report) in
  let invested := fst (Positions.get_total_sol_invested pm) in
  let last_trade := fst (Positions.get_last_trade_time (address token) pm) in
  let dups := fst (Positions.get_positions_for_token (address token) pm) in
  reasons result =
    (if Py.ltb (liquidity_usd token) (min_liquidity_usd risk)
     then [liquidity_reason token risk] else [])
    ++ (if Py.ltb (volume_24h token) (min_volume_24h_usd risk)
        then [volume_reason token risk] else [])
    ++ (if Py.ltb (max_position_sol risk) amount_sol
        then [position_reason py_str amount_sol risk] else [])
    ++ (if Py.ltb (max_portfolio_sol risk) (invested + amount_sol)
        then [portfolio_reason py_str (invested + amount_sol) risk] else [])
    ++ match last_trade with
       | Some last =>
           if Py.truthy last
              && Py.ltb (now_check - last) (cooldown_seconds risk)
           then [cooldown_reason
                   (Py.int (cooldown_seconds risk - (now_report - last)))
                   token]
           else []
       | None => []
       end
    ++ match dups with
       | [] => []
       | _ :: _ => [duplicate_reason token]
       end
    ++ match service with
       | HoldersReturn holder_count top_holder_pct =>
           (if (holder_count <? min_holder_count risk)%Z
            then [holders_reason holder_count risk] else [])
           ++ (if Py.ltb (max_top_holder_pct risk) top_holder_pct
               then [top_holder_reason py_str top_holder_pct risk] else [])
       | HoldersRaise e => [holder_failure_reason e]
       end
  /\ (safe result = true <-> reasons result = [])
  /\ score result = _compute_trend_score token
  /\ (forall e, service = HoldersRaise e ->
        holder_failure_reason e ∈ reasons result /\ safe result = false)
  /\ fst (check_token_safety py_str Examples.weak_token Examples.limits (Positions.init None)
            (HoldersReturn 100 10) 0.5 1000 1000)
     = mkResult false ["Liquidity $50,000 < min $100,000"%string]
         (_compute_trend_score Examples.weak_token).
Proof.
  cbv zeta.
  assert (Heq : forall l : list string, Nat.eqb (length l) 0 = true <-> l = []).
  { intros [| x l]; simpl; split; congruence. }
  split; [| split; [| split; [| split]]].
  - unfold check_token_safety, Positions.get_total_sol_invested,
      Positions.get_last_trade_time, Positions.get_positions_for_token,
      Positions.get_open_positions.
    cbn [fst snd reasons]. rewrite !load_idempotent.
    repeat match goal with
      | |- context [if ?c then _ else _] => destruct c
      | |- context [match ?c with Some _ => _ | None => _ end] => destruct c
      | |- context [match ?c with [] => _ | _ :: _ => _ end] => destruct c
      | |- context [match ?c with HoldersReturn _ _ => _ | HoldersRaise _ => _ end] => destruct c
      end; reflexivity.
  - unfold check_token_safety, Positions.get_total_sol_invested,
      Positions.get_last_trade_time, Positions.get_positions_for_token,
      Positions.get_open_positions.
    cbn [fst snd reasons safe]. apply Heq.
  - unfold check_token_safety, Positions.get_total_sol_invested,
      Positions.get_last_trade_time, Positions.get_positions_for_token,
      Positions.get_open_positions.
    reflexivity.
  - intros e ->.
    unfold check_token_safety, Positions.get_total_sol_invested,
      Positions.get_last_trade_time, Positions.get_positions_for_token,
      Positions.get_open_positions.
    cbn [fst snd reasons safe].
    match goal with |- _ ∈ ?l ++ _ /\ _ => generalize l end.
    intros l. split.
    + apply elem_of_app. right. apply list_elem_of_singleton. reflexivity.
    + rewrite length_app. simpl. destruct (length l); reflexivity.
  - vm_compute. reflexivity.
Qed.

End GateFacts.

(** ** Trade sizing *)
Section SizingFacts.
Import Positions.

Lemma min2_Qmin a b : Py.min2 a b == Qmin a b.
Proof.
  unfold Py.min2. destruct (Py.ltb b a) eqn:E.
  - apply ltb_lt in E. symmetry. apply Q.min_r. lra.
  - apply ltb_ge in E. symmetry. apply Q.min_l. exact E.
Qed.

Lemma max2_Qmax a b : Py.max2 a b == Qmax a b.
Proof.
  unfold Py.max2. destruct (Py.ltb a b) eqn:E.
  - apply ltb_lt in E. symmetry. apply Q.max_r. lra.
  - apply ltb_ge in E. symmetry. apply Q.max_l. exact E.
Qed.


Lemma round_lower_grid (g : Q) (k : Z) x n :
  g == inject_Z k / Py.pow10 n -> g <= x -> g <= Py.round x n.
Proof.
  intros Hg Hx. rewrite Hg in Hx. apply round_lower in Hx.
  apply (Qle_trans _ (inject_Z k / Py.pow10 n)); [rewrite Hg; lra | exact Hx].
Qed.

Lemma round_upper_grid (g : Q) (k : Z) x n :
  g == inject_Z k / Py.pow10 n -> x <= g -> Py.round x n <= g.
Proof.
  intros Hg Hx. unfold Py.round. pose proof (pow10_pos n) as Hp.
  assert (Hip : 0 < / Py.pow10 n) by (apply Qinv_lt_0_compat; exact Hp).
  assert (Hk : x * Py.pow10 n <= inject_Z k).
  { assert (Hkk : inject_Z k == g * Py.pow10 n).
    { rewrite Hg. unfold Qdiv.
      rewrite <- Qmult_assoc, (Qmult_comm (/ _)), Qmult_inv_r; lra. }
    rewrite Hkk. nra. }
  apply round_half_even_upper in Hk. rewrite Zle_Qle in Hk.
  rewrite Hg. unfold Qdiv. set (ip := / Py.pow10 n) in *. nra.
Qed.

Lemma suggest_unfold base_sol sol_balance pm :
  fst (suggest_trade_size base_sol sol_balance pm) =
  let stats := fst (get_stats pm) in
  if (total_trades stats <? 5)%Z then base_sol
  else Py.round
         (Py.max2
            (Py.min3 (base_sol * multiplier_of (win_rate_pct stats))
               (base_sol * 2) (sol_balance * 0.1)) 0.01) 4.
Proof.
  unfold suggest_trade_size, get_stats. cbn [fst snd total_trades].
  destruct (_ <? 5)%Z; reflexivity.
Qed.







(** 1099 wins in 2000 trades are 54.95%: the double nearest to that lies
    below it, so the rate is reported as 54.9 and the multiplier is 1.0. *)
Example win_rate_is_rounded_as_a_double :
  let pm := init (Some (mkDocument [] [] (mkStats 0 1099 901))) in
  inject_Z 1099 / inject_Z 2000 * 100 == 54.95
  /\ win_rate_pct (fst (get_stats pm)) == Py.fl 54.9
  /\ fst (suggest_trade_size 1 100 pm) == 1.
Proof. vm_compute. repeat split. Qed.

(** C10. With at least 5 recorded trades [suggest_trade_size] returns at
    least 0.01 for every base size and balance; when a tenth of the
    balance is below 0.01 it returns 0.01, more than a tenth of the
    balance. *)
Theorem suggest_trade_size_floor (base_sol sol_balance : Q)
    (pm : PositionManager) :
  (5 <= total_trades (fst (get_stats pm)))%Z ->
  let size := fst (suggest_trade_size base_sol sol_balance pm) in
  0.01 <= size
  /\ (sol_balance * 0.1 < 0.01 -> size == 0.01 /\ sol_balance * 0.1 < size).
Proof.
  intros Htot. cbv zeta. rewrite suggest_unfold. cbv zeta.
  destruct (Z.ltb_spec (total_trades (fst (get_stats pm))) 5); [lia |].
  set (m := multiplier_of _).
  set (suggested := Py.min3 _ _ _).
  split.
  - apply (round_lower_grid 0.01 100); [reflexivity |].
    rewrite max2_Qmax. apply Q.le_max_r.
  - intros Hbal.
    assert (Hs : suggested <= sol_balance * 0.1).
    { unfold suggested, Py.min3. rewrite min2_Qmin. apply Q.le_min_r. }
    assert (Hmax : Py.max2 suggested 0.01 = 0.01).
    { unfold Py.max2.
      assert (Hlt : Py.ltb suggested 0.01 = true) by (apply ltb_lt; lra).
      rewrite Hlt. reflexivity. }
    rewrite Hmax.
    assert (Hr : Py.round 0.01 4 == 0.01) by reflexivity.
    rewrite Hr. split; [reflexivity | exact Hbal].
Qed.

(** The floor at work on a wallet of 0.05 SOL. *)
Lemma suggest_trade_size_floor_holds :
  0.01 <= fst (suggest_trade_size 1 0.05 Examples.veteran)
  /\ fst (suggest_trade_size 1 0.05 Examples.veteran) == 0.01
  /\ 0.05 * 0.1 < fst (suggest_trade_size 1 0.05 Examples.veteran).
Proof.
  assert (Htot : (5 <= total_trades (fst (get_stats Examples.veteran)))%Z)
    by (vm_compute; discriminate).
  destruct (suggest_trade_size_floor 1 0.05 Examples.veteran Htot) as [Hfloor Hcap].
  split; [exact Hfloor |]. apply Hcap. reflexivity.
Defined.

End SizingFacts.

(** ** Limits of a position *)
Section LimitFacts.
Import Positions Session.

Lemma load_fresh pm :
  fresh_or_loaded pm ->
  _load pm = mkManager (_positions pm) (_trade_log pm) (_stats pm) true
               (store pm).
Proof.
  unfold fresh_or_loaded, _load. intros H.
  destruct pm as [ps log st [|] file]; simpl in *; [reflexivity |].
  rewrite H by reflexivity. reflexivity.
Qed.

Lemma loaded_is_fresh pm : _loaded pm = true -> fresh_or_loaded pm.
Proof. unfold fresh_or_loaded. intros ->. discriminate. Qed.

Lemma step_fresh pm op : fresh_or_loaded pm -> fresh_or_loaded (step pm op).
Proof.
  intros Hf.
  assert (Hl : fresh_or_loaded (_load pm))
    by (apply loaded_is_fresh, load_loaded).
  destruct op; simpl.
  - apply loaded_is_fresh. simpl. apply load_loaded.
  - unfold close_position.
    destruct (close_scan _ _ _) as [[hit ps'] |]; simpl; [| exact Hl].
    apply loaded_is_fresh. simpl. apply load_loaded.
  - unfold Tool._set_limits.
    destruct (String.eqb _ _); [exact Hf |].
    unfold get_positions_for_token.
    destruct (filter _ _); simpl; [exact Hl |].
    apply loaded_is_fresh. simpl. apply load_loaded.
  - exact Hl.
Qed.

Lemma well_apply_limits sl tp p :
  (sl <= 0 \/ least_pct <= sl) -> (tp <= 0 \/ least_pct <= tp) ->
  well_limited p -> well_limited (Tool.apply_limits sl tp p).
Proof.
  intros Hsl Htp ((Hf & Hn & Hmax) & Hlo & Hhi). unfold Tool.apply_limits.
  assert (Hpos : 0 < least_pct) by reflexivity.
  destruct (Py.ltb 0 sl) eqn:Hs, (Py.ltb 0 tp) eqn:Ht;
    rewrite ?ltb_lt, ?ltb_ge in *;
    unfold well_limited, normal_price, limits_ordered; simpl;
    repeat apply conj; try assumption;
    first [ apply stop_below_entry; [assumption | assumption |];
            destruct Hsl as [Hsl | Hsl]; [lra | exact Hsl]
          | apply take_above_entry; [assumption | assumption |];
            destruct Htp as [Htp | Htp]; [lra | exact Htp] ].
Qed.

Lemma well_set_status reason p : well_limited p -> well_limited (set_status reason p).
Proof. intros H. exact H. Qed.

(** What [close_position] and [_set_limits] do to the list of positions:
    each position is left as it is or replaced by its update. *)
Lemma close_scan_pointwise token reason ps hit ps' :
  close_scan token reason ps = Some (hit, ps') ->
  Forall2 (fun p q => q = p \/ q = set_status reason p) ps ps'.
Proof.
  revert hit ps'. induction ps as [| p rest IH]; simpl; intros hit ps' H;
    [discriminate |].
  destruct (_ && _).
  - inversion H; subst. constructor; [by right |].
    apply Forall2_same_length_lookup_2; [reflexivity |].
    intros i x y Hx Hy. rewrite Hx in Hy. inversion Hy. by left.
  - destruct (close_scan token reason rest) as [[h r'] |] eqn:Es;
      [| discriminate].
    inversion H; subst. constructor; [by left | eauto].
Qed.

Lemma update_first_pointwise token f ps :
  Forall2 (fun p q => q = p \/ q = f p) ps (Tool.update_first_open token f ps).
Proof.
  induction ps as [| p rest IH]; simpl; [constructor |].
  destruct (_ && _).
  - constructor; [by right |].
    apply Forall2_same_length_lookup_2; [reflexivity |].
    intros i x y Hx Hy. rewrite Hx in Hy. inversion Hy. by left.
  - constructor; [by left | exact IH].
Qed.

Lemma step_loaded pm op : _loaded pm = true -> _loaded (step pm op) = true.
Proof.
  intros Hl. pose proof (load_of_loaded pm Hl) as Hload.
  destruct op; simpl.
  - rewrite Hload. exact Hl.
  - unfold close_position. rewrite Hload.
    destruct (close_scan _ _ _) as [[hit ps'] |]; simpl; exact Hl.
  - unfold Tool._set_limits.
    destruct (String.eqb _ _); [exact Hl |].
    unfold get_positions_for_token. rewrite Hload.
    destruct (filter _ _); simpl; exact Hl.
  - rewrite Hload. exact Hl.
Qed.

(** One call leaves a well-limited position at its index, well limited,
    whatever the other positions are. *)
Lemma step_keeps_well pm op i p :
  sane_update op -> _loaded pm = true ->
  _positions pm !! i = Some p -> well_limited p ->
  exists q,
    _positions (step pm op) !! i = Some q /\ well_limited q
    /\ entry_price_usd q = entry_price_usd p
    /\ token_address q = token_address p.
Proof.
  intros Hop Hl Hp Hw. pose proof (load_of_loaded pm Hl) as Hload.
  assert (Hsame : forall ps : list Position, ps !! i = Some p ->
            exists q, ps !! i = Some q /\ well_limited q
                      /\ entry_price_usd q = entry_price_usd p
                      /\ token_address q = token_address p).
  { intros ps H. exists p. split; [exact H |].
    split; [exact Hw | split; reflexivity]. }
  destruct op; simpl in *.
  - rewrite Hload. apply Hsame, lookup_app_l_Some, Hp.
  - unfold close_position. rewrite Hload.
    destruct (close_scan _ _ _) as [[hit ps'] |] eqn:E; simpl;
      [| apply Hsame, Hp].
    destruct (Forall2_lookup_l _ _ _ _ _ (close_scan_pointwise _ _ _ _ _ E) Hp)
      as (q & Hq & [-> | ->]); [apply Hsame, Hq |].
    exists (set_status reason p). split; [exact Hq |].
    split; [exact Hw | split; reflexivity].
  - unfold Tool._set_limits.
    destruct (String.eqb _ _); [apply Hsame, Hp |].
    unfold get_positions_for_token. rewrite Hload.
    destruct (filter _ _); simpl; [apply Hsame, Hp |].
    destruct (Forall2_lookup_l _ _ _ _ _
                (update_first_pointwise token
                   (Tool.apply_limits stop_loss_pct take_profit_pct)
                   (_positions pm)) Hp)
      as (q & Hq & [-> | ->]); [apply Hsame, Hq |].
    destruct Hop as [Hsl Htp].
    exists (Tool.apply_limits stop_loss_pct take_profit_pct p).
    split; [exact Hq |].
    split; [apply (well_apply_limits _ _ _ Hsl Htp Hw) |].
    unfold Tool.apply_limits.
    destruct (Py.ltb 0 _), (Py.ltb 0 _); split; reflexivity.
  - rewrite Hload. apply Hsame, Hp.
Qed.

Lemma run_keeps_well ops pm i p :
  Forall sane_update ops -> _loaded pm = true ->
  _positions pm !! i = Some p -> well_limited p ->
  exists q,
    _positions (run ops pm) !! i = Some q /\ well_limited q
    /\ entry_price_usd q = entry_price_usd p
    /\ token_address q = token_address p.
Proof.
  unfold run. intros Hops. revert pm p.
  induction Hops as [| op ops Hop Hrest IH]; simpl; intros pm p Hl Hp Hw.
  - exists p. split; [exact Hp |]. split; [exact Hw | split; reflexivity].
  - destruct (step_keeps_well pm op i p Hop Hl Hp Hw)
      as (q & Hq & Hwq & He & Ht).
    destruct (IH (step pm op) q (step_loaded pm op Hl) Hq Hwq)
      as (r & Hr & Hwr & He' & Ht').
    exists r. split; [exact Hr |]. split; [exact Hwr |].
    split; congruence.
Qed.

(** C7, amended.  A position opened at an entry price that is a positive
    normal double, with stop-loss and take-profit percentages of at least
    [100 * 2^-52], satisfies
    [stop_loss_price < entry_price < take_profit_price] when it is
    opened, and still does, at its place in the list, after any sequence
    of opens, closes, limit updates and trigger checks, as long as each
    percentage of a limit update is at least [100 * 2^-52] too or not
    positive (and so ignored); nothing is required of the other
    positions, of the manager it is opened in, or of later opens. *)
Theorem limits_ordered_after_open_and_update (pm : PositionManager)
    (token symbol : string) (entry tokens sol_in sl tp t1 t2 : Q)
    (ops : list Op) :
  normal_price entry -> least_pct <= sl -> least_pct <= tp ->
  Forall sane_update ops ->
  let opened := open_position token symbol entry tokens sol_in sl tp t1 t2 pm in
  let i := length (_positions (_load pm)) in
  (stop_loss_price (fst opened) < entry
   /\ entry < take_profit_price (fst opened))
  /\ _positions (snd opened) !! i = Some (fst opened)
  /\ exists q,
       _positions (run ops (snd opened)) !! i = Some q
       /\ token_address q = token /\ entry_price_usd q = entry
       /\ stop_loss_price q < entry /\ entry < take_profit_price q.
Proof.
  intros (Hf & Hn & Hmax) Hsl Htp Hops opened i. subst opened i.
  pose proof (stop_below_entry entry sl Hf Hn Hsl) as Hlo.
  pose proof (take_above_entry entry tp Hf Hn Htp) as Hhi.
  set (pos := fst (open_position token symbol entry tokens sol_in sl tp t1 t2 pm)).
  assert (Hhere : _positions
                    (snd (open_position token symbol entry tokens sol_in sl tp
                            t1 t2 pm)) !! length (_positions (_load pm))
                  = Some pos).
  { simpl. rewrite lookup_app_r by lia. rewrite Nat.sub_diag. reflexivity. }
  split; [split; assumption | split; [exact Hhere |]].
  assert (Hl : _loaded
                 (snd (open_position token symbol entry tokens sol_in sl tp
                         t1 t2 pm)) = true)
    by (simpl; apply load_loaded).
  assert (Hw : well_limited pos)
    by (split; [repeat split; assumption | split; assumption]).
  destruct (run_keeps_well ops _ _ pos Hops Hl Hhere Hw)
    as (q & Hq & [_ [Hqlo Hqhi]] & He & Ht).
  exists q. change (entry_price_usd pos) with entry in *.
  change (token_address pos) with token in *.
  rewrite He in Hqlo, Hqhi. auto.
Qed.

(** C7 as stated fails for a token whose price is reported as 0: with
    stop-loss 10% and take-profit 50% both limits are 0, the entry price. *)
Lemma zero_price_limits_not_ordered :
  ~ limits_ordered
      (fst (open_position "T" "TOK" 0 1000 0.5 10 50 100 100 (init None))).
Proof.
  unfold limits_ordered. intros [H _]. revert H. apply Qle_not_lt.
  vm_compute. discriminate.
Qed.

(** It fails in doubles for percentages that are positive but tiny: at an
    entry price of 1.0 with both percentages [2^-50], both limits are
    1.0. *)
Lemma tiny_percentage_limits_not_ordered :
  0 < Py.pow2 (-50)
  /\ ~ limits_ordered
         (fst (open_position "T" "TOK" 1 1000 0.5 (Py.pow2 (-50))
                 (Py.pow2 (-50)) 100 100 (init None))).
Proof.
  split; [reflexivity |].
  unfold limits_ordered. intros [H _]. revert H. apply Qle_not_lt.
  vm_compute. discriminate.
Qed.

(** A position opened at 1.0 with 10% / 50% in a manager that already
    holds a position bought at price 0; its stop-loss is then moved to
    20%, another position is opened at price 0, and it is closed. *)
Lemma limits_ordered_after_open_and_update_holds :
  exists q,
    _positions
      (run [OpSetLimits "T" 20 0; OpOpen "Z" "ZERO" 0 1 0.1 10 50 7 7;
            OpClose "T" 2 1 "took_profit" 9]
         (snd (open_position "T" "TOK" 1 1000 0.5 10 50 100 100
                 (snd (open_position "Y" "NIL" 0 1 0.1 10 50 1 1
                         (init None)))))) !! 1%nat = Some q
    /\ status q = "took_profit"%string
    /\ stop_loss_price q < 1 /\ 1 < take_profit_price q.
Proof.
  destruct (limits_ordered_after_open_and_update
              (snd (open_position "Y" "NIL" 0 1 0.1 10 50 1 1 (init None)))
              "T" "TOK" 1 1000 0.5 10 50 100 100
              [OpSetLimits "T" 20 0; OpOpen "Z" "ZERO" 0 1 0.1 10 50 7 7;
               OpClose "T" 2 1 "took_profit" 9])
    as (_ & _ & q & Hq & _ & _ & Hlo & Hhi).
  - split; [vm_compute; reflexivity |].
    split; [vm_compute; discriminate | vm_compute; reflexivity].
  - vm_compute. discriminate.
  - vm_compute. discriminate.
  - constructor; [| constructor; [exact I | constructor; [exact I |]]].
    + split; [right | left]; vm_compute; discriminate.
    + constructor.
  - exists q. split; [exact Hq |]. split; [| split; assumption].
    vm_compute in Hq. inversion Hq. reflexivity.
Defined.

End LimitFacts.

(** ** Aggregate stats *)
Section StatsFacts.
Import Positions Session.


Lemma closed_count_open_appended ps pos :
  is_open pos = true ->
  length (filter (fun p => is_open p = false) (ps ++ [pos]))
  = length (filter (fun p => is_open p = false) ps).
Proof.
  intros Ho. rewrite filter_app, length_app.
  rewrite filter_cons_False by (rewrite Ho; discriminate).
  rewrite filter_nil. simpl. lia.
Qed.

Lemma closed_count_close_scan token reason ps hit ps' :
  reason <> "open"%string ->
  close_scan token reason ps = Some (hit, ps') ->
  length (filter (fun p => is_open p = false) ps')
  = S (length (filter (fun p => is_open p = false) ps)).
Proof.
  intros Hr. revert hit ps'.
  induction ps as [| p rest IH]; simpl; intros hit ps' Hscan; [discriminate |].
  destruct (String.eqb (token_address p) token && String.eqb (status p) "open")
    eqn:Hm.
  - inversion Hscan; subst.
    apply andb_true_iff in Hm. destruct Hm as [_ Ho].
    rewrite filter_cons_True.
    2:{ unfold is_open. simpl. apply String.eqb_neq. exact Hr. }
    rewrite (filter_cons_False _ p)
      by (unfold is_open; rewrite Ho; discriminate).
    reflexivity.
  - destruct (close_scan token reason rest) as [[h r'] |] eqn:E;
      [| discriminate].
    inversion Hscan; subst.
    pose proof (IH _ _ eq_refl) as IH'.
    destruct (is_open p) eqn:Ho.
    + rewrite !filter_cons_False by (rewrite Ho; discriminate). exact IH'.
    + rewrite !filter_cons_True by exact Ho. simpl. rewrite IH'. reflexivity.
Qed.

Lemma closed_count_update_first token sl tp ps :
  length (filter (fun p => is_open p = false)
            (Tool.update_first_open token (Tool.apply_limits sl tp) ps))
  = length (filter (fun p => is_open p = false) ps).
Proof.
  assert (Hst : forall p, is_open (Tool.apply_limits sl tp p) = is_open p).
  { intros p. unfold Tool.apply_limits.
    destruct (Py.ltb 0 sl), (Py.ltb 0 tp); reflexivity. }
  induction ps as [| p rest IH]; simpl; [reflexivity |].
  destruct (_ && _).
  - destruct (is_open p) eqn:Ho.
    + rewrite !filter_cons_False; [reflexivity | rewrite Ho; discriminate |
        rewrite Hst, Ho; discriminate].
    + rewrite !filter_cons_True; [reflexivity | exact Ho | rewrite Hst; exact Ho].
  - destruct (is_open p) eqn:Ho.
    + rewrite !filter_cons_False by (rewrite Ho; discriminate). exact IH.
    + rewrite !filter_cons_True by exact Ho. simpl. rewrite IH. reflexivity.
Qed.










(** Why the reason of a close must be terminal: closing with the reason
    "open" counts a trade and leaves the position open. *)
Lemma close_as_open_counts_without_closing :
  let pm := run [OpOpen "T" "TOK" 1 1000 0.5 10 50 100 100;
                 OpClose "T" 0.85 0.425 "open" 200] (init None) in
  (wins (_stats pm) + losses (_stats pm))%Z = 1%Z /\ closed_count pm = 0%Z.
Proof. split; reflexivity. Qed.

End StatsFacts.

(** ** The strategy memory *)
Section MemoryFacts.
Import Memory Session.

Lemma mem_load_loaded m : _loaded (_load m) = true.
Proof.
  unfold _load. destruct (_loaded m) eqn:E; [exact E |].
  destruct (store m); reflexivity.
Qed.

Lemma mem_load_of_loaded m : _loaded m = true -> _load m = m.
Proof. unfold _load. intros ->. reflexivity. Qed.



Lemma in_existing (addr : string) (l : list AvoidEntry) :
  addr ∈ (list_to_set (map address l) : gset string) <-> addr ∈ map address l.
Proof. apply elem_of_list_to_set. Qed.







Lemma first_reason_present addr l l' r0 :
  first_reason addr l = Some r0 -> first_reason addr (l ++ l') = Some r0.
Proof.
  induction l as [| e l IH]; simpl; [discriminate |].
  destruct (String.eqb (address e) addr); auto.
Qed.




Lemma add_avoid_present addr r t m :
  addr ∈ map address (avoid_tokens (_data (_load m))) ->
  add_avoid addr r t m = _load m.
Proof.
  intros Hin. unfold add_avoid.
  destruct (decide _) as [_ | Hn]; [reflexivity |].
  exfalso. apply Hn, in_existing, Hin.
Qed.

Lemma add_avoid_absent addr r t m :
  addr ∉ map address (avoid_tokens (_data (_load m))) ->
  add_avoid addr r t m
  = _save (mkMemory
             (mkData (lessons (_data (_load m)))
                (avoid_tokens (_data (_load m)) ++ [mkAvoid addr r t])
                (prefer_patterns (_data (_load m)))
                (session_notes (_data (_load m)))
                (trade_reviews (_data (_load m))))
             (_loaded (_load m)) (store (_load m))).
Proof.
  intros Hnin. unfold add_avoid.
  destruct (decide _) as [Hin | _]; [| reflexivity].
  exfalso. apply Hnin, in_existing, Hin.
Qed.



Lemma bounded_length {A} (l : list A) : (length (bounded l) <= 200)%nat.
Proof.
  unfold bounded, Py.last_n.
  destruct (Nat.ltb_spec 200 (length l)); [| lia].
  rewrite length_drop. lia.
Qed.

Lemma bounded_short {A} (l : list A) :
  (length l <= 200)%nat -> bounded l = l.
Proof.
  intros H. unfold bounded.
  destruct (Nat.ltb_spec 200 (length l)); [lia | reflexivity].
Qed.

Lemma bounded_idempotent {A} (l : list A) : bounded (bounded l) = bounded l.
Proof. apply bounded_short, bounded_length. Qed.

Lemma bounded_snoc {A} (l : list A) x :
  bounded (bounded l ++ [x]) = bounded (l ++ [x]).
Proof.
  destruct (Nat.le_gt_cases (length l) 200) as [Hle | Hgt].
  - rewrite (bounded_short l Hle). reflexivity.
  - unfold bounded at 2. unfold Py.last_n.
    destruct (Nat.ltb_spec 200 (length l)); [| lia].
    unfold bounded, Py.last_n.
    rewrite !length_app, length_drop. simpl.
    destruct (Nat.ltb_spec 200 (length l - (length l - 200) + 1)); [| lia].
    destruct (Nat.ltb_spec 200 (length l + 1)); [| lia].
    rewrite !drop_app_le by (rewrite ?length_drop; lia).
    rewrite drop_drop. f_equal. f_equal. lia.
Qed.

Lemma add_pattern_present p m :
  p ∈ prefer_patterns (_data (_load m)) -> add_pattern p m = _load m.
Proof.
  intros Hin. unfold add_pattern.
  destruct (decide _) as [_ | Hn]; [reflexivity | contradiction].
Qed.

Lemma add_pattern_absent p m :
  p ∉ prefer_patterns (_data (_load m)) ->
  add_pattern p m
  = _save (mkMemory
             (mkData (lessons (_data (_load m)))
                (avoid_tokens (_data (_load m)))
                (prefer_patterns (_data (_load m)) ++ [p])
                (session_notes (_data (_load m)))
                (trade_reviews (_data (_load m))))
             (_loaded (_load m)) (store (_load m))).
Proof.
  intros Hnin. unfold add_pattern.
  destruct (decide _) as [Hin | _]; [contradiction | reflexivity].
Qed.

Ltac settle_cases :=
  repeat (first [apply conj | intro]);
  first [reflexivity | lra | contradiction].

(** C5, amended.  [add_trade_review] appends the review and then, all
    lists being cut to their last 200 entries by every save:
    with [pnl_pct <= -30] it appends one lesson with source "auto_loss"
    and, unless the token is already on the avoid list, one avoid entry for
    the token whose reason cites the loss percentage (the avoid list is
    unchanged when the token is already on it), and no pattern;
    with [pnl_pct >= 50] it appends one lesson with source "auto_win" and,
    unless the same pattern string is already registered, that pattern,
    and no avoid entry;
    strictly between -30 and 50 it appends no lesson, no avoid entry and
    no pattern. *)
Theorem auto_learn_effects (token symbol side reason : string)
    (pnl_sol pnl_pct : Q) (score : Z) (buy_ratio liq hold : Q)
    (now now_lesson now_avoid : Q) (m : StrategyMemory) :
  let before := _data (_load m) in
  let after :=
    _data (add_trade_review token symbol side pnl_sol pnl_pct score
             buy_ratio liq hold reason now now_lesson now_avoid m) in
  let pattern := win_pattern score buy_ratio liq in
  (pnl_pct <= -30 ->
     lessons after
     = bounded (lessons before
                  ++ [mkLesson (loss_lesson symbol score buy_ratio liq reason)
                        "auto_loss" now_lesson])
     /\ (token ∉ map address (avoid_tokens before) ->
         avoid_tokens after
         = avoid_tokens before
             ++ [mkAvoid token (avoid_reason pnl_pct reason) now_avoid])
     /\ (token ∈ map address (avoid_tokens before) ->
         avoid_tokens after = avoid_tokens before)
     /\ prefer_patterns after = prefer_patterns before)
  /\ (50 <= pnl_pct ->
      lessons after
      = bounded (lessons before
                   ++ [mkLesson (win_lesson symbol score buy_ratio liq)
                         "auto_win" now_lesson])
      /\ (pattern ∉ prefer_patterns before ->
          prefer_patterns after = prefer_patterns before ++ [pattern])
      /\ (pattern ∈ prefer_patterns before ->
          prefer_patterns after = prefer_patterns before)
      /\ avoid_tokens after = avoid_tokens before)
  /\ (-30 < pnl_pct -> pnl_pct < 50 ->
      lessons after = bounded (lessons before)
      /\ avoid_tokens after = avoid_tokens before
      /\ prefer_patterns after = prefer_patterns before)
  /\ trade_reviews after
     = bounded (trade_reviews before
                  ++ [mkReview token symbol side (Py.round pnl_sol 6)
                        (Py.round pnl_pct 2) score (Py.round buy_ratio 1)
                        (Py.round_half_even liq) (Py.round hold 1) reason
                        now]).
Proof.
  intros before after pattern. subst after.
  unfold add_trade_review. fold before.
  set (m1 := _save _).
  assert (Hl1 : _load m1 = m1)
    by (apply mem_load_of_loaded; simpl; apply mem_load_loaded).
  unfold _auto_learn.
  set (m2 := add_lesson _ "auto_loss" _ m1).
  set (m3 := add_lesson _ "auto_win" _ m1).
  assert (Hl2 : _load m2 = m2)
    by (apply mem_load_of_loaded; simpl; apply mem_load_loaded).
  assert (Hl3 : _load m3 = m3)
    by (apply mem_load_of_loaded; simpl; apply mem_load_loaded).
  set (review :=
         mkReview token symbol side (Py.round pnl_sol 6) (Py.round pnl_pct 2)
           score (Py.round buy_ratio 1) (Py.round_half_even liq)
           (Py.round hold 1) reason now) in *.
  set (lost :=
         mkLesson (loss_lesson symbol score buy_ratio liq reason)
           "auto_loss" now_lesson) in *.
  set (won :=
         mkLesson (win_lesson symbol score buy_ratio liq) "auto_win"
           now_lesson) in *.
  assert (Hd2 : _data m2
                = mkData (bounded (lessons before ++ [lost]))
                    (avoid_tokens before) (prefer_patterns before)
                    (bounded (session_notes before))
                    (bounded (trade_reviews before ++ [review]))).
  { subst m2. unfold add_lesson. rewrite Hl1. simpl.
    rewrite bounded_snoc, !bounded_idempotent. reflexivity. }
  assert (Hd3 : _data m3
                = mkData (bounded (lessons before ++ [won]))
                    (avoid_tokens before) (prefer_patterns before)
                    (bounded (session_notes before))
                    (bounded (trade_reviews before ++ [review]))).
  { subst m3. unfold add_lesson. rewrite Hl1. simpl.
    rewrite bounded_snoc, !bounded_idempotent. reflexivity. }
  destruct (Py.leb pnl_pct (-30)) eqn:Hloss;
    [| destruct (Py.leb 50 pnl_pct) eqn:Hwin].
  - apply leb_le in Hloss.
    assert (Hcases :
      (token ∈ map address (avoid_tokens before) ->
       _data (add_avoid token (avoid_reason pnl_pct reason) now_avoid m2)
       = _data m2)
      /\ (token ∉ map address (avoid_tokens before) ->
          let d := _data (add_avoid token (avoid_reason pnl_pct reason)
                            now_avoid m2) in
          lessons d = lessons (_data m2)
          /\ avoid_tokens d
             = avoid_tokens before
                 ++ [mkAvoid token (avoid_reason pnl_pct reason) now_avoid]
          /\ prefer_patterns d = prefer_patterns before
          /\ trade_reviews d = trade_reviews (_data m2))).
    { split.
      - intros Hin. rewrite add_avoid_present; rewrite Hl2, ?Hd2; auto.
      - intros Hnin. rewrite add_avoid_absent by (rewrite Hl2, Hd2; auto).
        rewrite Hl2, Hd2. simpl. rewrite !bounded_idempotent. auto. }
    destruct Hcases as [Hp Ha].
    destruct (decide (token ∈ map address (avoid_tokens before)))
      as [Hin | Hnin].
    + rewrite (Hp Hin), Hd2. simpl.
      settle_cases.
    + destruct (Ha Hnin) as (Hles & Hav & Hpat & Hrev).
      rewrite Hles, Hav, Hpat, Hrev, Hd2. simpl.
      settle_cases.
  - apply leb_gt in Hloss. apply leb_le in Hwin.
    destruct (decide (pattern ∈ prefer_patterns before)) as [Hin | Hnin].
    + rewrite add_pattern_present by (rewrite Hl3, Hd3; exact Hin).
      rewrite Hl3, Hd3. simpl.
      settle_cases.
    + rewrite add_pattern_absent by (rewrite Hl3, Hd3; exact Hnin).
      rewrite Hl3, Hd3. simpl. rewrite !bounded_idempotent.
      settle_cases.
  - apply leb_gt in Hloss, Hwin. subst m1. simpl.
    settle_cases.
Qed.

(** C5 as stated fails: after one big win, a second win of another token
    with the same score, buy ratio and liquidity produces the pattern
    string that is already registered, and no pattern is added. *)
Lemma second_win_registers_no_pattern :
  let before := Examples.after_first_win in
  let after :=
    add_trade_review "U" "UUU" "sell" 0.3 70 80 75 250000 30 "took_profit"
      11 12 13 before in
  ~ (length (prefer_patterns (_data after))
     = S (length (prefer_patterns (_data before)))).
Proof. vm_compute. discriminate. Qed.

(** The same happens to the avoid list when a token that is already on it
    makes a second big loss. *)
Lemma second_loss_adds_no_avoid_entry :
  let before :=
    add_trade_review "T" "TOK" "sell" (-0.3) (-35) 40 30 50000 12
      "stopped_out" 1 2 3 (Memory.init None) in
  let after :=
    add_trade_review "T" "TOK" "sell" (-0.2) (-40) 40 30 50000 12
      "stopped_out" 11 12 13 before in
  avoid_tokens (_data after) = avoid_tokens (_data before)
  /\ map reason (avoid_tokens (_data after))
     = ["Lost -35% — stopped_out"%string].
Proof. split; vm_compute; reflexivity. Qed.
End MemoryFacts.

(** * Further properties of the code *)

(** ** Closing a position *)
Section ClosingFacts.
Import Positions Session.

Lemma match_open_for token p :
  String.eqb (token_address p) token && String.eqb (status p) "open" = true
  <-> open_for token p.
Proof.
  unfold open_for. rewrite andb_true_iff, !String.eqb_eq. reflexivity.
Qed.

Lemma close_scan_none token reason ps :
  filter (fun p => String.eqb (token_address p) token && is_open p = true) ps
  = [] ->
  close_scan token reason ps = None.
Proof.
  induction ps as [| p rest IH]; simpl; intros H; [reflexivity |].
  unfold is_open in *.
  destruct (String.eqb (token_address p) token && String.eqb (status p) "open")
    eqn:E.
  - rewrite filter_cons_True in H by exact E. discriminate.
  - rewrite filter_cons_False in H by (rewrite E; discriminate).
    rewrite IH by exact H. reflexivity.
Qed.

Lemma close_scan_first token reason ps pos others :
  filter (fun p => String.eqb (token_address p) token && is_open p = true) ps
  = pos :: others ->
  exists before after,
    ps = before ++ pos :: after
    /\ (forall q, q ∈ before -> ~ open_for token q)
    /\ open_for token pos
    /\ close_scan token reason ps
       = Some (set_status reason pos, before ++ set_status reason pos :: after).
Proof.
  induction ps as [| p rest IH]; simpl; intros H.
  - rewrite filter_nil in H. discriminate.
  - unfold is_open in *.
    destruct (String.eqb (token_address p) token
              && String.eqb (status p) "open") eqn:E.
    + rewrite filter_cons_True in H by exact E. inversion H; subst.
      exists [], rest. repeat split.
      * intros q Hq. apply elem_of_nil in Hq. destruct Hq.
      * apply match_open_for in E. apply E.
      * apply match_open_for in E. apply E.
    + rewrite filter_cons_False in H by (rewrite E; discriminate).
      destruct (IH H) as (before & after & Hps & Hb & Ho & Hs).
      exists (p :: before), after. rewrite Hs, Hps. repeat split.
      * intros q Hq. apply elem_of_cons in Hq. destruct Hq as [-> | Hq].
        -- rewrite <- match_open_for, E. discriminate.
        -- apply Hb, Hq.
      * apply Ho.
      * apply Ho.
Qed.

(** Closing a token that has no open position changes nothing: the call
    returns [None], and the manager is the loaded one, with the same
    positions, trade log, counters and store. *)
Theorem close_without_open_position (token : string) (exit_price sol_out : Q)
    (reason : string) (now : Q) (pm : PositionManager) :
  fst (get_positions_for_token token pm) = [] ->
  close_position token exit_price sol_out reason now pm = (None, _load pm).
Proof.
  unfold get_positions_for_token, close_position. simpl. intros H.
  rewrite close_scan_none by exact H. reflexivity.
Qed.

Lemma close_without_open_position_holds :
  close_position "T" 1 1 "closed" 5 (init None) = (None, _load (init None)).
Proof. apply close_without_open_position. reflexivity. Defined.



End ClosingFacts.

(** ** Positions over a session *)
Section Finality.
Import Positions Session.

Lemma evolves_refl p : evolves p p.
Proof. repeat split. Qed.

Lemma evolves_trans p q r : evolves p q -> evolves q r -> evolves p r.
Proof.
  intros (H1 & H2 & H3 & H4 & H5 & H6 & H7) (G1 & G2 & G3 & G4 & G5 & G6 & G7).
  repeat split; try congruence.
  intros Ho. rewrite <- (H7 Ho). apply G7. rewrite (H7 Ho). exact Ho.
Qed.

Lemma Forall2_evolves_refl ps : Forall2 evolves ps ps.
Proof. induction ps; constructor; auto using evolves_refl. Qed.

Lemma extends_refl ps : extends ps ps.
Proof.
  exists ps, []. rewrite app_nil_r. split; [reflexivity |].
  apply Forall2_evolves_refl.
Qed.

Lemma Forall2_evolves_trans ps qs rs :
  Forall2 evolves ps qs -> Forall2 evolves qs rs -> Forall2 evolves ps rs.
Proof.
  intros H. revert rs. induction H; intros rs G; inversion G; subst;
    constructor; eauto using evolves_trans.
Qed.

Lemma extends_trans ps qs rs : extends ps qs -> extends qs rs -> extends ps rs.
Proof.
  intros (k1 & a1 & -> & H1) (k2 & a2 & -> & H2).
  apply Forall2_app_inv_l in H2.
  destruct H2 as (k2a & k2b & Ha & Hb & ->).
  exists k2a, (k2b ++ a2). rewrite <- app_assoc. split; [reflexivity |].
  eapply Forall2_evolves_trans; eauto.
Qed.

Lemma evolves_close_scan token reason ps hit ps' :
  close_scan token reason ps = Some (hit, ps') -> Forall2 evolves ps ps'.
Proof.
  revert hit ps'. induction ps as [| p rest IH]; simpl; intros hit ps' H;
    [discriminate |].
  destruct (String.eqb (token_address p) token && String.eqb (status p) "open")
    eqn:E.
  - inversion H; subst. constructor; [| apply Forall2_evolves_refl].
    repeat split. intros Ho. apply andb_true_iff in E. destruct E as [_ E].
    unfold is_open in Ho. congruence.
  - destruct (close_scan token reason rest) as [[h r'] |] eqn:Es;
      [| discriminate].
    inversion H; subst. constructor; [apply evolves_refl | eauto].
Qed.

Lemma evolves_apply_limits sl tp p :
  is_open p = true -> evolves p (Tool.apply_limits sl tp p).
Proof.
  intros Ho. unfold Tool.apply_limits.
  destruct (Py.ltb 0 sl), (Py.ltb 0 tp); repeat split; simpl; congruence.
Qed.

Lemma evolves_update_first token sl tp ps :
  Forall2 evolves ps
    (Tool.update_first_open token (Tool.apply_limits sl tp) ps).
Proof.
  induction ps as [| p rest IH]; simpl; [constructor |].
  destruct (String.eqb (token_address p) token && is_open p) eqn:E.
  - constructor; [| apply Forall2_evolves_refl].
    apply evolves_apply_limits. apply andb_true_iff in E. apply E.
  - constructor; [apply evolves_refl | exact IH].
Qed.

Lemma extends_same ps ps' : Forall2 evolves ps ps' -> extends ps ps'.
Proof. intros H. exists ps', []. rewrite app_nil_r. auto. Qed.

Lemma step_extends pm op :
  fresh_or_loaded pm -> extends (_positions pm) (_positions (step pm op)).
Proof.
  intros Hf.
  assert (Hload : _positions (_load pm) = _positions pm)
    by (rewrite (load_fresh pm Hf); reflexivity).
  destruct op; simpl.
  - rewrite Hload. eexists _, _. split; [reflexivity |].
    apply Forall2_evolves_refl.
  - unfold close_position. rewrite Hload.
    destruct (close_scan _ _ _) as [[hit ps'] |] eqn:E; simpl.
    + apply extends_same. eapply evolves_close_scan; eauto.
    + rewrite Hload. apply extends_refl.
  - unfold Tool._set_limits.
    destruct (String.eqb _ _); [apply extends_refl |].
    unfold get_positions_for_token.
    destruct (filter _ _); simpl; rewrite Hload; [apply extends_refl |].
    apply extends_same, evolves_update_first.
  - rewrite Hload. apply extends_refl.
Qed.

Lemma run_extends ops pm :
  fresh_or_loaded pm -> extends (_positions pm) (_positions (run ops pm)).
Proof.
  unfold run. revert pm.
  induction ops as [| op ops IH]; simpl; intros pm Hf; [apply extends_refl |].
  eapply extends_trans; [apply step_extends; exact Hf |].
  apply IH, step_fresh, Hf.
Qed.

(** Over any sequence of opens, closes, limit updates and checks, a
    position stays at its index with its token, entry price, SOL amount
    and entry time; once its status is not "open" it never changes
    again. *)
Theorem positions_are_kept_and_closed_ones_final (ops : list Op)
    (pm : PositionManager) (i : nat) (p : Position) :
  fresh_or_loaded pm ->
  _positions pm !! i = Some p ->
  exists q,
    _positions (run ops pm) !! i = Some q
    /\ token_address q = token_address p
    /\ entry_price_usd q = entry_price_usd p
    /\ amount_sol_in q = amount_sol_in p
    /\ entry_time q = entry_time p
    /\ (status p <> "open"%string -> q = p).
Proof.
  intros Hf Hp.
  destruct (run_extends ops pm Hf) as (kept & added & Heq & Hall).
  destruct (Forall2_lookup_l _ _ _ _ _ Hall Hp) as (q & Hq & He).
  exists q. rewrite Heq, lookup_app_l by (eapply lookup_lt_Some; eauto).
  destruct He as (H1 & H2 & H3 & H4 & H5 & H6 & H7).
  repeat split; try assumption.
  intros Hs. apply H7. unfold is_open. apply String.eqb_neq. exact Hs.
Qed.

Lemma positions_are_kept_and_closed_ones_final_holds :
  let pm := run [OpOpen "T" "TOK" 1 1000 0.5 10 50 100 100;
                 OpClose "T" 0.85 0.425 "stopped_out" 200] (init None) in
  let p := mkPosition "T" "TOK" 1 1000 0.5 100
             (Py.fmul 1 (Py.fsub 1 (Py.fdiv 10 100)))
             (Py.fmul 1 (Py.fadd 1 (Py.fdiv 50 100))) "stopped_out" in
  exists q,
    _positions (run [OpClose "T" 2 1 "closed" 300; OpSetLimits "T" 5 5] pm)
      !! 0%nat = Some q
    /\ q = p.
Proof.
  intros pm p.
  destruct (positions_are_kept_and_closed_ones_final
              [OpClose "T" 2 1 "closed" 300; OpSetLimits "T" 5 5] pm 0 p)
    as (q & Hq & _ & _ & _ & _ & Hfinal).
  - intros H. discriminate H.
  - reflexivity.
  - exists q. split; [exact Hq |]. apply Hfinal. discriminate.
Defined.

End Finality.

(** ** The store *)
Section Persistence.
Import Positions Session.

Lemma step_persisted pm op :
  fresh_or_loaded pm -> persisted pm -> persisted (step pm op).
Proof.
  intros Hf Hp. pose proof (load_fresh pm Hf) as Hload.
  assert (Hpl : persisted (_load pm)) by (rewrite Hload; exact Hp).
  destruct op; simpl.
  - reflexivity.
  - unfold close_position.
    destruct (close_scan _ _ _) as [[hit ps'] |]; simpl;
      [reflexivity | exact Hpl].
  - unfold Tool._set_limits.
    destruct (String.eqb _ _); [exact Hp |].
    unfold get_positions_for_token.
    destruct (filter _ _); simpl; [exact Hpl | reflexivity].
  - exact Hpl.
Qed.

Lemma run_persisted ops pm :
  fresh_or_loaded pm -> persisted pm ->
  fresh_or_loaded (run ops pm) /\ persisted (run ops pm).
Proof.
  unfold run. revert pm.
  induction ops as [| op ops IH]; simpl; intros pm Hf Hp; [split; assumption |].
  apply IH; [apply step_fresh, Hf | apply step_persisted; assumption].
Qed.

(** After any sequence of calls that starts without a store, a new manager
    on the same store loads the same positions and counters, and the last
    500 entries of the trade log (the whole log while it is that short). *)
Theorem restart_reads_back_what_was_saved (ops : list Op) :
  let pm := run ops (init None) in
  let restarted := _load (init (store pm)) in
  _positions restarted = _positions pm
  /\ _stats restarted = _stats pm
  /\ _trade_log restarted = Py.last_n 500 (_trade_log pm)
  /\ ((length (_trade_log pm) <= 500)%nat ->
      _trade_log restarted = _trade_log pm).
Proof.
  intros pm restarted.
  destruct (run_persisted ops (init None)) as [_ Hp].
  { intros _. reflexivity. }
  { repeat split. }
  fold pm in Hp. unfold persisted in Hp. subst restarted.
  assert (Hshort : (length (_trade_log pm) <= 500)%nat ->
                   Py.last_n 500 (_trade_log pm) = _trade_log pm).
  { intros Hlen. unfold Py.last_n.
    replace (length (_trade_log pm) - 500)%nat with 0%nat by lia.
    reflexivity. }
  unfold _load, init. simpl.
  destruct (store pm) as [d |].
  - subst d. simpl. repeat split; try reflexivity.
    intros Hlen. apply Hshort, Hlen.
  - destruct Hp as (-> & -> & ->). repeat split.
Qed.

End Persistence.

(** ** The open positions *)
Section Exposure.
Import Positions Session.

Lemma open_position_loaded tok sym entry tokens sol_in sl tp t1 t2 pm :
  _load (snd (open_position tok sym entry tokens sol_in sl tp t1 t2 pm))
  = snd (open_position tok sym entry tokens sol_in sl tp t1 t2 pm).
Proof. apply load_of_loaded. simpl. apply load_loaded. Qed.

(** Opening a position puts it, open and with the token and the SOL
    amount given, at the end of the open positions, which are otherwise
    the same and in the same order. *)
Theorem open_appends_to_open_positions (tok sym : string)
    (entry tokens sol_in sl tp t1 t2 : Q) (pm : PositionManager) :
  let opened := open_position tok sym entry tokens sol_in sl tp t1 t2 pm in
  fst (get_open_positions (snd opened))
  = fst (get_open_positions pm) ++ [fst opened]
  /\ fst (get_positions_for_token tok (snd opened))
     = fst (get_positions_for_token tok pm) ++ [fst opened]
  /\ status (fst opened) = "open"%string
  /\ amount_sol_in (fst opened) = sol_in
  /\ token_address (fst opened) = tok.
Proof.
  cbv zeta. unfold get_open_positions, get_positions_for_token.
  rewrite open_position_loaded. cbn [fst snd]. simpl _positions.
  rewrite !filter_app.
  rewrite filter_cons_True by reflexivity.
  rewrite filter_cons_True by (simpl; rewrite String.eqb_refl; reflexivity).
  rewrite !filter_nil. repeat split.
Qed.

(** Closing with a status other than "open" takes exactly one position
    out of the open positions: the first one of the token.  The open
    positions before it belong to other tokens, every other open
    position stays, in order, and the token's remaining open positions
    are the ones that came after. *)
Theorem close_removes_first_open_position (token : string)
    (exit_price sol_out : Q) (reason : string) (now : Q)
    (pm : PositionManager) (pos : Position) (others : list Position) :
  fst (get_positions_for_token token pm) = pos :: others ->
  reason <> "open"%string ->
  let pm' := snd (close_position token exit_price sol_out reason now pm) in
  exists earlier later,
    fst (get_open_positions pm) = earlier ++ pos :: later
    /\ (forall q, q ∈ earlier -> token_address q <> token)
    /\ fst (get_open_positions pm') = earlier ++ later
    /\ fst (get_positions_for_token token pm') = others.
Proof.
  unfold get_positions_for_token. simpl. intros H Hr.
  destruct (close_scan_first token reason _ _ _ H)
    as (before & after & Hps & Hb & Ho & Hs).
  exists (filter (fun p : Position => is_open p = true) before),
         (filter (fun p : Position => is_open p = true) after).
  unfold get_open_positions, close_position.
  rewrite Hs. cbn [fst snd].
  match goal with
  | |- context [_load (_save ?x)] =>
      rewrite (load_of_loaded (_save x)) by (simpl; apply load_loaded)
  end.
  simpl _positions.
  assert (Hclosed : is_open (set_status reason pos) = false).
  { unfold is_open. simpl. apply String.eqb_neq. exact Hr. }
  assert (Hopen : is_open pos = true) by (apply is_open_status, Ho).
  assert (Hnone : filter
                    (fun p : Position =>
                       String.eqb (token_address p) token && is_open p = true)
                    before = []).
  { clear - Hb. induction before as [| q rest IH]; [reflexivity |].
    rewrite filter_cons_False.
    - apply IH. intros r Hr. apply Hb. apply elem_of_cons. by right.
    - intros Hq. apply (Hb q); [apply elem_of_cons; by left |].
      apply andb_true_iff in Hq. destruct Hq as [Ht Ho].
      split; [apply String.eqb_eq, Ht | apply is_open_status, Ho]. }
  split; [| split; [| split]].
  - rewrite Hps, filter_app, (filter_cons_True _ pos) by exact Hopen.
    reflexivity.
  - intros q Hq Htok. apply list_elem_of_filter in Hq. destruct Hq as [Hqo Hq].
    apply (Hb q Hq). split; [exact Htok | apply is_open_status, Hqo].
  - rewrite filter_app, filter_cons_False by (rewrite Hclosed; discriminate).
    reflexivity.
  - rewrite Hps, filter_app, Hnone in H. simpl in H.
    rewrite filter_cons_True in H
      by (destruct Ho as [Ht _]; rewrite Ht, String.eqb_refl, Hopen;
          reflexivity).
    inversion H as [Hothers].
    rewrite filter_app, Hnone. simpl.
    rewrite filter_cons_False; [reflexivity |].
    simpl. rewrite Hclosed, andb_false_r. discriminate.
Qed.

Lemma close_removes_first_open_position_holds :
  exists earlier later,
    fst (get_open_positions
           (snd (close_position "T" 3 1.5 "took_profit" 9
                   (snd (open_position "T" "TOK" 2 100 1 20 50 1 2
                           (snd (open_position "U" "UUU" 5 10 2 20 50 0 0
                                   (init None))))))))
    = earlier ++ later
    /\ length earlier = 1%nat /\ later = [].
Proof.
  destruct (close_removes_first_open_position "T" 3 1.5 "took_profit" 9
              (snd (open_position "T" "TOK" 2 100 1 20 50 1 2
                      (snd (open_position "U" "UUU" 5 10 2 20 50 0 0
                              (init None)))))
              (mkPosition "T" "TOK" 2 100 1 1
                 (Py.fmul 2 (Py.fsub 1 (Py.fdiv 20 100)))
                 (Py.fmul 2 (Py.fadd 1 (Py.fdiv 50 100))) "open") [])
    as (earlier & later & Hbefore & _ & Hafter & _).
  - reflexivity.
  - discriminate.
  - exists earlier, later. split; [exact Hafter |].
    vm_compute in Hbefore.
    destruct earlier as [| e1 [| e2 earlier]]; simpl in Hbefore;
      inversion Hbefore; subst.
    + split; reflexivity.
    + destruct earlier; discriminate.
Defined.

End Exposure.

(** ** The trade log and the counters *)
Section Counting.
Import Positions Session.

Lemma buys_logged_snoc log e :
  buys_logged (log ++ [e]) = (buys_logged log + if is_buy e then 1 else 0)%Z.
Proof.
  unfold buys_logged. rewrite List.filter_app, length_app. simpl.
  destruct (is_buy e); simpl; lia.
Qed.

Lemma sells_logged_snoc log e :
  sells_logged (log ++ [e]) = (sells_logged log + if is_buy e then 0 else 1)%Z.
Proof.
  unfold sells_logged. rewrite List.filter_app, length_app. simpl.
  destruct (is_buy e); simpl; lia.
Qed.

Lemma close_scan_length token reason ps hit ps' :
  close_scan token reason ps = Some (hit, ps') -> length ps' = length ps.
Proof.
  intros H. apply evolves_close_scan in H.
  symmetry. eapply Forall2_length; eauto.
Qed.

Lemma update_first_length token f ps :
  length (Tool.update_first_open token f ps) = length ps.
Proof.
  induction ps as [| p rest IH]; simpl; [reflexivity |].
  destruct (_ && _); simpl; congruence.
Qed.

Lemma step_log_matches pm op :
  terminal_reason op -> fresh_or_loaded pm ->
  log_matches_positions pm -> log_matches_positions (step pm op).
Proof.
  intros Hop Hf [Hb Hs]. pose proof (load_fresh pm Hf) as Hload.
  unfold log_matches_positions, closed_count in *.
  destruct op; simpl in *.
  - rewrite Hload. simpl.
    rewrite buys_logged_snoc, sells_logged_snoc, length_app,
      closed_count_open_appended by reflexivity.
    simpl. lia.
  - unfold close_position. rewrite Hload. simpl.
    destruct (close_scan token reason (_positions pm)) as [[hit ps'] |] eqn:E;
      simpl; [| auto].
    rewrite buys_logged_snoc, sells_logged_snoc,
      (closed_count_close_scan _ _ _ _ _ Hop E),
      (close_scan_length _ _ _ _ _ E).
    simpl. lia.
  - unfold Tool._set_limits.
    destruct (String.eqb _ _); [auto |].
    unfold get_positions_for_token. rewrite Hload. simpl.
    match goal with
    | |- context [match ?l with [] => _ | _ :: _ => _ end] => destruct l
    end; simpl; [auto |].
    rewrite closed_count_update_first, update_first_length. auto.
  - rewrite Hload. simpl. auto.
Qed.

(** As long as no close uses "open" as its reason, the trade log holds
    one buy entry per position and one sell entry per position that is no
    longer open, so the open positions number buys minus sells. *)
Theorem trade_log_matches_positions (ops : list Op) :
  Forall terminal_reason ops ->
  let pm := run ops (init None) in
  Z.of_nat (length (_positions pm)) = buys_logged (_trade_log pm)
  /\ closed_count pm = sells_logged (_trade_log pm)
  /\ Z.of_nat (length (fst (get_open_positions pm)))
     = (buys_logged (_trade_log pm) - sells_logged (_trade_log pm))%Z.
Proof.
  intros Hops pm.
  assert (H : fresh_or_loaded pm /\ log_matches_positions pm).
  { subst pm. unfold run.
    assert (G : fresh_or_loaded (init None) /\ log_matches_positions (init None))
      by (split; [intros _; reflexivity | split; reflexivity]).
    revert G. generalize (init None).
    induction Hops as [| op ops Hop Hrest IH]; simpl; intros pm [Hf Hm];
      [split; assumption |].
    apply IH. split; [apply step_fresh, Hf | apply step_log_matches; auto]. }
  destruct H as [Hf [Hb Hs]]. split; [exact Hb |]. split; [exact Hs |].
  unfold get_open_positions. simpl. rewrite (load_fresh pm Hf). simpl.
  rewrite <- Hb, <- Hs. unfold closed_count.
  pose proof (filter_app_complement (fun p => is_open p = true) (_positions pm))
    as Hperm.
  apply Permutation_length in Hperm. rewrite length_app in Hperm.
  assert (Hsame :
    length (filter (fun p => ~ is_open p = true) (_positions pm))
    = length (filter (fun p => is_open p = false) (_positions pm))).
  { f_equal. apply list_filter_iff. intros p.
    destruct (is_open p); split; congruence. }
  lia.
Qed.

Lemma trade_log_matches_positions_holds :
  let pm := run [OpOpen "T" "TOK" 1 1000 0.5 10 50 100 100;
                 OpOpen "U" "UUU" 2 10 0.3 10 50 110 110;
                 OpClose "T" 0.85 0.425 "stopped_out" 200] (init None) in
  length (_positions pm) = 2%nat
  /\ buys_logged (_trade_log pm) = 2%Z
  /\ sells_logged (_trade_log pm) = 1%Z
  /\ length (fst (get_open_positions pm)) = 1%nat.
Proof.
  intros pm.
  destruct (trade_log_matches_positions
              [OpOpen "T" "TOK" 1 1000 0.5 10 50 100 100;
               OpOpen "U" "UUU" 2 10 0.3 10 50 110 110;
               OpClose "T" 0.85 0.425 "stopped_out" 200])
    as (H1 & H2 & H3).
  - repeat constructor. discriminate.
  - repeat split.
Defined.

End Counting.

Section WinRate.
Import Positions Session.

Lemma step_counters pm op :
  fresh_or_loaded pm -> counters_non_negative pm ->
  counters_non_negative (step pm op).
Proof.
  intros Hf [Hw Hl]. pose proof (load_fresh pm Hf) as Hload.
  unfold counters_non_negative in *.
  destruct op; simpl.
  - rewrite Hload. simpl. auto.
  - unfold close_position. rewrite Hload. simpl.
    destruct (close_scan _ _ _) as [[hit ps'] |]; simpl; [| auto].
    destruct (Py.leb 0 _); simpl; lia.
  - unfold Tool._set_limits.
    destruct (String.eqb _ _); [auto |].
    unfold get_positions_for_token. rewrite Hload. simpl.
    destruct (filter _ _); simpl; auto.
  - rewrite Hload. simpl. auto.
Qed.

Lemma win_rate_in_range pm :
  counters_non_negative (_load pm) ->
  0 <= win_rate_pct (fst (get_stats pm))
  /\ win_rate_pct (fst (get_stats pm)) <= 100.
Proof.
  intros [Hw Hl]. unfold get_stats. cbn [fst win_rate_pct].
  set (w := wins (_stats (_load pm))) in *.
  set (l := losses (_stats (_load pm))) in *.
  destruct (Z.ltb_spec 0 (w + l)).
  - assert (Ht : 0 < inject_Z (w + l))
      by (change 0 with (inject_Z 0); rewrite <- Zlt_Qlt; lia).
    assert (Hw' : 0 <= inject_Z w)
      by (change 0 with (inject_Z 0); rewrite <- Zle_Qle; lia).
    assert (Hwt : inject_Z w <= inject_Z (w + l))
      by (rewrite <- Zle_Qle; lia).
    assert (Hi : 0 < / inject_Z (w + l)) by (apply Qinv_lt_0_compat; exact Ht).
    assert (Hone : inject_Z (w + l) * / inject_Z (w + l) == 1)
      by (apply Qmult_inv_r; lra).
    assert (Hq0 : 0 <= inject_Z w / inject_Z (w + l)).
    { unfold Qdiv. set (t := inject_Z (w + l)) in *. set (it := / t) in *.
      set (qw := inject_Z w) in *. nra. }
    assert (Hq1 : inject_Z w / inject_Z (w + l) <= 1).
    { unfold Qdiv. set (t := inject_Z (w + l)) in *. set (it := / t) in *.
      set (qw := inject_Z w) in *. nra. }
    assert (Hf100 : Py.is_float 100) by (unfold Py.is_float; vm_compute; reflexivity).
    pose proof (fl_ge_float _ 0 is_float_0 Hq0) as Hd0.
    pose proof (fl_le_float _ 1 is_float_1 Hq1) as Hd1.
    fold (Py.fdiv (inject_Z w) (inject_Z (w + l))) in Hd0, Hd1.
    set (d := Py.fdiv (inject_Z w) (inject_Z (w + l))) in *.
    assert (Hm0 : 0 <= Py.fmul d 100)
      by (unfold Py.fmul; apply fl_ge_float; [apply is_float_0 | lra]).
    assert (Hm1 : Py.fmul d 100 <= 100)
      by (unfold Py.fmul; apply fl_le_float; [exact Hf100 | lra]).
    unfold Py.float_round. split.
    + apply fl_ge_float; [apply is_float_0 |].
      apply (round_lower_grid 0 0); [reflexivity | exact Hm0].
    + apply fl_le_float; [exact Hf100 |].
      apply (round_upper_grid 100 1000); [reflexivity | exact Hm1].
  - split; vm_compute; discriminate.
Qed.

(** The counters of wins and losses are never negative, the reported
    number of trades is their sum, and the reported win rate lies between
    0 and 100. *)
Theorem win_rate_is_a_percentage (ops : list Op) :
  let report := fst (get_stats (run ops (init None))) in
  (0 <= rep_wins report)%Z /\ (0 <= rep_losses report)%Z
  /\ total_trades report = (rep_wins report + rep_losses report)%Z
  /\ 0 <= win_rate_pct report /\ win_rate_pct report <= 100.
Proof.
  intros report.
  assert (H : fresh_or_loaded (run ops (init None))
              /\ counters_non_negative (run ops (init None))).
  { unfold run.
    assert (G : fresh_or_loaded (init None) /\ counters_non_negative (init None))
      by (split; [intros _; reflexivity | split; reflexivity]).
    revert G. generalize (init None).
    induction ops as [| op ops IH]; simpl; intros pm [Hf Hc];
      [split; assumption |].
    apply IH. split; [apply step_fresh, Hf | apply step_counters; auto]. }
  destruct H as [Hf Hc].
  assert (Hc' : counters_non_negative (_load (run ops (init None))))
    by (rewrite (load_fresh _ Hf); exact Hc).
  destruct (win_rate_in_range _ Hc') as [Hlo Hhi].
  destruct Hc' as [Hw Hl].
  subst report. repeat split; try assumption.
Qed.

End WinRate.

(** ** Caps of the suggested size; the trade history *)
Section SizingCaps.
Import Positions Session.

(** With five or more trades recorded, the suggested size never exceeds
    twice the base size nor a tenth of the balance by more than the
    rounding step, except where the 0.01 floor lifts it. *)
Theorem suggest_trade_size_caps (base_sol sol_balance : Q)
    (pm : PositionManager) :
  (5 <= total_trades (fst (get_stats pm)))%Z ->
  let size := fst (suggest_trade_size base_sol sol_balance pm) in
  size <= Qmax (Qmin (base_sol * 2) (sol_balance * 0.1)) 0.01 + 0.00005
  /\ (0.01 <= base_sol * 2 -> size <= base_sol * 2 + 0.00005)
  /\ (0.01 <= sol_balance * 0.1 -> size <= sol_balance * 0.1 + 0.00005).
Proof.
  intros Htot. cbv zeta. rewrite suggest_unfold. cbv zeta.
  destruct (Z.ltb_spec (total_trades (fst (get_stats pm))) 5); [lia |].
  set (m := multiplier_of _).
  set (y := Py.max2 _ _).
  assert (Hy : y <= Qmax (Qmin (base_sol * 2) (sol_balance * 0.1)) 0.01).
  { subst y. unfold Py.min3.
    rewrite max2_Qmax, (min2_Qmin (Py.min2 _ _)), min2_Qmin.
    apply Q.max_le_compat_r.
    apply Q.min_glb.
    - eapply Qle_trans; [apply Q.le_min_l | apply Q.le_min_r].
    - apply Q.le_min_r. }
  pose proof (round_near y 4) as Hr. apply Qabs_Qle_condition in Hr.
  assert (Hh : (1 # 2) / Py.pow10 4 == 0.00005) by reflexivity.
  rewrite Hh in Hr.
  assert (Hmain : Py.round y 4
                  <= Qmax (Qmin (base_sol * 2) (sol_balance * 0.1)) 0.01
                     + 0.00005) by lra.
  split; [exact Hmain |]. split; intros Hfloor.
  - eapply Qle_trans; [exact Hmain |].
    assert (Qmax (Qmin (base_sol * 2) (sol_balance * 0.1)) 0.01
            <= base_sol * 2).
    { apply Q.max_lub; [apply Q.le_min_l | exact Hfloor]. }
    lra.
  - eapply Qle_trans; [exact Hmain |].
    assert (Qmax (Qmin (base_sol * 2) (sol_balance * 0.1)) 0.01
            <= sol_balance * 0.1).
    { apply Q.max_lub; [apply Q.le_min_r | exact Hfloor]. }
    lra.
Qed.

Lemma suggest_trade_size_caps_holds :
  let size := fst (suggest_trade_size 1 100 Examples.veteran) in
  size <= 1 * 2 + 0.00005 /\ size <= 100 * 0.1 + 0.00005.
Proof.
  intros size.
  destruct (suggest_trade_size_caps 1 100 Examples.veteran) as (_ & H1 & H2).
  - vm_compute. discriminate.
  - split; [apply H1 | apply H2]; vm_compute; discriminate.
Defined.

Lemma slice_last_suffix {A} (limit : Z) (l : list A) :
  exists older, l = older ++ Py.slice_last limit l.
Proof.
  unfold Py.slice_last. destruct (0 <? limit)%Z.
  - exists (take (length l - Z.to_nat limit) l). symmetry. apply take_drop.
  - exists (take (Z.to_nat (- limit)) l). symmetry. apply take_drop.
Qed.

Lemma slice_last_length {A} (limit : Z) (l : list A) :
  (0 < limit)%Z ->
  length (Py.slice_last limit l) = Nat.min (Z.to_nat limit) (length l).
Proof.
  intros H. unfold Py.slice_last.
  destruct (Z.ltb_spec 0 limit); [| lia]. rewrite length_drop. lia.
Qed.

Lemma slice_last_zero {A} (l : list A) : Py.slice_last 0 l = l.
Proof. reflexivity. Qed.

(** [get_trade_history(limit)] returns a suffix of the trade log: its
    last [limit] entries for a positive limit, the whole log for 0, and
    the log without its first [-limit] entries for a negative limit. *)
Theorem trade_history_is_the_newest_part (limit : Z) (pm : PositionManager) :
  let history := fst (get_trade_history limit pm) in
  let log := _trade_log (_load pm) in
  (exists older, log = older ++ history)
  /\ ((0 < limit)%Z ->
      length history = Nat.min (Z.to_nat limit) (length log))
  /\ (limit = 0%Z -> history = log)
  /\ ((limit < 0)%Z ->
      length history = (length log - Z.to_nat (- limit))%nat).
Proof.
  cbv zeta. unfold get_trade_history. cbn [fst].
  repeat apply conj.
  - apply slice_last_suffix.
  - apply slice_last_length.
  - intros ->. reflexivity.
  - intros H. unfold Py.slice_last.
    destruct (Z.ltb_spec 0 limit); [lia |]. apply length_drop.
Qed.

End SizingCaps.

(** ** What the gate guarantees *)
Section GateMore.
Import Positions Safety.

Lemma gate_reasons_itemized (py_str : Q -> string) (token : TokenInfo)
    (risk : SolanaRiskLimits) (pm : Positions.PositionManager)
    (service : HolderOutcome) (amount_sol now_check now_report : Q) :
  let result :=
    fst (check_token_safety py_str token risk pm service amount_sol
           now_check now_report) in
  let invested := fst (Positions.get_total_sol_invested pm) in
  let last_trade := fst (Positions.get_last_trade_time (address token) pm) in
  let dups := fst (Positions.get_positions_for_token (address token) pm) in
  reasons result =
    (if Py.ltb (liquidity_usd token) (min_liquidity_usd risk)
     then [liquidity_reason token risk] else [])
    ++ (if Py.ltb (volume_24h token) (min_volume_24h_usd risk)
        then [volume_reason token risk] else [])
    ++ (if Py.ltb (max_position_sol risk) amount_sol
        then [position_reason py_str amount_sol risk] else [])
    ++ (if Py.ltb (max_portfolio_sol risk) (invested + amount_sol)
        then [portfolio_reason py_str (invested + amount_sol) risk] else [])
    ++ match last_trade with
       | Some last =>
           if Py.truthy last
              && Py.ltb (now_check - last) (cooldown_seconds risk)
           then [cooldown_reason
                   (Py.int (cooldown_seconds risk - (now_report - last)))
                   token]
           else []
       | None => []
       end
    ++ match dups with
       | [] => []
       | _ :: _ => [duplicate_reason token]
       end
    ++ match service with
       | HoldersReturn holder_count top_holder_pct =>
           (if (holder_count <? min_holder_count risk)%Z
            then [holders_reason holder_count risk] else [])
           ++ (if Py.ltb (max_top_holder_pct risk) top_holder_pct
               then [top_holder_reason py_str top_holder_pct risk] else [])
       | HoldersRaise e => [holder_failure_reason e]
       end.
Proof.
  cbv zeta.
  unfold check_token_safety, Positions.get_total_sol_invested,
    Positions.get_last_trade_time, Positions.get_positions_for_token,
    Positions.get_open_positions.
  cbn [fst snd reasons]. rewrite !load_idempotent.
  repeat match goal with
    | |- context [if ?c then _ else _] => destruct c
    | |- context [match ?c with Some _ => _ | None => _ end] => destruct c
    | |- context [match ?c with [] => _ | _ :: _ => _ end] => destruct c
    | |- context [match ?c with
                  | HoldersReturn _ _ => _
                  | HoldersRaise _ => _
                  end] => destruct c
    end; reflexivity.
Qed.

Lemma gate_safe_iff (py_str : Q -> string) (token : TokenInfo)
    (risk : SolanaRiskLimits) (pm : Positions.PositionManager)
    (service : HolderOutcome) (amount_sol now_check now_report : Q) :
  let result :=
    fst (check_token_safety py_str token risk pm service amount_sol
           now_check now_report) in
  safe result = true <-> reasons result = [].
Proof.
  cbv zeta.
  unfold check_token_safety, Positions.get_total_sol_invested,
    Positions.get_last_trade_time, Positions.get_positions_for_token,
    Positions.get_open_positions.
  cbn [fst snd reasons safe].
  match goal with |- Nat.eqb (length ?l) 0 = true <-> _ => generalize l end.
  intros [| x l]; simpl; split; congruence.
Qed.


(** A trade that the gate accepts respects every limit: liquidity and
    volume reach the minimums, the amount and the resulting exposure stay
    within the maximums, the token has no open position, any last trade
    of it is older than the cooldown (or stamped 0), and the holder
    lookup returned enough holders with a top holder that is not too
    large. *)
Theorem accepted_trade_respects_every_limit (py_str : Q -> string)
    (token : TokenInfo) (risk : SolanaRiskLimits) (pm : PositionManager)
    (service : HolderOutcome) (amount_sol now_check now_report : Q) :
  safe (fst (check_token_safety py_str token risk pm service amount_sol
               now_check now_report)) = true ->
  min_liquidity_usd risk <= liquidity_usd token
  /\ min_volume_24h_usd risk <= volume_24h token
  /\ amount_sol <= max_position_sol risk
  /\ fst (get_total_sol_invested pm) + amount_sol <= max_portfolio_sol risk
  /\ fst (get_positions_for_token (address token) pm) = []
  /\ (forall last,
        fst (get_last_trade_time (address token) pm) = Some last ->
        last == 0 \/ cooldown_seconds risk <= now_check - last)
  /\ exists holder_count top_holder_pct,
       service = HoldersReturn holder_count top_holder_pct
       /\ (min_holder_count risk <= holder_count)%Z
       /\ top_holder_pct <= max_top_holder_pct risk.
Proof.
  intros Hsafe.
  pose proof (gate_reasons_itemized py_str token risk pm service amount_sol
                now_check now_report) as Hitems.
  pose proof (gate_safe_iff py_str token risk pm service amount_sol
                now_check now_report) as Hiff.
  cbv zeta in Hitems, Hiff. apply Hiff in Hsafe. rewrite Hsafe in Hitems.
  symmetry in Hitems.
  repeat match type of Hitems with
    | _ ++ _ = [] => apply app_eq_nil in Hitems;
                     let H := fresh "Hc" in destruct Hitems as [H Hitems]
    end.
  repeat apply conj.
  - destruct (Py.ltb _ _) eqn:E in Hc; [discriminate |].
    apply ltb_ge in E. exact E.
  - destruct (Py.ltb _ _) eqn:E in Hc0; [discriminate |].
    apply ltb_ge in E. exact E.
  - destruct (Py.ltb _ _) eqn:E in Hc1; [discriminate |].
    apply ltb_ge in E. exact E.
  - destruct (Py.ltb _ _) eqn:E in Hc2; [discriminate |].
    apply ltb_ge in E. exact E.
  - destruct (fst (get_positions_for_token _ _)); [reflexivity | discriminate].
  - intros last Hlast. rewrite Hlast in Hc3.
    destruct (Py.truthy last) eqn:Et; simpl in Hc3.
    + destruct (Py.ltb _ _) eqn:E in Hc3; [discriminate |].
      apply ltb_ge in E. right. exact E.
    + left. unfold Py.truthy in Et. apply negb_false_iff in Et.
      apply Qeq_bool_iff in Et. exact Et.
  - destruct service as [count pct | e]; [| discriminate].
    apply app_eq_nil in Hitems. destruct Hitems as [H1 H2].
    exists count, pct. split; [reflexivity |]. split.
    + destruct (Z.ltb_spec count (min_holder_count risk));
        [discriminate | assumption].
    + destruct (Py.ltb _ _) eqn:E in H2; [discriminate |].
      apply ltb_ge in E. exact E.
Qed.

Lemma accepted_trade_respects_every_limit_holds :
  min_liquidity_usd Examples.limits <= liquidity_usd Examples.strong_token
  /\ 0 + 0.5 <= max_portfolio_sol Examples.limits.
Proof.
  destruct (accepted_trade_respects_every_limit (fun _ => ""%string)
              Examples.strong_token Examples.limits (init None)
              (HoldersReturn 100 10) 0.5 1000 1000)
    as (H1 & _ & _ & H4 & _).
  - vm_compute. reflexivity.
  - split; [exact H1 | exact H4].
Defined.

Lemma open_position_for_token tok sym entry tokens sol_in sl tp t1 t2 pm :
  let opened := open_position tok sym entry tokens sol_in sl tp t1 t2 pm in
  fst opened ∈ fst (get_positions_for_token tok (snd opened))
  /\ fst (get_last_trade_time tok (snd opened)) = Some t2.
Proof.
  cbv zeta. unfold get_positions_for_token, get_last_trade_time.
  rewrite open_position_loaded. cbn [fst snd]. split.
  - apply list_elem_of_filter. split.
    + simpl. rewrite String.eqb_refl. reflexivity.
    + simpl. apply elem_of_app. right. apply list_elem_of_singleton.
      reflexivity.
  - simpl. rewrite rev_app_distr. simpl. rewrite String.eqb_refl.
    reflexivity.
Qed.

(** Right after a position is opened for a token, the gate rejects a
    further trade of that token with the duplicate reason, and with the
    cooldown reason too while the cooldown runs. *)
Theorem no_second_buy_while_position_open (py_str : Q -> string)
    (token : TokenInfo) (risk : SolanaRiskLimits) (pm : PositionManager)
    (service : HolderOutcome) (amount_sol now_check now_report : Q)
    (sym : string) (entry tokens sol_in sl tp t1 t2 : Q) :
  let pm' :=
    snd (open_position (address token) sym entry tokens sol_in sl tp t1 t2
           pm) in
  let result :=
    fst (check_token_safety py_str token risk pm' service amount_sol
           now_check now_report) in
  safe result = false
  /\ duplicate_reason token ∈ reasons result
  /\ (~ t2 == 0 -> now_check - t2 < cooldown_seconds risk ->
      cooldown_reason (Py.int (cooldown_seconds risk - (now_report - t2)))
        token ∈ reasons result).
Proof.
  intros pm' result.
  pose proof (gate_reasons_itemized py_str token risk pm' service amount_sol
                now_check now_report) as Hitems.
  pose proof (gate_safe_iff py_str token risk pm' service amount_sol
                now_check now_report) as Hiff.
  cbv zeta in Hitems, Hiff. fold result in Hitems, Hiff.
  destruct (open_position_for_token (address token) sym entry tokens sol_in
              sl tp t1 t2 pm) as [Hin Hlast].
  cbv zeta in Hin, Hlast. fold pm' in Hin, Hlast.
  rewrite Hlast in Hitems.
  assert (Hdup : duplicate_reason token ∈ reasons result).
  { rewrite Hitems. rewrite !elem_of_app. do 5 right. left.
    destruct (fst (get_positions_for_token (address token) pm'));
      [apply elem_of_nil in Hin; destruct Hin |].
    apply list_elem_of_singleton. reflexivity. }
  repeat apply conj.
  - apply not_true_is_false. intros E.
    apply Hiff in E. rewrite E in Hdup. apply elem_of_nil in Hdup.
    destruct Hdup.
  - exact Hdup.
  - intros Hnz Hcool. rewrite Hitems. rewrite !elem_of_app.
    do 4 right. left.
    assert (Ht : Py.truthy t2 = true).
    { unfold Py.truthy. apply negb_true_iff.
      destruct (Qeq_bool t2 0) eqn:E; [| reflexivity].
      apply Qeq_bool_iff in E. contradiction. }
    apply ltb_lt in Hcool. rewrite Ht, Hcool. simpl.
    apply list_elem_of_singleton. reflexivity.
Qed.

(** The trend score is a multiple of 5 between 10 and 100: the penalties
    cannot bring it under 10, so the lower clamp at 0 never acts. *)
Theorem trend_score_never_below_ten (token : TokenInfo) :
  (10 <= _compute_trend_score token <= 100)%Z
  /\ (_compute_trend_score token mod 5 = 0)%Z.
Proof.
  unfold _compute_trend_score. cbv zeta.
  destruct (0 <? _)%Z;
    repeat match goal with
      | |- context [if ?c then _ else _] => destruct c
      end; vm_compute; repeat split; intros H; discriminate H.
Qed.

End GateMore.

Section ServiceFacts.
Import Safety Service.

Lemma max_within_sum rest a s :
  (0 <= a <= s)%Z -> Forall (fun x => (0 <= x)%Z) rest ->
  (0 <= fold_left Z.max rest a <= fold_left Z.add rest s)%Z.
Proof.
  intros Ha Hall. revert a s Ha.
  induction Hall as [| x rest Hx Hrest IH]; simpl; intros a s Ha; [exact Ha |].
  apply IH. lia.
Qed.

(** For non-negative account amounts, [get_token_holders] reports the
    number of accounts and a top-holder percentage between 0 and 100;
    with no accounts at all it reports 0 holders and 100 percent. *)
Theorem holders_from_largest_accounts (accounts : list Z) :
  Forall (fun amount => (0 <= amount)%Z) accounts ->
  exists top_holder_pct,
    get_token_holders (RpcAccounts accounts)
    = HoldersReturn (Z.of_nat (length accounts)) top_holder_pct
    /\ 0 <= top_holder_pct /\ top_holder_pct <= 100
    /\ (accounts = [] -> top_holder_pct = 100).
Proof.
  intros Hall. destruct accounts as [| first rest].
  - exists 100. repeat split; vm_compute; discriminate.
  - inversion Hall as [| ? ? Hfirst Hrest]; subst.
    eexists. split; [reflexivity |].
    assert (Hm : (0 <= max_of first rest
                  <= fold_left Z.add (first :: rest) 0)%Z).
    { unfold max_of. simpl. apply max_within_sum; [lia | exact Hrest]. }
    set (mx := max_of first rest) in *.
    set (sum := fold_left Z.add (first :: rest) 0%Z) in *.
    set (total := if (sum =? 0)%Z then 1%Z else sum).
    assert (Ht : (0 < total)%Z /\ (mx <= total)%Z).
    { subst total. destruct (Z.eqb_spec sum 0); lia. }
    destruct Ht as [Htpos Hle].
    assert (Hq : 0 < inject_Z total)
      by (change 0 with (inject_Z 0); rewrite <- Zlt_Qlt; lia).
    assert (Hmq : 0 <= inject_Z mx)
      by (change 0 with (inject_Z 0); rewrite <- Zle_Qle; lia).
    assert (Hmt : inject_Z mx <= inject_Z total) by (rewrite <- Zle_Qle; lia).
    assert (Hi : 0 < / inject_Z total) by (apply Qinv_lt_0_compat; exact Hq).
    assert (Hone : inject_Z total * / inject_Z total == 1)
      by (apply Qmult_inv_r; lra).
    repeat split; [| | discriminate].
    + apply (round_lower_grid 0 0); [reflexivity |].
      unfold Qdiv. set (t := inject_Z total) in *. set (it := / t) in *.
      set (qm := inject_Z mx) in *. nra.
    + apply (round_upper_grid 100 10000); [reflexivity |].
      unfold Qdiv. set (t := inject_Z total) in *. set (it := / t) in *.
      set (qm := inject_Z mx) in *. nra.
Qed.

Lemma holders_from_largest_accounts_holds :
  exists top_holder_pct,
    get_token_holders (RpcAccounts [600; 300; 100]%Z)
    = HoldersReturn 3 top_holder_pct
    /\ 0 <= top_holder_pct /\ top_holder_pct <= 100.
Proof.
  destruct (holders_from_largest_accounts [600; 300; 100]%Z)
    as (pct & H1 & H2 & H3 & _).
  - repeat constructor; discriminate.
  - exists pct. repeat split; assumption.
Defined.

Lemma collect_tokens_step seen token rest :
  collect_tokens seen (token :: rest)
  = if decide (address token = ""%string \/ address token ∈ seen)
    then collect_tokens seen rest
    else token :: collect_tokens ({[address token]} ∪ seen) rest.
Proof.
  simpl. destruct (String.eqb_spec (address token) "") as [He | Hne]; simpl.
  - destruct (decide _) as [_ | Hn]; [reflexivity |]. exfalso. auto.
  - destruct (bool_decide_reflect (address token ∈ seen)) as [Hs | Hns].
    + destruct (decide _) as [_ | Hn]; [reflexivity |]. exfalso. auto.
    + destruct (decide _) as [[H | H] | _]; [contradiction .. | reflexivity].
Qed.

Lemma collect_tokens_elem seen pairs t :
  t ∈ collect_tokens seen pairs ->
  address t <> ""%string /\ address t ∉ seen /\ t ∈ pairs.
Proof.
  revert seen. induction pairs as [| p rest IH]; intros seen Ht.
  - apply elem_of_nil in Ht. destruct Ht.
  - rewrite collect_tokens_step in Ht.
    destruct (decide _) as [_ | Hn].
    + destruct (IH seen Ht) as (H1 & H2 & H3).
      repeat apply conj; [exact H1 | exact H2 |].
      apply elem_of_cons. right. exact H3.
    + apply elem_of_cons in Ht. destruct Ht as [-> | Ht].
      * repeat apply conj; [tauto | tauto |]. apply elem_of_cons. by left.
      * destruct (IH _ Ht) as (H1 & H2 & H3).
        repeat apply conj; [exact H1 | set_solver |].
        apply elem_of_cons. right. exact H3.
Qed.

Lemma collect_tokens_distinct seen pairs :
  NoDup (map address (collect_tokens seen pairs)).
Proof.
  revert seen. induction pairs as [| p rest IH]; intros seen.
  - apply NoDup_nil. constructor.
  - rewrite collect_tokens_step. destruct (decide _) as [_ | Hn]; [apply IH |].
    simpl. apply NoDup_cons. split; [| apply IH].
    intros Hdup. apply list_elem_of_fmap in Hdup.
    destruct Hdup as (t & Heq & Ht).
    destruct (collect_tokens_elem _ _ _ Ht) as (_ & Hnot & _).
    apply Hnot. rewrite <- Heq. set_solver.
Qed.

Lemma collect_tokens_covers seen pairs t :
  t ∈ pairs -> address t <> ""%string ->
  address t ∈ seen \/ address t ∈ map address (collect_tokens seen pairs).
Proof.
  revert seen. induction pairs as [| p rest IH]; intros seen Ht Hnz.
  - apply elem_of_nil in Ht. destruct Ht.
  - rewrite collect_tokens_step. apply elem_of_cons in Ht.
    destruct (decide _) as [[He | Hs] | Hn].
    + destruct Ht as [-> | Ht]; [contradiction | apply IH; assumption].
    + destruct Ht as [-> | Ht]; [by left | apply IH; assumption].
    + destruct Ht as [-> | Ht].
      * right. simpl. apply elem_of_cons. by left.
      * destruct (IH ({[address p]} ∪ seen) Ht Hnz) as [Hu | Hr].
        -- apply elem_of_union in Hu. destruct Hu as [Hu | Hu].
           ++ apply elem_of_singleton in Hu. right. simpl.
              apply elem_of_cons. by left.
           ++ by left.
        -- right. simpl. apply elem_of_cons. by right.
Qed.

Lemma price_map_snoc tokens t :
  price_map (tokens ++ [t]) = <[address t := price_usd t]> (price_map tokens).
Proof. unfold price_map. rewrite fold_left_app. reflexivity. Qed.

Lemma price_map_lookup tokens t :
  NoDup (map address tokens) -> t ∈ tokens ->
  price_map tokens !! address t = Some (price_usd t).
Proof.
  induction tokens as [| x tokens IH] using rev_ind; intros Hnd Hin.
  - apply elem_of_nil in Hin. destruct Hin.
  - rewrite price_map_snoc. rewrite map_app in Hnd.
    apply NoDup_app in Hnd. destruct Hnd as (Hnd & Hdisj & _).
    apply elem_of_app in Hin. destruct Hin as [Hin | Hin].
    + destruct (decide (address x = address t)) as [Heq | Hneq].
      * exfalso. apply (Hdisj (address t)).
        -- apply list_elem_of_fmap. exists t. auto.
        -- simpl. rewrite Heq. by left.
      * rewrite lookup_insert_ne by exact Hneq. apply IH; assumption.
    + apply list_elem_of_singleton in Hin. subst x.
      apply lookup_insert_eq.
Qed.

Lemma collect_tokens_first seen pairs t :
  t ∈ collect_tokens seen pairs ->
  exists before after,
    pairs = before ++ t :: after
    /\ forall u, u ∈ before -> address u <> address t.
Proof.
  revert seen. induction pairs as [| p rest IH]; intros seen Ht.
  - apply elem_of_nil in Ht. destruct Ht.
  - pose proof (collect_tokens_elem _ _ _ Ht) as (Hnz & Hnot & _).
    rewrite collect_tokens_step in Ht.
    destruct (decide _) as [Hskip | Hkeep].
    + destruct (IH seen Ht) as (before & after & -> & Hb).
      exists (p :: before), after. split; [reflexivity |].
      intros u Hu. apply elem_of_cons in Hu. destruct Hu as [-> | Hu].
      * intros Heq. rewrite Heq in Hskip. tauto.
      * apply Hb, Hu.
    + apply elem_of_cons in Ht. destruct Ht as [-> | Ht].
      * exists [], rest. split; [reflexivity |].
        intros u Hu. apply elem_of_nil in Hu. destruct Hu.
      * pose proof (collect_tokens_elem _ _ _ Ht) as (_ & Hnew & _).
        destruct (IH _ Ht) as (before & after & -> & Hb).
        exists (p :: before), after. split; [reflexivity |].
        intros u Hu. apply elem_of_cons in Hu. destruct Hu as [-> | Hu].
        -- intros Heq. apply Hnew. rewrite <- Heq. set_solver.
        -- apply Hb, Hu.
Qed.

(** [get_token_info] keeps one token per non-empty address, taken from
    the first pair that carries the address; every such address of the
    response is represented, and the price map built from the result
    gives each token its own price. *)
Theorem token_info_keeps_first_pair_per_address (pairs : list TokenInfo) :
  let tokens := collect_tokens ∅ pairs in
  NoDup (map address tokens)
  /\ (forall t, t ∈ tokens ->
        address t <> ""%string
        /\ exists before after,
             pairs = before ++ t :: after
             /\ forall u, u ∈ before -> address u <> address t)
  /\ (forall t, t ∈ pairs -> address t <> ""%string ->
        address t ∈ map address tokens)
  /\ (forall t, t ∈ tokens ->
        price_map tokens !! address t = Some (price_usd t)).
Proof.
  intros tokens. subst tokens. repeat apply conj.
  - apply collect_tokens_distinct.
  - intros t Ht. destruct (collect_tokens_elem _ _ _ Ht) as (H1 & _ & _).
    split; [exact H1 |]. apply (collect_tokens_first ∅), Ht.
  - intros t Ht Hnz.
    destruct (collect_tokens_covers ∅ pairs t Ht Hnz) as [Hs | Hr];
      [| exact Hr].
    apply not_elem_of_empty in Hs. destruct Hs.
  - intros t Ht.
    apply price_map_lookup; [apply collect_tokens_distinct | exact Ht].
Qed.

End ServiceFacts.

Section MemoryMore.
Import Memory Session.

Lemma load_persisted m : mem_persisted m -> mem_persisted (_load m).
Proof.
  unfold mem_persisted, _load. destruct (_loaded m) eqn:E.
  - rewrite E. auto.
  - intros Hd. destruct (store m) as [d |] eqn:Es; simpl; rewrite ?Es; auto.
Qed.

Lemma save_persisted x : _loaded x = true -> mem_persisted (_save x).
Proof. intros Hl. unfold mem_persisted, _save. simpl. rewrite Hl. reflexivity. Qed.

Lemma init_persisted file : mem_persisted (Memory.init file).
Proof. reflexivity. Qed.

Lemma add_lesson_persisted l s t m : mem_persisted (add_lesson l s t m).
Proof. apply save_persisted. simpl. apply mem_load_loaded. Qed.

Lemma add_user_note_persisted n t m : mem_persisted (add_user_note n t m).
Proof. apply save_persisted. simpl. apply mem_load_loaded. Qed.

Lemma add_avoid_persisted a r t m :
  mem_persisted m -> mem_persisted (add_avoid a r t m).
Proof.
  intros Hp. unfold add_avoid. destruct (decide _).
  - apply load_persisted, Hp.
  - apply save_persisted. simpl. apply mem_load_loaded.
Qed.

Lemma add_pattern_persisted p m :
  mem_persisted m -> mem_persisted (add_pattern p m).
Proof.
  intros Hp. unfold add_pattern. destruct (decide _).
  - apply load_persisted, Hp.
  - apply save_persisted. simpl. apply mem_load_loaded.
Qed.

Lemma auto_learn_persisted pct sc br liq sym a r t1 t2 m :
  mem_persisted m -> mem_persisted (_auto_learn pct sc br liq sym a r t1 t2 m).
Proof.
  intros Hp. unfold _auto_learn.
  destruct (Py.leb pct (-30)).
  - apply add_avoid_persisted, add_lesson_persisted.
  - destruct (Py.leb 50 pct); [| exact Hp].
    apply add_pattern_persisted, add_lesson_persisted.
Qed.

Lemma add_trade_review_persisted a s side pnl pct sc br liq hold r t1 t2 t3 m :
  mem_persisted (add_trade_review a s side pnl pct sc br liq hold r t1 t2 t3 m).
Proof.
  unfold add_trade_review. apply auto_learn_persisted.
  apply save_persisted. simpl. apply mem_load_loaded.
Qed.

Lemma mem_step_persisted m op : mem_persisted m -> mem_persisted (mem_step m op).
Proof.
  intros Hp. destruct op; simpl.
  - apply add_lesson_persisted.
  - apply add_avoid_persisted, Hp.
  - apply add_pattern_persisted, Hp.
  - apply add_user_note_persisted.
  - apply add_trade_review_persisted.
  - apply load_persisted, Hp.
  - apply init_persisted.
Qed.

Lemma mem_run_persisted ops m : mem_persisted m -> mem_persisted (mem_run ops m).
Proof.
  unfold mem_run. revert m.
  induction ops as [| op ops IH]; simpl; intros m Hp; [exact Hp |].
  apply IH, mem_step_persisted, Hp.
Qed.

Lemma restart_same_view m :
  mem_persisted m -> _data (_load (Memory.init (store m))) = _data (_load m).
Proof.
  unfold mem_persisted, _load, Memory.init. simpl.
  destruct (_loaded m); destruct (store m) as [d |]; simpl; intros Hp;
    try reflexivity; try (symmetry; exact Hp); exact Hp.
Qed.

(** After any sequence of memory calls, a new [StrategyMemory] on the same
    store sees the same data, and so answers [should_avoid],
    [get_lessons], [get_user_notes] and [get_patterns] alike. *)
Theorem memory_restart_reads_back_what_was_saved
    (file : option MemoryData) (ops : list MemOp) (addr : string)
    (limit : Z) :
  let m := mem_run ops (Memory.init file) in
  let restarted := Memory.init (store m) in
  _data (_load restarted) = _data (_load m)
  /\ fst (should_avoid addr restarted) = fst (should_avoid addr m)
  /\ fst (get_lessons limit restarted) = fst (get_lessons limit m)
  /\ fst (get_user_notes limit restarted) = fst (get_user_notes limit m)
  /\ fst (get_patterns restarted) = fst (get_patterns m).
Proof.
  intros m restarted.
  assert (H : _data (_load restarted) = _data (_load m)).
  { apply restart_same_view, mem_run_persisted, init_persisted. }
  unfold should_avoid, get_lessons, get_user_notes, get_patterns. simpl.
  rewrite H. repeat apply conj; reflexivity.
Qed.


(** ** The avoid list only grows *)

Lemma mem_load_idem m : _load (_load m) = _load m.
Proof. apply mem_load_of_loaded, mem_load_loaded. Qed.

Lemma avoid_view_load m : avoid_view (_load m) = avoid_view m.
Proof. unfold avoid_view. rewrite mem_load_idem. reflexivity. Qed.

Lemma avoid_view_saved x :
  _loaded x = true -> avoid_view (_save x) = avoid_tokens (_data x).
Proof.
  intros Hl. unfold avoid_view. rewrite mem_load_of_loaded; [reflexivity |].
  exact Hl.
Qed.

Lemma avoids_grow_refl m : avoids_grow m m.
Proof. exists []. rewrite app_nil_r. reflexivity. Qed.

Lemma avoids_grow_trans m1 m2 m3 :
  avoids_grow m1 m2 -> avoids_grow m2 m3 -> avoids_grow m1 m3.
Proof.
  intros [a Ha] [b Hb]. exists (a ++ b). rewrite Hb, Ha, app_assoc.
  reflexivity.
Qed.

Lemma avoids_grow_same m m' : avoid_view m' = avoid_view m -> avoids_grow m m'.
Proof. intros H. exists []. rewrite app_nil_r. exact H. Qed.

Lemma add_lesson_avoids l s t m : avoids_grow m (add_lesson l s t m).
Proof.
  apply avoids_grow_same. unfold add_lesson.
  rewrite avoid_view_saved by (simpl; apply mem_load_loaded). reflexivity.
Qed.

Lemma add_user_note_avoids n t m : avoids_grow m (add_user_note n t m).
Proof.
  apply avoids_grow_same. unfold add_user_note.
  rewrite avoid_view_saved by (simpl; apply mem_load_loaded). reflexivity.
Qed.

Lemma add_avoid_avoids a r t m : avoids_grow m (add_avoid a r t m).
Proof.
  unfold add_avoid. destruct (decide _).
  - apply avoids_grow_same, avoid_view_load.
  - exists [mkAvoid a r t].
    rewrite avoid_view_saved by (simpl; apply mem_load_loaded). reflexivity.
Qed.

Lemma add_pattern_avoids p m : avoids_grow m (add_pattern p m).
Proof.
  unfold add_pattern. destruct (decide _).
  - apply avoids_grow_same, avoid_view_load.
  - apply avoids_grow_same.
    rewrite avoid_view_saved by (simpl; apply mem_load_loaded). reflexivity.
Qed.

Lemma auto_learn_avoids pct sc br liq sym a r t1 t2 m :
  avoids_grow m (_auto_learn pct sc br liq sym a r t1 t2 m).
Proof.
  unfold _auto_learn. destruct (Py.leb pct (-30)).
  - eapply avoids_grow_trans; [apply add_lesson_avoids | apply add_avoid_avoids].
  - destruct (Py.leb 50 pct); [| apply avoids_grow_refl].
    eapply avoids_grow_trans; [apply add_lesson_avoids | apply add_pattern_avoids].
Qed.

Lemma add_trade_review_avoids a s side pnl pct sc br liq hold r t1 t2 t3 m :
  avoids_grow m
    (add_trade_review a s side pnl pct sc br liq hold r t1 t2 t3 m).
Proof.
  unfold add_trade_review.
  eapply avoids_grow_trans; [| apply auto_learn_avoids].
  apply avoids_grow_same.
  rewrite avoid_view_saved by (simpl; apply mem_load_loaded). reflexivity.
Qed.

Lemma mem_step_avoids m op :
  mem_persisted m -> avoids_grow m (mem_step m op).
Proof.
  intros Hp. destruct op; simpl.
  - apply add_lesson_avoids.
  - apply add_avoid_avoids.
  - apply add_pattern_avoids.
  - apply add_user_note_avoids.
  - apply add_trade_review_avoids.
  - apply avoids_grow_same, avoid_view_load.
  - apply avoids_grow_same. unfold avoid_view.
    rewrite restart_same_view by exact Hp. reflexivity.
Qed.

Lemma mem_run_avoids ops m :
  mem_persisted m -> avoids_grow m (mem_run ops m).
Proof.
  unfold mem_run. revert m.
  induction ops as [| op ops IH]; simpl; intros m Hp;
    [apply avoids_grow_refl |].
  eapply avoids_grow_trans; [apply mem_step_avoids, Hp |].
  apply IH, mem_step_persisted, Hp.
Qed.

(** Once [should_avoid] gives a reason for an address, it gives the same
    reason after any further calls and restarts: avoid entries are never
    removed, replaced or cut. *)
Theorem avoided_token_stays_avoided
    (file : option MemoryData) (before after : list MemOp)
    (addr reason : string) :
  let m := mem_run before (Memory.init file) in
  fst (should_avoid addr m) = Some reason ->
  fst (should_avoid addr (mem_run after m)) = Some reason.
Proof.
  intros m Hav. unfold should_avoid in *. simpl in *.
  destruct (mem_run_avoids after m) as [added Hadd].
  { apply mem_run_persisted, init_persisted. }
  unfold avoid_view in Hadd. rewrite Hadd.
  apply first_reason_present, Hav.
Qed.

Lemma avoided_token_stays_avoided_holds :
  fst (should_avoid "T"
         (mem_run [MAddLesson "wait for volume" "user" 5; MRestart;
                   MAddAvoid "T" "again" 6; MAddPattern "score>=80"]
            (mem_run [MAddAvoid "T" "rug" 1] (Memory.init None))))
  = Some "rug"%string.
Proof.
  apply (avoided_token_stays_avoided None [MAddAvoid "T" "rug" 1]
           [MAddLesson "wait for volume" "user" 5; MRestart;
            MAddAvoid "T" "again" 6; MAddPattern "score>=80"] "T" "rug").
  reflexivity.
Defined.

(** ** Patterns stay distinct *)

Lemma load_patterns m : patterns_consistent m -> patterns_consistent (_load m).
Proof.
  intros [Hd Hs]. unfold _load.
  destruct (_loaded m); [split; assumption |].
  destruct (store m) as [d |] eqn:E; split; simpl; auto.
Qed.

Lemma save_patterns x :
  unique_patterns (_data x) -> patterns_consistent (_save x).
Proof.
  intros Hd. unfold _save. split; simpl; [exact Hd |].
  intros d Heq. inversion Heq; subst. exact Hd.
Qed.

Lemma add_lesson_patterns l s t m :
  patterns_consistent m -> patterns_consistent (add_lesson l s t m).
Proof. intros H. apply save_patterns. simpl. exact (proj1 (load_patterns m H)). Qed.

Lemma add_user_note_patterns n t m :
  patterns_consistent m -> patterns_consistent (add_user_note n t m).
Proof. intros H. apply save_patterns. simpl. exact (proj1 (load_patterns m H)). Qed.

Lemma add_avoid_patterns a r t m :
  patterns_consistent m -> patterns_consistent (add_avoid a r t m).
Proof.
  intros H. unfold add_avoid. destruct (decide _).
  - apply load_patterns, H.
  - apply save_patterns. simpl. exact (proj1 (load_patterns m H)).
Qed.

Lemma add_pattern_patterns p m :
  patterns_consistent m -> patterns_consistent (add_pattern p m).
Proof.
  intros H. unfold add_pattern. destruct (decide _) as [Hin | Hnot].
  - apply load_patterns, H.
  - apply save_patterns. unfold unique_patterns. simpl.
    apply NoDup_app. repeat apply conj.
    + exact (proj1 (load_patterns m H)).
    + intros x Hx Hx'. apply list_elem_of_singleton in Hx'. subst x.
      contradiction.
    + apply NoDup_singleton.
Qed.

Lemma auto_learn_patterns pct sc br liq sym a r t1 t2 m :
  patterns_consistent m ->
  patterns_consistent (_auto_learn pct sc br liq sym a r t1 t2 m).
Proof.
  intros H. unfold _auto_learn. destruct (Py.leb pct (-30)).
  - apply add_avoid_patterns, add_lesson_patterns, H.
  - destruct (Py.leb 50 pct); [| exact H].
    apply add_pattern_patterns, add_lesson_patterns, H.
Qed.

Lemma mem_step_patterns m op :
  patterns_consistent m -> patterns_consistent (mem_step m op).
Proof.
  intros H. destruct op; simpl.
  - apply add_lesson_patterns, H.
  - apply add_avoid_patterns, H.
  - apply add_pattern_patterns, H.
  - apply add_user_note_patterns, H.
  - unfold add_trade_review. apply auto_learn_patterns, save_patterns.
    simpl. exact (proj1 (load_patterns m H)).
  - apply load_patterns, H.
  - destruct H as [_ Hs]. split; simpl; [apply NoDup_nil; constructor | exact Hs].
Qed.

Lemma mem_run_patterns ops m :
  patterns_consistent m -> patterns_consistent (mem_run ops m).
Proof.
  unfold mem_run. revert m.
  induction ops as [| op ops IH]; simpl; intros m H; [exact H |].
  apply IH, mem_step_patterns, H.
Qed.

(** When the stored patterns are distinct, they stay distinct over any
    sequence of calls; registering a pattern makes it present, and
    registering it again changes nothing. *)
Theorem patterns_stay_distinct (file : option MemoryData) (ops : list MemOp)
    (pattern : string) :
  (forall d, file = Some d -> NoDup (prefer_patterns d)) ->
  let m := mem_run ops (Memory.init file) in
  NoDup (fst (get_patterns m))
  /\ fst (get_patterns (add_pattern pattern (add_pattern pattern m)))
     = fst (get_patterns (add_pattern pattern m))
  /\ pattern ∈ fst (get_patterns (add_pattern pattern m)).
Proof.
  intros Hfile m.
  assert (Hc : patterns_consistent m).
  { apply mem_run_patterns. split; simpl; [apply NoDup_nil; constructor |].
    exact Hfile. }
  assert (Hin : pattern ∈ prefer_patterns (_data (_load (add_pattern pattern m)))).
  { unfold add_pattern. destruct (decide _) as [Hin | Hnot].
    - rewrite mem_load_idem. exact Hin.
    - rewrite mem_load_of_loaded by (simpl; apply mem_load_loaded).
      simpl. apply elem_of_app. right. apply list_elem_of_singleton.
      reflexivity. }
  unfold get_patterns. simpl. repeat apply conj.
  - exact (proj1 (load_patterns m Hc)).
  - rewrite (add_pattern_present pattern (add_pattern pattern m) Hin).
    rewrite mem_load_idem. reflexivity.
  - exact Hin.
Qed.

Lemma patterns_stay_distinct_holds :
  NoDup (fst (get_patterns
                (mem_run [MAddPattern "score>=80"; MRestart;
                          MAddPattern "liq>=$100,000"]
                   (Memory.init
                      (Some (mkData [] [] ["score>=80"; "buy_ratio>=70%"]
                               [] []))))))%string.
Proof.
  apply (patterns_stay_distinct
           (Some (mkData [] [] ["score>=80"; "buy_ratio>=70%"] [] []))%string
           [MAddPattern "score>=80"; MRestart; MAddPattern "liq>=$100,000"]
           "x").
  intros d Hd. inversion Hd; subst d. simpl.
  apply (bool_decide_unpack _). vm_compute. reflexivity.
Defined.


(** ** Retention *)

Lemma bounded_is_last_200 {A} (l : list A) : bounded l = Py.last_n 200 l.
Proof.
  unfold bounded, Py.last_n. destruct (Nat.ltb_spec 200 (length l)) as [H | H];
    [reflexivity |].
  replace (length l - 200)%nat with 0%nat by lia. reflexivity.
Qed.

Lemma newest_of_bounded {A} (l : list A) x :
  Py.slice_last 1 (bounded (l ++ [x])) = [x].
Proof.
  rewrite bounded_is_last_200. unfold Py.slice_last, Py.last_n. simpl.
  rewrite length_drop, drop_drop, length_app. simpl.
  rewrite drop_app_length'; [reflexivity |]. lia.
Qed.

Lemma save_within_retention x : within_retention (_data (_save x)).
Proof. unfold within_retention, _save. simpl. repeat apply conj; apply bounded_length. Qed.

Lemma save_stored x : store (_save x) = Some (_data (_save x)).
Proof. reflexivity. Qed.

(** [add_lesson] leaves the last 200 of the earlier lessons followed by
    the new one, saved to the store with all three cut lists within 200
    entries; the new lesson is what [get_lessons(1)] returns, also after a
    restart. *)
Theorem new_lesson_is_the_newest_of_200 (text src : string) (now : Q)
    (m : StrategyMemory) :
  let m' := add_lesson text src now m in
  lessons (_data m')
  = Py.last_n 200 (lessons (_data (_load m)) ++ [mkLesson text src now])
  /\ store m' = Some (_data m')
  /\ within_retention (_data m')
  /\ fst (get_lessons 1 m') = [text]
  /\ fst (get_lessons 1 (Memory.init (store m'))) = [text].
Proof.
  intros m'. subst m'. unfold add_lesson.
  split; [| split; [| split; [| split]]].
  - simpl. apply bounded_is_last_200.
  - apply save_stored.
  - apply save_within_retention.
  - unfold get_lessons. set (m' := _save _).
    assert (Hl : _load m' = m')
      by (apply mem_load_of_loaded; simpl; apply mem_load_loaded).
    rewrite Hl. subst m'. simpl. rewrite newest_of_bounded. reflexivity.
  - unfold get_lessons. simpl. rewrite newest_of_bounded. reflexivity.
Qed.

(** [add_user_note] leaves the last 200 of the earlier notes followed by
    the new one, saved to the store with all three cut lists within 200
    entries; the new note is what [get_user_notes(1)] returns, also after
    a restart. *)
Theorem new_user_note_is_the_newest_of_200 (text : string) (now : Q)
    (m : StrategyMemory) :
  let m' := add_user_note text now m in
  session_notes (_data m')
  = Py.last_n 200 (session_notes (_data (_load m)) ++ [mkNote text now])
  /\ store m' = Some (_data m')
  /\ within_retention (_data m')
  /\ fst (get_user_notes 1 m') = [text]
  /\ fst (get_user_notes 1 (Memory.init (store m'))) = [text].
Proof.
  intros m'. subst m'. unfold add_user_note.
  split; [| split; [| split; [| split]]].
  - simpl. apply bounded_is_last_200.
  - apply save_stored.
  - apply save_within_retention.
  - unfold get_user_notes. set (m' := _save _).
    assert (Hl : _load m' = m')
      by (apply mem_load_of_loaded; simpl; apply mem_load_loaded).
    rewrite Hl. subst m'. simpl. rewrite newest_of_bounded. reflexivity.
  - unfold get_user_notes. simpl. rewrite newest_of_bounded. reflexivity.
Qed.

Lemma add_avoid_retention a r t m :
  _loaded m = true -> within_retention (_data m) ->
  within_retention (_data (add_avoid a r t m)).
Proof.
  intros Hl Hr. unfold add_avoid. destruct (decide _).
  - rewrite mem_load_of_loaded by exact Hl. exact Hr.
  - apply save_within_retention.
Qed.

Lemma add_pattern_retention p m :
  _loaded m = true -> within_retention (_data m) ->
  within_retention (_data (add_pattern p m)).
Proof.
  intros Hl Hr. unfold add_pattern. destruct (decide _).
  - rewrite mem_load_of_loaded by exact Hl. exact Hr.
  - apply save_within_retention.
Qed.

Lemma add_lesson_loaded l s t m : _loaded (add_lesson l s t m) = true.
Proof. simpl. apply mem_load_loaded. Qed.

(** After [add_trade_review], whatever it learns automatically, the
    memory is loaded, the store holds exactly the data in memory, lessons,
    notes and reviews number at most 200 each, and a restart reads the
    same data back. *)
Theorem recorded_review_is_saved_within_bounds
    (token symbol side reason : string) (pnl_sol pnl_pct : Q) (score : Z)
    (buy_ratio liq hold : Q) (now now_lesson now_avoid : Q)
    (m : StrategyMemory) :
  let m' :=
    add_trade_review token symbol side pnl_sol pnl_pct score buy_ratio liq
      hold reason now now_lesson now_avoid m in
  _loaded m' = true
  /\ store m' = Some (_data m')
  /\ within_retention (_data m')
  /\ _data (_load (Memory.init (store m'))) = _data m'.
Proof.
  intros m'.
  assert (Hl : _loaded m' = true).
  { subst m'. unfold add_trade_review, _auto_learn.
    destruct (Py.leb pnl_pct (-30)).
    - unfold add_avoid. destruct (decide _); simpl; apply mem_load_loaded.
    - destruct (Py.leb 50 pnl_pct); [| simpl; apply mem_load_loaded].
      unfold add_pattern. destruct (decide _); simpl; apply mem_load_loaded. }
  assert (Hs : store m' = Some (_data m')).
  { subst m'. unfold add_trade_review, _auto_learn.
    destruct (Py.leb pnl_pct (-30)).
    - unfold add_avoid. destruct (decide _); [| reflexivity].
      rewrite mem_load_of_loaded by apply add_lesson_loaded. reflexivity.
    - destruct (Py.leb 50 pnl_pct); [| reflexivity].
      unfold add_pattern. destruct (decide _); [| reflexivity].
      rewrite mem_load_of_loaded by apply add_lesson_loaded. reflexivity. }
  split; [exact Hl | split; [exact Hs | split]].
  - subst m'. unfold add_trade_review, _auto_learn.
    destruct (Py.leb pnl_pct (-30)).
    + apply add_avoid_retention;
        [apply add_lesson_loaded | apply save_within_retention].
    + destruct (Py.leb 50 pnl_pct); [| apply save_within_retention].
      apply add_pattern_retention;
        [apply add_lesson_loaded | apply save_within_retention].
  - rewrite Hs. reflexivity.
Qed.

(** ** The context text *)

Lemma slice_last_nil {A} (limit : Z) (l : list A) :
  (0 < limit)%Z -> Py.slice_last limit l = [] -> l = [].
Proof.
  intros Hpos. unfold Py.slice_last.
  destruct (Z.ltb_spec 0 limit) as [_ | Hle]; [| lia].
  intros Hd. apply (f_equal length) in Hd. rewrite length_drop in Hd.
  simpl in Hd. destruct l as [| x l]; [reflexivity |]. simpl in Hd. lia.
Qed.

Lemma join_first_char sep c h rest :
  String.get 0 (Py.join sep (String c h :: rest)) = Some c.
Proof. unfold Py.join. simpl. destruct rest; reflexivity. Qed.

Lemma join_is_not_the_placeholder c h rest :
  c <> "N"%char -> Py.join Tool.newline (String c h :: rest) <> no_memory_text.
Proof.
  intros Hc Heq. apply (f_equal (String.get 0)) in Heq.
  rewrite join_first_char in Heq. simpl in Heq. congruence.
Qed.

Lemma performance_lines_head reviews :
  exists h more,
    performance_lines reviews = String "010"%char h :: more.
Proof. unfold performance_lines. simpl. eauto. Qed.

Lemma winning_or_losing (reviews : list TradeReview) :
  (length (winning reviews) + length (losing reviews))%nat = length reviews.
Proof.
  unfold winning, losing. induction reviews as [| r rs IH]; [reflexivity |].
  rewrite !filter_cons. unfold Py.ltb, Py.leb in *.
  destruct (decide _) as [H1 | H1]; destruct (decide _) as [H2 | H2]; simpl.
  - exfalso. rewrite H2 in H1. discriminate H1.
  - lia.
  - lia.
  - exfalso. apply H1. destruct (Qle_bool _ _); [contradiction | reflexivity].
Qed.


Lemma join_newline_header s rest :
  Py.join Tool.newline ((Tool.newline +:+ s) :: rest) <> no_memory_text.
Proof.
  change (Tool.newline +:+ s) with (String "010"%char s).
  apply join_is_not_the_placeholder. discriminate.
Qed.

Lemma join_lessons_header rest :
  Py.join Tool.newline ("LEARNED LESSONS:"%string :: rest) <> no_memory_text.
Proof. apply join_is_not_the_placeholder. discriminate. Qed.

Lemma slice_last_of_nil {A} (limit : Z) : Py.slice_last limit (@nil A) = [].
Proof. unfold Py.slice_last. destruct (0 <? limit)%Z; apply drop_nil. Qed.

Lemma slice_last_nil_iff {A} (limit : Z) (l : list A) :
  (0 < limit)%Z -> l = [] <-> Py.slice_last limit l = [].
Proof.
  intros Hpos. split.
  - intros ->. apply slice_last_of_nil.
  - apply slice_last_nil, Hpos.
Qed.

Lemma map_nil_iff {A B} (f : A -> B) (l : list A) : l = [] <-> map f l = [].
Proof. destruct l; simpl; split; intros H; try reflexivity; discriminate H. Qed.

(** [get_context_for_agent] returns the "No trading memory yet" text
    exactly when the loaded memory has no lesson, pattern, note, avoid
    entry or review; the call leaves the memory loaded and otherwise
    unchanged. *)
Theorem context_is_placeholder_iff_nothing_remembered (m : StrategyMemory) :
  (fst (get_context_for_agent m) = no_memory_text
   <-> nothing_remembered (_data (_load m)))
  /\ snd (get_context_for_agent m) = _load m.
Proof.
  unfold get_context_for_agent, get_lessons, get_patterns, get_user_notes.
  cbv zeta. rewrite !mem_load_idem.
  set (d := _data (_load m)). unfold nothing_remembered.
  rewrite (slice_last_nil_iff 15 (lessons d)) by reflexivity.
  rewrite (map_nil_iff lesson (Py.slice_last 15 (lessons d))).
  rewrite (slice_last_nil_iff 10 (session_notes d)) by reflexivity.
  rewrite (map_nil_iff note (Py.slice_last 10 (session_notes d))).
  rewrite (slice_last_nil_iff 20 (avoid_tokens d)) by reflexivity.
  rewrite (slice_last_nil_iff 50 (trade_reviews d)) by reflexivity.
  set (ls := map lesson _). set (ns := map note _).
  set (avs := Py.slice_last 20 _). set (rvs := Py.slice_last 50 _).
  set (ps := prefer_patterns d).
  clearbody ls ns avs rvs ps.
  destruct (performance_lines_head rvs) as (h & more & Hperf).
  rewrite Hperf. clear Hperf.
  destruct ls as [| l0 ls]; destruct ps as [| p0 ps];
    destruct ns as [| n0 ns]; destruct avs as [| a0 avs];
    destruct rvs as [| r0 rvs]; cbn [app map fst snd];
    (split; [| reflexivity]);
    (split;
     [ intros Heq;
       first
         [ repeat apply conj; reflexivity
         | exfalso; revert Heq;
           first [apply join_lessons_header | apply join_newline_header
                 | apply join_is_not_the_placeholder; discriminate] ]
     | intros (H1 & H2 & H3 & H4 & H5);
       first [reflexivity | discriminate H1 | discriminate H2
             | discriminate H3 | discriminate H4 | discriminate H5] ]).
Qed.

End MemoryMore.
